(** * ged: a line editor in the style of ed, written in Go

    A shallow embedding of the line store (filebuffer.go), the address
    resolver (ged.go) and the command handlers (commands.go), with the
    properties of the specification stated and settled against them.

    Conventions of the embedding.
    - Go's [int] is [Z].  Positions that come from slice lengths never
      leave the range of a machine word; the sums built from numerals
      typed by the user (address arithmetic) carry their 64-bit
      wrap-around, see [wrap].
    - Go's [string] is a byte string: [string] of the standard library.
    - A slice index or slice expression out of range panics: such a
      run ends in [Crash].  [os.Exit] ends a run in [Exited].
    - A Go [error] result is an [option error]; [None] is [nil].
    - Go's [regexp] package is not part of the program: it is the
      interface [Regexp].  The fixed expressions the program compiles at
      start-up are written out as matching functions, each next to the
      expression it stands for. *)

From Stdlib Require Import ZArith Lia Ascii String List Bool.
From stdpp Require Import base list gmap strings.

Local Open Scope Z_scope.

(** ** Machine integers *)

Definition max_int : Z := 2 ^ 63 - 1.
Definition min_int : Z := - 2 ^ 63.

(** Two's complement wrap-around of a 64-bit signed sum. *)
Definition wrap (z : Z) : Z := (z + 2 ^ 63) mod 2 ^ 64 - 2 ^ 63.

(** ** Errors

    One constructor for each error value the program builds; the ones
    made with [fmt.Errorf] keep their argument. *)

Inductive error : Type :=
| ErrOOB                              (* "line is out of bounds" *)
| ErrINV                              (* "invalid address" *)
| ErrOrder                            (* "address out of order" *)
| ErrAtoi (s : string)                (* strconv.Atoi failed *)
| ErrNoMark (c : ascii)               (* "no such mark: %c" *)
| ErrMarkCleared (c : ascii)          (* "mark was cleared: %c" *)
| ErrInvalidRegexp (s : string)       (* "invalid regexp: ..." *)
| ErrRegexpNotFound (s : string)      (* "regexp not found: %s" *)
| ErrCompile (s : string)             (* error of regexp.Compile, as is *)
| ErrFileModified                     (* "warning: file modified" *)
| ErrSingleLine (c : ascii)           (* "%c only takes a single line addres" *)
| ErrStdinUnsupported                 (* "sending to stdin not yet supported" *)
| ErrNoMarkChar                       (* "no mark character supplied" *)
| ErrExecUnsupported                  (* "command execution is not yet supported" *)
| ErrNoSuchFile (s : string)          (* "%s: No such file or directory" *)
| ErrMoveWithin                       (* "cannot move lines to within their own range" *)
| ErrDelimiter                        (* "Invalid pattern delimiter" *)
| ErrInvalidBackref                   (* "invalid backref" *)
| ErrNoMatch                          (* "no match" *)
| ErrInvalidCommand (c : ascii)       (* "invalid command: %v" *)
| ErrWindowSize (s : string)          (* "invalid window size: %s" *)
| ErrIO (s : string).                 (* an error of the os package *)

(** ** The line store (filebuffer.go) *)

(** What the undo history keeps of a buffer. *)
Record Snapshot : Type := mkSnapshot {
  s_file  : list Z;
  s_addr  : Z;
  s_dirty : bool;
  s_marks : gmap ascii Z
}.

(** [type FileBuffer struct]: the pool [buffer] of every line ever seen,
    the view [file] of pool indices, the [dirty] flag, the current
    address [addr] and the [marks].  The field [history] is the undo
    history, used only by [Start], [End] and [Rewind] below. *)
Record FileBuffer : Type := mkFileBuffer {
  buffer  : list string;
  file    : list Z;
  dirty   : bool;
  addr    : Z;
  marks   : gmap ascii Z;
  history : list Snapshot
}.

Definition set_file (v : list Z) (f : FileBuffer) : FileBuffer :=
  mkFileBuffer (buffer f) v (dirty f) (addr f) (marks f) (history f).
Definition set_buffer (p : list string) (f : FileBuffer) : FileBuffer :=
  mkFileBuffer p (file f) (dirty f) (addr f) (marks f) (history f).
Definition set_dirty (d : bool) (f : FileBuffer) : FileBuffer :=
  mkFileBuffer (buffer f) (file f) d (addr f) (marks f) (history f).
Definition set_addr (a : Z) (f : FileBuffer) : FileBuffer :=
  mkFileBuffer (buffer f) (file f) (dirty f) a (marks f) (history f).
Definition set_marks (m : gmap ascii Z) (f : FileBuffer) : FileBuffer :=
  mkFileBuffer (buffer f) (file f) (dirty f) (addr f) m (history f).
Definition set_history (h : list Snapshot) (f : FileBuffer) : FileBuffer :=
  mkFileBuffer (buffer f) (file f) (dirty f) (addr f) (marks f) h.

(** How a call ends: with a value and the buffer it leaves, in a panic,
    in [os.Exit], or with the global [buffer] set to nil.  The last
    happens in [cmdEdit] alone, where [FileToBuffer] hands back a nil
    buffer and no error for a file that it cannot open; [NilBuffer e]
    is the handler returning [e] with no buffer left. *)
Inductive outcome (A : Type) : Type :=
| Val (a : A) (f : FileBuffer)
| Crash
| Exited
| NilBuffer (e : option error).
Arguments Val {A} a f.
Arguments Crash {A}.
Arguments Exited {A}.
Arguments NilBuffer {A} e.

(** A method of [*FileBuffer] with result [A]. *)
Definition M (A : Type) : Type := FileBuffer -> outcome A.

Definition ret {A} (a : A) : M A := fun f => Val a f.
(** A panic, an exit and the loss of the buffer end the call: [cmdEdit]
    returns right after it has set the global buffer to nil. *)
Definition bind {A B} (m : M A) (k : A -> M B) : M B :=
  fun f => match m f with
           | Val a f' => k a f'
           | Crash => Crash
           | Exited => Exited
           | NilBuffer e => NilBuffer e
           end.
Definition get_buf : M FileBuffer := fun f => Val f f.
Definition modify (g : FileBuffer -> FileBuffer) : M unit := fun f => Val tt (g f).
Definition panic {A} : M A := fun _ => Crash.
Definition exit {A} : M A := fun _ => Exited.

Notation "'do' x <- m ;;; k" := (bind m (fun x => k))
  (at level 10, x name, m at level 99, k at level 200, only parsing).
Notation "'do' ' p <- m ;;; k" := (bind m (fun x => match x with p => k end))
  (at level 10, p strict pattern, m at level 99, k at level 200, only parsing).

(** [s[i]] on a slice: [None] is the index-out-of-range panic. *)
Definition idx {A} (l : list A) (i : Z) : option A :=
  if i <? 0 then None else l !! Z.to_nat i.

(** [NewFileBuffer]: the view lists the pool in order. *)
Definition NewFileBuffer (inp : list string) : FileBuffer :=
  mkFileBuffer inp (seqZ 0 (Z.of_nat (length inp))) false 0 ∅ [].

Definition Len (f : FileBuffer) : Z := Z.of_nat (length (file f)).

Definition OOB (f : FileBuffer) (l : Z) : bool :=
  (l <? 0) || (l >=? Len f).

Definition Dirty (f : FileBuffer) : bool := dirty f.
Definition GetAddr (f : FileBuffer) : Z := addr f.

(** [f.buffer[f.file[line]]] *)
Definition line_at (f : FileBuffer) (line : Z) : option string :=
  match idx (file f) line with
  | Some b => idx (buffer f) b
  | None => None
  end.

Definition GetMust (line : Z) (set : bool) : M string :=
  fun f =>
    let f1 := if set then set_addr line f else f in
    match line_at f1 line with
    | Some s => Val s f1
    | None => Crash
    end.

(** The loop of [Get]: [for l := r[0]; l <= r[1]; l++]. *)
Fixpoint Get_loop (ls : list Z) (lines : list string) : M (list string) :=
  match ls with
  | [] => ret lines
  | l :: ls' =>
      fun f => match line_at f l with
               | Some s => Get_loop ls' (lines ++ [s]) (set_addr l f)
               | None => Crash
               end
  end.

Definition Get (r : Z * Z) : M (list string * option error) :=
  fun f =>
    if OOB f (fst r) || OOB f (snd r) then Val ([], Some ErrOOB) f
    else match Get_loop (seqZ (fst r) (snd r - fst r + 1)) [] f with
         | Val ls f' => Val (ls, None) f'
         | Crash => Crash
         | Exited => Exited
         | NilBuffer e => NilBuffer e
         end.

(** First loop of [Delete]: the pool indices of the slots [r[0]..r[1]],
    or [None] when one of them is out of bounds. *)
Fixpoint Delete_blines (f : FileBuffer) (ls : list Z) : option (list Z) :=
  match ls with
  | [] => Some []
  | l :: ls' =>
      if OOB f l then None
      else match idx (file f) l, Delete_blines f ls' with
           | Some b, Some bs => Some (b :: bs)
           | _, _ => None
           end
  end.

(** Inner loop of [Delete]: drop the first slot that holds [b]. *)
Fixpoint remove_first (b : Z) (v : list Z) : list Z :=
  match v with
  | [] => []
  | l :: v' => if l =? b then v' else l :: remove_first b v'
  end.

Definition Delete (r : Z * Z) : M (option error) :=
  fun f =>
    match Delete_blines f (seqZ (fst r) (snd r - fst r + 1)) with
    | None => Val (Some ErrOOB) f
    | Some blines =>
        let f1 := set_file (fold_left (fun v b => remove_first b v) blines (file f)) f in
        let f2 := set_dirty true f1 in
        let f3 := set_addr (fst r + 1) f2 in
        let f4 := if OOB f3 (addr f3) then set_addr 0 f3 else f3 in
        Val None f4
    end.

(** [Insert], as in filebuffer.go: [line == f.Len()] appends. *)
Definition Insert (line : Z) (nlines : list string) : M (option error) :=
  fun f =>
    if negb (line =? Len f) && OOB f line then Val (Some ErrOOB) f
    else if (length nlines =? 0)%nat then Val None f
    else
      let first := Z.of_nat (length (buffer f)) in
      let f1 := set_buffer (buffer f ++ nlines) f in
      let nf := seqZ first (Z.of_nat (length (buffer f1)) - first) in
      let f2 := set_file (take (Z.to_nat line) (file f1) ++ nf
                            ++ drop (Z.to_nat line) (file f1)) f1 in
      let f3 := set_dirty true f2 in
      Val None (set_addr (line + Z.of_nat (length nlines) - 1) f3).

Definition SetAddr (i : Z) : M (option error) :=
  fun f => if OOB f i then Val (Some ErrOOB) f else Val None (set_addr i f).

Definition Clean : M unit := modify (set_dirty false).

Definition SetMark (c : ascii) (l : Z) : M (option error) :=
  fun f =>
    if OOB f l then Val (Some ErrOOB) f
    else match idx (file f) l with
         | Some b => Val None (set_marks (<[c := b]> (marks f)) f)
         | None => Crash
         end.

(** The search of [GetMark]: the first slot that holds [bl]. *)
Fixpoint find_slot (bl : Z) (v : list Z) (i : Z) : option Z :=
  match v with
  | [] => None
  | l :: v' => if l =? bl then Some i else find_slot bl v' (i + 1)
  end.

Definition GetMark (f : FileBuffer) (c : ascii) : Z * option error :=
  match marks f !! c with
  | None => (-1, Some (ErrNoMark c))
  | Some bl =>
      match find_slot bl (file f) 0 with
      | Some l => (l, None)
      | None => (-1, Some (ErrMarkCleared c))
      end
  end.

(** ** Address consumers (ged.go) *)

Definition AddrRange (f : FileBuffer) (addrs : list Z) : (Z * Z) * option error :=
  match rev addrs with
  | [] => ((0, 0), Some ErrINV)
  | last :: before =>
      let r := match before with
               | [] => (GetAddr f, last)          (* case 1 *)
               | prev :: _ => (prev, last)        (* default *)
               end in
      let e := if OOB f (fst r) || OOB f (snd r) then Some ErrOOB else None in
      let e := if fst r >? snd r then Some ErrOrder else e in
      (r, e)
  end.

Definition AddrValue (f : FileBuffer) (addrs : list Z) : Z * option error :=
  match rev addrs with
  | [] => (0, Some ErrINV)
  | r :: _ => (r, if OOB f r then Some ErrOOB else None)
  end.

Definition AddrRangeOrLine (f : FileBuffer) (addrs : list Z) : (Z * Z) * option error :=
  if (1 <? length addrs)%nat then AddrRange f addrs
  else match AddrValue f addrs with
       | (r0, Some e) => ((r0, 0), Some e)
       | (r0, None) => ((r0, r0), None)
       end.


(** ** Strings as Go has them *)

Definition len (s : string) : Z := Z.of_nat (String.length s).

(** [s[n:]]; [None] is the slice-bounds panic. *)
Fixpoint drop_str (n : nat) (s : string) : string :=
  match n, s with
  | O, _ => s
  | S n', String _ s' => drop_str n' s'
  | S _, EmptyString => EmptyString
  end.

Fixpoint take_str (n : nat) (s : string) : string :=
  match n, s with
  | O, _ => EmptyString
  | S n', String c s' => String c (take_str n' s')
  | S _, EmptyString => EmptyString
  end.

Definition str_from (s : string) (n : Z) : option string :=
  if (0 <=? n) && (n <=? len s) then Some (drop_str (Z.to_nat n) s) else None.

(** [s[a:b]] *)
Definition str_slice (s : string) (a b : Z) : option string :=
  if (0 <=? a) && (a <=? b) && (b <=? len s)
  then Some (take_str (Z.to_nat (b - a)) (drop_str (Z.to_nat a) s))
  else None.

(** [s[n]] *)
Definition str_at (s : string) (n : Z) : option ascii :=
  if n <? 0 then None else String.get (Z.to_nat n) s.

Definition is_digit (c : ascii) : bool :=
  let n := nat_of_ascii c in (48 <=? n)%nat && (n <=? 57)%nat.

Definition is_lower (c : ascii) : bool :=
  let n := nat_of_ascii c in (97 <=? n)%nat && (n <=? 122)%nat.

(** The class [\s] of Go's regexp: tab, newline, form feed, carriage
    return, space. *)
Definition is_space (c : ascii) : bool :=
  let n := nat_of_ascii c in
  (n =? 9)%nat || (n =? 10)%nat || (n =? 12)%nat || (n =? 13)%nat || (n =? 32)%nat.

Definition ascii_eqb (a b : ascii) : bool := Ascii.eqb a b.
Arguments ascii_eqb (a b)%_char_scope.

(** The longest prefix of digits: what [[0-9]+] takes. *)
Fixpoint take_digits (s : string) : string :=
  match s with
  | String c s' => if is_digit c then String c (take_digits s') else EmptyString
  | EmptyString => EmptyString
  end.

Fixpoint digits_val (acc : Z) (s : string) : Z :=
  match s with
  | String c s' => digits_val (10 * acc + (Z.of_nat (nat_of_ascii c) - 48)) s'
  | EmptyString => acc
  end.

Fixpoint all_digits (s : string) : bool :=
  match s with
  | String c s' => is_digit c && all_digits s'
  | EmptyString => true
  end.

(** [strconv.Atoi] on an unsigned numeral: a syntax error on anything
    but digits, a range error above the largest [int]. *)
Definition Atoi (s : string) : Z * option error :=
  if negb (all_digits s) || (String.length s =? 0)%nat then (0, Some (ErrAtoi s))
  else let n := digits_val 0 s in
       if n <=? max_int then (n, None) else (max_int, Some (ErrAtoi s)).

(** ** The regexp package, as the program uses it *)

Class Regexp : Type := {
  regex : Type;
  (** [regexp.Compile]; [None] is a compile error. *)
  Compile : string -> option regex;
  (** [re.MatchString] *)
  MatchString : regex -> string -> bool;
  (** [re.FindAllStringSubmatchIndex(s, -1)]: for each match the start
      and end of the match and of every group, [-1] for a group that
      took no part. *)
  FindAllStringSubmatchIndex : regex -> string -> list (list Z)
}.

(** ** The expressions of the address resolver (ged.go)

    Every expression is anchored with [^] by [reStart], so a match is a
    prefix of the input. *)

(** rxWhitespace = "^(\s)", through [wsOffset]: the end of the match,
    or [0]. *)
Definition wsOffset (cmd : string) : Z :=
  match cmd with
  | String c _ => if is_space c then 1 else 0
  | EmptyString => 0
  end.

(** Body of a forward search in [reRE], after the opening slash: a run
    of escaped slashes (first alternative) and of characters other than
    a slash (second alternative), then the closing slash.  The result is the text up to the closing slash.  An escaped slash belongs
    to the body when a closing slash follows later; otherwise the
    backslash ends the body and the slash after it closes the search
    (the first alternative is tried first, the second on backtracking). *)
Fixpoint re_body_fwd (s : string) : option string :=
  match s with
  | EmptyString => None
  | String c rest =>
      if ascii_eqb c "/" then Some EmptyString
      else if ascii_eqb c "\" then
        match rest with
        | String d rest' =>
            if ascii_eqb d "/" then
              match re_body_fwd rest' with
              | Some b => Some (String c (String d b))
              | None => Some (String c EmptyString)
              end
            else option_map (String c) (re_body_fwd rest)
        | EmptyString => None
        end
      else option_map (String c) (re_body_fwd rest)
  end.

(** Body of a backward search in [reRE], after the opening question
    mark.  Its first alternative, written backslash backslash question
    mark, is an optional backslash, so the body is
    the text up to the next question mark, escaped or not. *)
Fixpoint re_body_bwd (s : string) : option string :=
  match s with
  | EmptyString => None
  | String c rest =>
      if ascii_eqb c "?" then Some EmptyString
      else option_map (String c) (re_body_bwd rest)
  end.

(** [rxSingle.FindString]: the alternatives of [reSingle] start with
    different characters, so the first character selects one.  The
    result is [""] when there is no match. *)
Definition rxSingle_FindString (cmd : string) : string :=
  match cmd with
  | EmptyString => EmptyString
  | String c rest =>
      if ascii_eqb c "." || ascii_eqb c "$" then String c EmptyString
      else if is_digit c then take_digits cmd
      else if ascii_eqb c "-" || ascii_eqb c "+" then String c (take_digits rest)
      else if ascii_eqb c "'" then
        match rest with
        | String d _ => if is_lower d then String c (String d EmptyString) else EmptyString
        | EmptyString => EmptyString
        end
      else if ascii_eqb c "/" then
        match re_body_fwd rest with
        | Some b => String c (b +:+ "/")
        | None => EmptyString
        end
      else if ascii_eqb c "?" then
        match re_body_bwd rest with
        | Some b => String c (b +:+ "?")
        | None => EmptyString
        end
      else EmptyString
  end.

(** [rxSingleSymbol.MatchString], [rxNumber.MatchString],
    [rxOffset.MatchString], [rxMark.MatchString], [rxRE.MatchString]. *)
Definition rxSingleSymbol_Match (m : string) : bool :=
  match m with
  | String c _ => ascii_eqb c "." || ascii_eqb c "$"
  | EmptyString => false
  end.

Definition rxNumber_Match (m : string) : bool :=
  match m with
  | String c _ => is_digit c
  | EmptyString => false
  end.

Definition rxOffset_Match (m : string) : bool :=
  match m with
  | String c _ => ascii_eqb c "-" || ascii_eqb c "+"
  | EmptyString => false
  end.

Definition rxMark_Match (m : string) : bool :=
  match m with
  | String c (String d _) => ascii_eqb c "'" && is_lower d
  | _ => false
  end.

(** [rxRE.FindAllStringSubmatch(m, -1)]: at most one match, as the
    expression is anchored; its groups 0, 2 and 3. *)
Definition rxRE_Find (m : string) : option (string * string * string) :=
  match m with
  | String c rest =>
      if ascii_eqb c "/" then
        match re_body_fwd rest with
        | Some b => Some (String c (b +:+ "/"), b, EmptyString)
        | None => None
        end
      else if ascii_eqb c "?" then
        match re_body_bwd rest with
        | Some b => Some (String c (b +:+ "?"), EmptyString, b)
        | None => None
        end
      else None
  | EmptyString => None
  end.

(** rxOff = "^(?:\s+(([0-9]+)|(([-+])([0-9]+)?)))", the groups that
    [ResolveOffset] reads: the length of the match, the number [ms[2]],
    the sign [ms[4]] and the number after it [ms[5]]. *)
Fixpoint skip_space (s : string) : nat * string :=
  match s with
  | String c s' => if is_space c then let (n, r) := skip_space s' in (S n, r)
                   else (O, s)
  | EmptyString => (O, s)
  end.

Record off_match : Type := mkOffMatch {
  om_len : Z; om_num : string; om_sign : option ascii; om_offnum : string
}.

Definition rxOff_Find (cmd : string) : option off_match :=
  let (n, r) := skip_space cmd in
  match n, r with
  | S _, String c r' =>
      if is_digit c then
        let d := take_digits r in
        Some (mkOffMatch (Z.of_nat n + len d) d None EmptyString)
      else if ascii_eqb c "-" || ascii_eqb c "+" then
        let d := take_digits r' in
        Some (mkOffMatch (Z.of_nat n + 1 + len d) EmptyString (Some c) d)
      else None
  | _, _ => None
  end.

(** [ResolveOffset]: [(offset, cmdOffset, e)]. *)
Definition ResolveOffset (cmd : string) : Z * Z * option error :=
  match rxOff_Find cmd with
  | None => (0, 0, None)
  | Some ms =>
      let cmdOffset := om_len ms in
      if (0 <? String.length (om_num ms))%nat then
        match Atoi (om_num ms) with
        | (_, Some e) => (0, cmdOffset, Some e)
        | (n, None) => (n, cmdOffset, None)
        end
      else match om_sign ms with
           | Some sg =>
               let '(n, e) :=
                 if (0 <? String.length (om_offnum ms))%nat
                 then Atoi (om_offnum ms) else (1, None) in
               match e with
               | Some e => (0, cmdOffset, Some e)
               | None =>
                   if ascii_eqb sg "+" then (n, cmdOffset, None)
                   else (- n, cmdOffset, None)
               end
           | None => (0, cmdOffset, None)
           end
  end.

(** ** The address resolver (ged.go) *)

Section Resolver.
Context {RE : Regexp}.

(** The search loop of [ResolveAddr]:
    [c = (sign*i + f.GetAddr() + f.Len()) % f.Len()], Go's [%] being the
    remainder of the truncated division.  [None] is the panic of
    [GetMust]; [Some None] is a search that found nothing. *)
Fixpoint search_loop (f : FileBuffer) (re : regex) (sign : Z) (ks : list Z)
  : option (option Z) :=
  match ks with
  | [] => Some None
  | i :: ks' =>
      let c := Z.rem (sign * i + GetAddr f + Len f) (Len f) in
      match line_at f c with
      | None => None
      | Some s => if MatchString re s then Some (Some c)
                  else search_loop f re sign ks'
      end
  end.

(** The closing loop of [ResolveAddr]: offsets are added while
    [ResolveOffset] finds one.  Each round consumes part of [rest], so
    [fuel = length rest] rounds are never used up. *)
Fixpoint offsets_loop (fuel : nat) (rest : string) (line cmdOffset : Z)
  : Z * Z * option error :=
  match fuel with
  | O => (line, cmdOffset, None)
  | S fuel' =>
      match ResolveOffset rest with
      | (_, _, Some e) => (line, cmdOffset, Some e)
      | (off, cmdoff, None) =>
          if 0 <? cmdoff
          then offsets_loop fuel' (drop_str (Z.to_nat cmdoff) rest)
                 (wrap (line + off)) (cmdOffset + cmdoff)
          else (line, cmdOffset, None)
      end
  end.

(** [ResolveAddr]: [(line, cmdOffset, e)], or [None] for a panic. *)
Definition ResolveAddr (f : FileBuffer) (cmd : string)
  : option (Z * Z * option error) :=
  let line := GetAddr f in
  let m := rxSingle_FindString cmd in
  if (String.length m =? 0)%nat then Some (line, 0, None)
  else
    let cmdOffset := len m in
    let offsets (line : Z) :=
      Some (offsets_loop (String.length cmd)
              (drop_str (String.length m) cmd) line cmdOffset) in
    if rxSingleSymbol_Match m then
      match m with
      | String c _ => if ascii_eqb c "$" then offsets (Len f - 1) else offsets line
      | EmptyString => offsets line
      end
    else if rxNumber_Match m then
      match Atoi (take_digits m) with
      | (_, Some e) => Some (line, cmdOffset, Some e)
      | (n, None) => offsets (n - 1)
      end
    else if rxOffset_Match m then
      match m with
      | String sg ns3 =>
          let '(n, e) := if (0 <? String.length (take_digits ns3))%nat
                         then Atoi (take_digits ns3) else (1, None) in
          match e with
          | Some e => Some (line, cmdOffset, Some e)
          | None =>
              if ascii_eqb sg "+" then offsets (wrap (GetAddr f + n))
              else if ascii_eqb sg "-" then offsets (wrap (GetAddr f - n))
              else offsets line
          end
      | EmptyString => offsets line
      end
    else if rxMark_Match m then
      match str_at m 1 with
      | None => None
      | Some c =>
          match GetMark f c with
          | (l, Some e) => Some (l, cmdOffset, Some e)
          | (l, None) => offsets l
          end
      end
    else
      match rxRE_Find m with
      | None => offsets line
      | Some (full, fwd, bwd) =>
          let '(sign, restr) :=
            match full with
            | String c _ => if ascii_eqb c "?" then (-1, bwd) else (1, fwd)
            | EmptyString => (1, fwd)
            end in
          match Compile restr with
          | None => Some (line, cmdOffset, Some (ErrInvalidRegexp restr))
          | Some re =>
              match search_loop f re sign (seqZ 0 (Len f)) with
              | None => None
              | Some (Some c) => Some (c, cmdOffset, None)
              | Some None => Some (line, cmdOffset, Some (ErrRegexpNotFound restr))
              end
          end
      end.

(** The loop of [ResolveAddrs].  A round that goes on consumes a
    separator, so [fuel = length cmd + 1] rounds are never used up. *)
Fixpoint ResolveAddrs_loop (fuel : nat) (cmd : string) (lines : list Z)
  (cmdOffset : Z) : M (list Z * Z * option error) :=
  fun f =>
    match fuel with
    | O => Val (lines, cmdOffset, None) f
    | S fuel' =>
        if negb (cmdOffset <? len cmd) then Val (lines, cmdOffset, None) f
        else
          let cmdOffset := cmdOffset + wsOffset (drop_str (Z.to_nat cmdOffset) cmd) in
          match ResolveAddr f (drop_str (Z.to_nat cmdOffset) cmd) with
          | None => Crash
          | Some (_, _, Some e) => Val (lines, cmdOffset, Some e) f
          | Some (line, off, None) =>
              let lines := lines ++ [line] in
              let cmdOffset := cmdOffset + off in
              let cmdOffset :=
                cmdOffset + wsOffset (drop_str (Z.to_nat cmdOffset) cmd) in
              if len cmd - 1 <=? cmdOffset then Val (lines, cmdOffset, None) f
              else
                match str_at cmd cmdOffset with
                | None => Crash
                | Some c =>
                    if ascii_eqb c "," then
                      ResolveAddrs_loop fuel' cmd lines (cmdOffset + 1) f
                    else if ascii_eqb c ";" then
                      if OOB f line then Val (lines, cmdOffset, Some ErrOOB) f
                      else ResolveAddrs_loop fuel' cmd lines (cmdOffset + 1)
                             (set_addr line f)
                    else if ascii_eqb c "%" then
                      let lines := lines ++ [0; Len f - 1] in
                      let cmdOffset := cmdOffset + 1 in
                      Val (lines,
                           cmdOffset + wsOffset (drop_str (Z.to_nat cmdOffset) cmd),
                           None) f
                    else Val (lines, cmdOffset, None) f
                end
          end
    end.

Definition ResolveAddrs (cmd : string) : M (list Z * Z * option error) :=
  ResolveAddrs_loop (S (String.length cmd)) cmd [] 0.

End Resolver.

(** A small instance of [Regexp] to run examples with: a pattern is a
    literal text and matches where it occurs. *)
Fixpoint lit_occurs (p s : string) : bool :=
  String.prefix p s ||
  match s with
  | String _ s' => lit_occurs p s'
  | EmptyString => false
  end.

Fixpoint lit_scan (p s : string) (pos : Z) (skip : nat) : list (list Z) :=
  match s with
  | EmptyString => []
  | String _ s' =>
      match skip with
      | S k => lit_scan p s' (pos + 1) k
      | O => if String.prefix p s
             then [pos; pos + len p] :: lit_scan p s' (pos + 1) (String.length p - 1)
             else lit_scan p s' (pos + 1) O
      end
  end.

Definition LiteralRegexp : Regexp :=
  {| regex := string;
     Compile := fun p => Some p;
     MatchString := fun p s => lit_occurs p s;
     FindAllStringSubmatchIndex := fun p s => lit_scan p s 0 O |}.

(** ** The undo history *)

Definition snapshot (f : FileBuffer) : Snapshot :=
  mkSnapshot (file f) (addr f) (dirty f) (marks f).

Definition restore (s : Snapshot) (f : FileBuffer) : FileBuffer :=
  mkFileBuffer (buffer f) (s_file s) (s_dirty s) (s_addr s) (s_marks s) (history f).

(** Modelled from the spec: [FileBuffer.Start], which the source calls
    in [run] but does not define.  "Begin pushes a snapshot (shallow
    copies of view, marks, current address, dirty)". *)
Definition Start : M unit :=
  modify (fun f => set_history (snapshot f :: history f) f).

(** Modelled from the spec: [FileBuffer.End], called in [run] and not
    defined in the source.  "End is a no-op marker (snapshots are only
    popped by Undo)". *)
Definition End : M unit := ret tt.

(** Modelled from the spec: [FileBuffer.Rewind], called by [cmdUndo] and
    not defined in the source.  "Undo restores the most recently pushed
    snapshot.  Calling Undo twice in a row toggles between the two
    states (Undo itself pushes a snapshot of the pre-undo state)."
    "Snapshots are only popped by Undo".  [Rewind] pops the entry on top
    of the history, the most recently pushed snapshot, restores it, and
    pushes the snapshot of the pre-undo state.  On an empty history
    there is nothing to restore. *)
Definition Rewind : M unit :=
  modify (fun f =>
    match history f with
    | s :: h => set_history (snapshot f :: h) (restore s f)
    | [] => f
    end).

(** ** Commands (commands.go) *)

(** [type Context struct] *)
Record Context : Type := mkContext {
  c_cmd       : string;   (* full command string *)
  c_cmdOffset : Z;        (* start of the command after address resolution *)
  c_addrs     : list Z    (* resolved addresses *)
}.

(** What a command reads besides the buffer: the session variables of
    [state], the flag [-s], the lines waiting on standard input and the
    file system.  What a command prints, and what it stores in [state],
    does not come back to the buffer and is left out. *)
Record Env : Type := mkEnv {
  stdin       : list string;
  fileName    : string;                   (* state.fileName *)
  winSize     : Z;                        (* state.winSize *)
  fSuppress   : bool;                     (* *fSuppress *)
  file_exists : string -> bool;           (* os.Stat finds the file *)
  file_lines  : string -> option (list string);
                                          (* the lines FileToBuffer scans;
                                             None when os.Open fails *)
  file_write  : string -> bool -> list string -> option error
                                          (* os.OpenFile, with O_APPEND or
                                             O_TRUNC, and the Fprintf of
                                             every line *)
}.

(** Results of the pure parts of a handler. *)
Inductive result (A : Type) : Type :=
| Ok (a : A)
| Fail (e : error)
| Panic.
Arguments Ok {A} a.
Arguments Fail {A} e.
Arguments Panic {A}.

Definition rbind {A B} (r : result A) (k : A -> result B) : result B :=
  match r with
  | Ok a => k a
  | Fail e => Fail e
  | Panic => Panic
  end.

Definition of_option {A} (o : option A) : result A :=
  match o with
  | Some a => Ok a
  | None => Panic
  end.

(** [ctx.cmd[ctx.cmdOffset]] *)
Definition cmd_byte (ctx : Context) : M ascii :=
  match str_at (c_cmd ctx) (c_cmdOffset ctx) with
  | Some c => ret c
  | None => panic
  end.

(** [ctx.cmd[ctx.cmdOffset+1:]] *)
Definition cmd_suffix (ctx : Context) : M string :=
  match str_from (c_cmd ctx) (c_cmdOffset ctx + 1) with
  | Some s => ret s
  | None => panic
  end.

(** The lines that input mode reads: up to a line that is a single dot,
    or to the end of the input. *)
Fixpoint input_lines (inp : list string) : list string :=
  match inp with
  | [] => []
  | line :: inp' => if String.eqb line "." then [] else line :: input_lines inp'
  end.

(** [Size]: the bytes of the view; [None] is the panic on a pool index
    out of range. *)
Fixpoint Size_loop (pool : list string) (v : list Z) (s : Z) : option Z :=
  match v with
  | [] => Some s
  | i :: v' =>
      match idx pool i with
      | Some line => Size_loop pool v' (s + len line)
      | None => None
      end
  end.

Definition Size (f : FileBuffer) : option Z := Size_loop (buffer f) (file f) 0.

(** [rxWrite]: an optional q (group 1), an optional space, an optional
    exclamation mark (group 2), and the rest of the line (group 3). *)
Fixpoint upto_newline (s : string) : string :=
  match s with
  | String c s' => if ascii_eqb c "010" then EmptyString else String c (upto_newline s')
  | EmptyString => EmptyString
  end.

Definition rxWrite_Find (s : string) : bool * bool * string :=
  let (q, s1) := match s with
                 | String c s' => if ascii_eqb c "q" then (true, s') else (false, s)
                 | EmptyString => (false, s)
                 end in
  let s2 := match s1 with
            | String c s' => if ascii_eqb c " " then s' else s1
            | EmptyString => s1
            end in
  let (bang, s3) := match s2 with
                    | String c s' => if ascii_eqb c "!" then (true, s') else (false, s2)
                    | EmptyString => (false, s2)
                    end in
  (q, bang, upto_newline s3).

(** Width in bytes of the first rune of [s], as [utf8.DecodeRuneInString]
    reports it: a byte that starts no well-formed encoding has width 1. *)
Definition byte_in (lo hi : nat) (s : string) (i : nat) : bool :=
  match String.get i s with
  | Some c => let n := nat_of_ascii c in (lo <=? n)%nat && (n <=? hi)%nat
  | None => false
  end.

Definition rune_len (s : string) : nat :=
  let cont := byte_in 128 191 s in
  if byte_in 194 223 s 0 && cont 1%nat then 2
  else if byte_in 224 224 s 0 && byte_in 160 191 s 1 && cont 2%nat then 3
  else if byte_in 225 236 s 0 && cont 1%nat && cont 2%nat then 3
  else if byte_in 237 237 s 0 && byte_in 128 159 s 1 && cont 2%nat then 3
  else if byte_in 238 239 s 0 && cont 1%nat && cont 2%nat then 3
  else if byte_in 240 240 s 0 && byte_in 144 191 s 1 && cont 2%nat && cont 3%nat then 4
  else if byte_in 241 243 s 0 && cont 1%nat && cont 2%nat && cont 3%nat then 4
  else if byte_in 244 244 s 0 && byte_in 128 143 s 1 && cont 2%nat && cont 3%nat then 4
  else 1.

(** rxSanitize = "\\.", through [ReplaceAllString(cmd, fill fill)]: a
    backslash and the rune after it, unless that is a newline, become
    two filling characters.  [skip] counts the bytes left of a rune
    that is being replaced. *)
Fixpoint sanitize (fill : ascii) (s : string) (skip : nat) : string :=
  match s with
  | EmptyString => EmptyString
  | String c s' =>
      match skip with
      | S k => sanitize fill s' k
      | O =>
          if ascii_eqb c "\" then
            match s' with
            | String d _ =>
                if ascii_eqb d "010" then String c (sanitize fill s' O)
                else String fill (String fill (sanitize fill s' (rune_len s')))
            | EmptyString => String c EmptyString
            end
          else String c (sanitize fill s' O)
      end
  end.

(** rxBackrefSanitize = "\\\\", through [ReplaceAllString(rep, "  ")]:
    two backslashes become two spaces. *)
Fixpoint backref_sanitize (s : string) (skip : bool) : string :=
  match s with
  | EmptyString => EmptyString
  | String c s' =>
      if skip then String " " (backref_sanitize s' false)
      else match s' with
           | String d _ =>
               if ascii_eqb c "\" && ascii_eqb d "\"
               then String " " (backref_sanitize s' true)
               else String c (backref_sanitize s' false)
           | EmptyString => String c EmptyString
           end
  end.

(** rxBackref = "\\([0-9]+)", through [FindAllStringSubmatchIndex]: for
    every backslash followed by digits, the bounds of the match and of
    the digits. *)
Fixpoint rxBackref_FindAll (s : string) (pos : Z) (skip : nat) : list (Z * Z * Z * Z) :=
  match s with
  | EmptyString => []
  | String c s' =>
      match skip with
      | S k => rxBackref_FindAll s' (pos + 1) k
      | O =>
          let d := take_digits s' in
          if ascii_eqb c "\" && (0 <? String.length d)%nat
          then (pos, pos + 1 + len d, pos + 1, pos + 1 + len d)
                 :: rxBackref_FindAll s' (pos + 1) (String.length d)
          else rxBackref_FindAll s' (pos + 1) O
      end
  end.

(** [string(del)] for a byte [del]: the UTF-8 encoding of the code point
    of that value, two bytes from 128 on. *)
Definition string_of_byte (del : ascii) : string :=
  let n := nat_of_ascii del in
  if (n <? 128)%nat then String del EmptyString
  else String (ascii_of_nat (192 + n / 64))
         (String (ascii_of_nat (128 + n mod 64)) EmptyString).

(** [strings.Index] *)
Fixpoint str_index (needle hay : string) (pos : Z) : Z :=
  if String.prefix needle hay then pos
  else match hay with
       | String _ hay' => str_index needle hay' (pos + 1)
       | EmptyString => -1
       end.

(** The replacement of one match [m] of line [l] in [cmdSub]: the
    literal spans of [rep] interleaved with the groups the [refs] name. *)
Fixpoint fill_backrefs (rep l : string) (m : list Z) (refs : list (Z * Z * Z * Z))
  (oRep : Z) (fRep : string) : result string :=
  match refs with
  | [] => rbind (of_option (str_from rep oRep)) (fun tail => Ok (fRep +:+ tail))
  | (r0, r1, r2, r3) :: refs' =>
      rbind (of_option (str_slice rep r2 r3)) (fun num =>
      let i := fst (Atoi num) in
      if i >? Z.quot (Z.of_nat (length m)) 2 - 1 then Fail ErrInvalidBackref
      else
        rbind (of_option (str_slice rep oRep r0)) (fun lit =>
        rbind (of_option (idx m (2 * i))) (fun g0 =>
        rbind (of_option (idx m (2 * i + 1))) (fun g1 =>
        rbind (of_option (str_slice l g0 g1)) (fun grp =>
        fill_backrefs rep l m refs' r1 (fRep +:+ lit +:+ grp))))))
  end.

(** The new text of a line [l] with its [matches]. *)
Fixpoint sub_line (rep l : string) (refs : list (Z * Z * Z * Z))
  (matches : list (list Z)) (oLin : Z) (fLin : string) : result string :=
  match matches with
  | [] => rbind (of_option (str_from l oLin)) (fun tail => Ok (fLin +:+ tail))
  | m :: matches' =>
      rbind (fill_backrefs rep l m refs 0 EmptyString) (fun fRep =>
      rbind (of_option (idx m 0)) (fun m0 =>
      rbind (of_option (str_slice l oLin m0)) (fun pre =>
      rbind (of_option (idx m 1)) (fun m1 =>
      sub_line rep l refs matches' m1 (fLin +:+ pre +:+ fRep)))))
  end.

(** The type [Command] of the source, a function from a context to an
    error, with the environment it reads. *)
Definition Command : Type := Env -> Context -> M (option error).

Section Commands.
Context {RE : Regexp}.

(** Methods of [FileBuffer] that the handlers call and the source does
    not define: [Copy], [Paste] and [ReadFile]. *)
Variable Copy : Z * Z -> M (option error).
Variable Paste : Z -> M (option error).
Variable ReadFile : Env -> Z -> string -> M (option error).

Definition cmdDelete : Command := fun env ctx =>
  do f <- get_buf ;;;
  match AddrRangeOrLine f (c_addrs ctx) with
  | (_, Some e) => ret (Some e)
  | (r, None) => Delete r
  end.

Definition cmdQuit : Command := fun env ctx =>
  do c <- cmd_byte ctx ;;;
  do f <- get_buf ;;;
  if ascii_eqb c "q" && Dirty f then ret (Some ErrFileModified)
  else exit.

(** The loop of [cmdPrint]; the printing is left out. *)
Fixpoint print_loop (ls : list Z) : M unit :=
  match ls with
  | [] => ret tt
  | l :: ls' => do _ <- GetMust l true ;;; print_loop ls'
  end.

Definition cmdPrint : Command := fun env ctx =>
  do f <- get_buf ;;;
  match AddrRangeOrLine f (c_addrs ctx) with
  | (_, Some e) => ret (Some e)
  | (r, None) =>
      do c <- cmd_byte ctx ;;;
      do _ <- print_loop (seqZ (fst r) (snd r - fst r + 1)) ;;;
      ret None
  end.

(** [cmdErr], [cmdFile], [cmdPrompt], [cmdDump] and the comment command
    read and write [state] and print; [cmdCommand] runs a shell.  None
    of them touches the buffer. *)
Definition cmdErr : Command := fun env ctx => do c <- cmd_byte ctx ;;; ret None.
Definition cmdFile : Command := fun env ctx => ret None.
Definition cmdPrompt : Command := fun env ctx => ret None.
Definition cmdDump : Command := fun env ctx => ret None.
Definition cmdCommand : Command := fun env ctx => do s <- cmd_suffix ctx ;;; ret None.
Definition cmdComment : Command := fun env ctx => ret None.

Definition cmdInput : Command := fun env ctx =>
  do suffix <- cmd_suffix ctx ;;;
  do c <- cmd_byte ctx ;;;
  if negb (len suffix =? 0) && negb (ascii_eqb c "c") then ret (Some (ErrSingleLine c))
  else
    let nbuf := input_lines (stdin env) in
    if (length nbuf =? 0)%nat then ret None
    else if ascii_eqb c "i" then
      do f <- get_buf ;;;
      match AddrValue f (c_addrs ctx) with
      | (_, Some e) => ret (Some e)
      | (line, None) => Insert line nbuf
      end
    else if ascii_eqb c "a" then
      do f <- get_buf ;;;
      match AddrValue f (c_addrs ctx) with
      | (_, Some e) => ret (Some e)
      | (line, None) => Insert (line + 1) nbuf
      end
    else if ascii_eqb c "c" then
      do f <- get_buf ;;;
      match AddrRange f (c_addrs ctx) with
      | (_, Some e) => ret (Some e)
      | (r, None) => do _ <- Delete r ;;; Insert (fst r) nbuf
      end
    else ret None.

Definition cmdWrite : Command := fun env ctx =>
  do f <- get_buf ;;;
  let '(r, e) := if c_cmdOffset ctx =? 0 then ((0, Len f - 1), None)
                 else AddrRange f (c_addrs ctx) in
  match e with
  | Some e => ret (Some e)
  | None =>
      do suffix <- cmd_suffix ctx ;;;
      let '(quit, run, name) := rxWrite_Find suffix in
      let file := if (0 <? String.length name)%nat then name else fileName env in
      do '(lstr, e) <- Get r ;;;
      match e with
      | Some e => ret (Some e)
      | None =>
          if run : bool then ret (Some ErrStdinUnsupported)
          else
            do c <- cmd_byte ctx ;;;
            match file_write env file (ascii_eqb c "W") lstr with
            | Some e => ret (Some e)
            | None =>
                (* cmdQuit(ctx): the command byte is w or W, never q *)
                do _ <- (if quit : bool then cmdQuit env ctx else ret None) ;;;
                do _ <- Clean ;;;
                ret None
            end
      end
  end.

Definition cmdMark : Command := fun env ctx =>
  if len (c_cmd ctx) - 1 <=? c_cmdOffset ctx then ret (Some ErrNoMarkChar)
  else
    match str_at (c_cmd ctx) (c_cmdOffset ctx + 1) with
    | None => panic
    | Some c =>
        do f <- get_buf ;;;
        match AddrValue f (c_addrs ctx) with
        | (_, Some e) => ret (Some e)
        | (l, None) => SetMark c l
        end
    end.

(** [cmdEdit] serves e, E and r.  [FileToBuffer] returns a nil buffer
    and no error when the file cannot be opened; the handler assigns it
    to the global [buffer] and goes on: without [-s] the call of
    [buffer.Size()] on the nil buffer panics, with [-s] the handler
    returns no error and leaves the global buffer nil. *)
Definition cmdEdit : Command := fun env ctx =>
  do f <- get_buf ;;;
  match AddrValue f (c_addrs ctx) with
  | (_, Some e) => ret (Some e)
  | (addr, None) =>
      do c <- cmd_byte ctx ;;;
      let force := ascii_eqb c "E" || ascii_eqb c "r" in
      if Dirty f && negb force then ret (Some ErrFileModified)
      else
        do suffix <- cmd_suffix ctx ;;;
        let filename := drop_str (Z.to_nat (wsOffset suffix)) suffix in
        match filename with
        | EmptyString => panic                      (* filename[0] *)
        | String c0 _ =>
            if ascii_eqb c0 "!" then ret (Some ErrExecUnsupported)
            else if negb (file_exists env filename) && negb (fSuppress env)
            then ret (Some (ErrNoSuchFile filename))
            else
              do e <- (if negb (ascii_eqb c "r") then
                      match file_lines env filename with
                      | Some b => do _ <- modify (fun _ => NewFileBuffer b) ;;; ret None
                      | None => if negb (fSuppress env) then panic
                                else fun _ => NilBuffer None
                      end
                    else ReadFile env addr filename) ;;;
              do f' <- get_buf ;;;
              if negb (fSuppress env) then
                match Size f' with
                | Some _ => ret e
                | None => panic
                end
              else ret e
        end
  end.

Definition cmdLine : Command := fun env ctx =>
  do f <- get_buf ;;;
  ret (snd (AddrValue f (c_addrs ctx))).

(** The loop of [cmdJoin]: [joined += buffer.GetMust(l, false)]. *)
Fixpoint join_loop (ls : list Z) (joined : string) : M string :=
  match ls with
  | [] => ret joined
  | l :: ls' => do s <- GetMust l false ;;; join_loop ls' (joined +:+ s)
  end.

Definition cmdJoin : Command := fun env ctx =>
  do f <- get_buf ;;;
  match AddrRangeOrLine f (c_addrs ctx) with
  | (_, Some e) => ret (Some e)
  | (r, None) =>
      if fst r =? snd r then ret None
      else
        do joined <- join_loop (seqZ (fst r) (snd r - fst r + 1)) EmptyString ;;;
        do e <- Delete r ;;;
        match e with
        | Some e => ret (Some e)
        | None => Insert (fst r) [joined]
        end
  end.

(** The lines that open [cmdMove] and [cmdPaste]: an address [-1], the
    parsed [0], becomes [0] and turns [append] off. *)
Definition allow_zero (addrs : list Z) : option (list Z * Z) :=
  let last := Z.of_nat (length addrs) - 1 in
  match idx addrs last with
  | None => None
  | Some a =>
      if a =? -1 then Some (<[Z.to_nat last := 0]> addrs, 0)
      else Some (addrs, 1)
  end.

Definition cmdMove : Command := fun env ctx =>
  do cmd <- cmd_byte ctx ;;;
  do f <- get_buf ;;;
  match AddrRangeOrLine f (c_addrs ctx) with
  | (_, Some e) => ret (Some e)
  | (r, None) =>
      do destStr <- cmd_suffix ctx ;;;
      do '(naddrs, _, e) <- ResolveAddrs destStr ;;;
      match e with
      | Some e => ret (Some e)
      | None =>
          match allow_zero naddrs with
          | None => panic
          | Some (naddrs, append) =>
              do f1 <- get_buf ;;;
              match AddrValue f1 naddrs with
              | (_, Some e) => ret (Some e)
              | (dest, None) =>
                  do '(lines, e) <- Get r ;;;
                  match e with
                  | Some e => ret (Some e)
                  | None =>
                      let delt := snd r - fst r + 1 in
                      let shifted :=
                        if dest <? fst r then Some (fst r + delt, snd r + delt)
                        else if dest >? snd r then Some r
                        else None in
                      match shifted with
                      | None => ret (Some ErrMoveWithin)
                      | Some r' =>
                          do e <- Insert (dest + append) lines ;;;
                          match e with
                          | Some e => ret (Some e)
                          | None =>
                              if ascii_eqb cmd "m" then Delete r' else ret None
                          end
                      end
                  end
              end
          end
      end
  end.

Definition cmdCopy : Command := fun env ctx =>
  do f <- get_buf ;;;
  match AddrRangeOrLine f (c_addrs ctx) with
  | (_, Some e) => ret (Some e)
  | (r, None) => Copy r
  end.

Definition cmdPaste : Command := fun env ctx =>
  match allow_zero (c_addrs ctx) with
  | None => panic
  | Some (addrs, append) =>
      do f <- get_buf ;;;
      match AddrValue f addrs with
      | (_, Some e) => ret (Some e)
      | (addr, None) => Paste (addr + append)
      end
  end.

Definition cmdUndo : Command := fun env ctx => do _ <- Rewind ;;; ret None.

(** [strconv.Atoi] on a suffix that may carry a sign. *)
Definition Atoi_signed (s : string) : Z * option error :=
  match s with
  | String c ds =>
      if ascii_eqb c "+" then Atoi ds
      else if ascii_eqb c "-" then
        if negb (all_digits ds) || (String.length ds =? 0)%nat then (0, Some (ErrAtoi s))
        else let n := digits_val 0 ds in
             if n <=? - min_int then (- n, None) else (min_int, Some (ErrAtoi s))
      else Atoi s
  | EmptyString => Atoi s
  end.

Definition cmdScroll : Command := fun env ctx =>
  do f <- get_buf ;;;
  match AddrValue f (c_addrs ctx) with
  | (_, Some e) => ret (Some e)
  | (start, None) =>
      do winStr <- cmd_suffix ctx ;;;
      let '(win, e) := if 0 <? len winStr then Atoi_signed winStr
                       else (winSize env, None) in
      match e with
      | Some _ => ret (Some (ErrWindowSize winStr))
      | None =>
          let end_ := wrap (wrap (start + win) - 1) in
          let end_ := if end_ >? Len f - 1 then Len f - 1 else end_ in
          do '(_, e) <- Get (start, end_) ;;;
          ret e
      end
  end.

(** The head of [cmdSub]: the pattern and the replacement, cut out of
    the text after the command byte at the delimiters found in its
    sanitized copy. *)
Definition bad_delimiter (del : ascii) : bool :=
  ascii_eqb del " " || ascii_eqb del "010" || ascii_eqb del "m" || ascii_eqb del "g".

Definition sub_parse (cmd : string) : result (string * string) :=
  match cmd with
  | EmptyString => Panic                                   (* cmd[0] *)
  | String del _ =>
      if bad_delimiter del then Fail ErrDelimiter
      else
        let sane := sanitize " " cmd O in
        rbind (of_option (str_from sane 1)) (fun sane1 =>
        let idx0 := str_index (string_of_byte del) sane1 0 + 1 in
        rbind (if idx0 =? -1 then Ok (-1)
               else rbind (of_option (str_from sane (idx0 + 1))) (fun t =>
                    Ok (str_index (string_of_byte del) t 0 + idx0 + 1)))
              (fun idx1 =>
        let idx1 := if idx1 =? -1 then len cmd - 1 else idx1 in
        rbind (of_option (str_slice cmd 1 idx0)) (fun mat =>
        rbind (of_option (str_slice cmd (idx0 + 1) idx1)) (fun rep =>
        Ok (mat, rep)))))
  end.

(** The loop of [cmdSub] over the lines [b] of the range: [ln] is the
    position of the line in [b], and it is [ln] that [Delete] and
    [Insert] are given. *)
Fixpoint sub_lines (rx : regex) (rep : string) (refs : list (Z * Z * Z * Z))
  (b : list string) (ln nMatch : Z) : M (option error) :=
  match b with
  | [] => ret (if nMatch =? 0 then Some ErrNoMatch else None)
  | l :: b' =>
      let matches := FindAllStringSubmatchIndex rx l in
      if (length matches =? 0)%nat then sub_lines rx rep refs b' (ln + 1) nMatch
      else
        match sub_line rep l refs matches 0 EmptyString with
        | Panic => panic
        | Fail e => ret (Some e)
        | Ok fLin =>
            do _ <- Delete (ln, ln) ;;;
            do _ <- Insert ln [fLin] ;;;
            sub_lines rx rep refs b' (ln + 1) (nMatch + Z.of_nat (length matches))
        end
  end.

Definition cmdSub : Command := fun env ctx =>
  do cmd <- cmd_suffix ctx ;;;
  match sub_parse cmd with
  | Panic => panic
  | Fail e => ret (Some e)
  | Ok (mat, rep) =>
      let repSane := backref_sanitize rep false in
      let refs := rxBackref_FindAll repSane 0 O in
      do f <- get_buf ;;;
      match AddrRangeOrLine f (c_addrs ctx) with
      | (_, Some e) => ret (Some e)
      | (r, None) =>
          match Compile mat with
          | None => ret (Some (ErrCompile mat))
          | Some rx =>
              do '(b, _) <- Get r ;;;
              sub_lines rx rep refs b 0 0
          end
      end
  end.

(** [var cmds = map[byte]Command] *)
Definition cmds_table : list (ascii * Command) :=
  [ ("q", cmdQuit); ("Q", cmdQuit); ("d", cmdDelete); ("l", cmdPrint);
    ("p", cmdPrint); ("n", cmdPrint); ("h", cmdErr); ("H", cmdErr);
    ("a", cmdInput); ("i", cmdInput); ("c", cmdInput); ("w", cmdWrite);
    ("W", cmdWrite); ("k", cmdMark); ("e", cmdEdit); ("E", cmdEdit);
    ("r", cmdEdit); ("f", cmdFile); ("=", cmdLine); ("j", cmdJoin);
    ("m", cmdMove); ("t", cmdMove); ("y", cmdCopy); ("x", cmdPaste);
    ("P", cmdPrompt); ("s", cmdSub); ("u", cmdUndo); ("D", cmdDump);
    ("z", cmdScroll); ("!", cmdCommand); ("#", cmdComment) ]%char.

Fixpoint assoc (c : ascii) (t : list (ascii * Command)) : option Command :=
  match t with
  | [] => None
  | (k, exe) :: t' => if ascii_eqb k c then Some exe else assoc c t'
  end.

Definition cmds (c : ascii) : option Command := assoc c cmds_table.

(** [run]: parse one input line and run its command, between [Start]
    and [End]. *)
Definition run (env : Env) (cmd : string) : M (option error) :=
  do '(addrs, cmdOffset, e) <- ResolveAddrs cmd ;;;
  match e with
  | Some e => ret (Some e)
  | None =>
      let ccmd := if len cmd <=? cmdOffset then cmd +:+ "p" else cmd in
      let ctx := mkContext ccmd cmdOffset addrs in
      match str_at ccmd cmdOffset with
      | None => panic
      | Some c =>
          match cmds c with
          | Some exe =>
              do _ <- Start ;;;
              do e <- exe env ctx ;;;
              match e with
              | Some e => ret (Some e)
              | None => do _ <- End ;;; ret None
              end
          | None =>
              match str_at cmd cmdOffset with
              | Some c' => ret (Some (ErrInvalidCommand c'))
              | None => panic
              end
          end
      end
  end.

End Commands.

(** ** Vocabulary of the statements *)

(** The characters the address resolver gives a meaning to at the head
    of a command: those that start an address and the separators. *)
Definition is_addr_char (c : ascii) : bool :=
  is_digit c || ascii_eqb c "." || ascii_eqb c "$" || ascii_eqb c "+"
  || ascii_eqb c "-" || ascii_eqb c "'" || ascii_eqb c "/" || ascii_eqb c "?"
  || ascii_eqb c "," || ascii_eqb c ";" || ascii_eqb c "%".

(** Every slot of the view holds an index of the pool. *)
Definition wf_view (f : FileBuffer) : bool :=
  forallb (fun b => (0 <=? b) && (b <? Z.of_nat (length (buffer f)))) (file f).

(** The buffer of the scenarios: three lines, nothing modified. *)
Definition three_lines : FileBuffer := NewFileBuffer ["a"; "b"; "c"]%string.

(** An environment for the examples: no input waiting, every file
    there and empty, every write successful. *)
Definition quiet_env : Env :=
  mkEnv [] "file"%string 22 false (fun _ => true) (fun _ => Some [])
    (fun _ _ _ => None).

(** The line the search of [ResolveAddr] looks at in round [i]. *)
Definition probe (f : FileBuffer) (sign i : Z) : Z :=
  Z.rem (sign * i + GetAddr f + Len f) (Len f).

(** A method [m] respects a relation [R] between the buffer before and
    after, whenever it returns. *)
Definition respects {A} (R : FileBuffer -> FileBuffer -> Prop) (m : M A) : Prop :=
  forall f a f', m f = Val a f' -> R f f'.

(** The relations the statements use: the history is kept; the dirty
    flag is kept, is not cleared, is not set; only the current address
    may differ. *)
Definition same_history (f f' : FileBuffer) : Prop := history f' = history f.
Definition same_dirty (f f' : FileBuffer) : Prop := dirty f' = dirty f.
Definition not_cleared (f f' : FileBuffer) : Prop := dirty f = true -> dirty f' = true.
Definition not_set (f f' : FileBuffer) : Prop := dirty f = false -> dirty f' = false.
Definition same_but_addr (f f' : FileBuffer) : Prop :=
  buffer f' = buffer f /\ file f' = file f /\ dirty f' = dirty f
  /\ marks f' = marks f /\ history f' = history f.

(** The command bytes whose handlers change the view through [Insert]
    and [Delete], and those whose handlers may clear the dirty flag. *)
Definition mutating_bytes : list ascii :=
  ["d"; "a"; "i"; "c"; "j"; "m"; "t"; "s"]%char.
Definition cleaning_bytes : list ascii := ["w"; "W"; "E"]%char.
(** The command bytes whose handlers rest on methods the source does not
    define: [ReadFile], [Paste], [Copy], [Rewind]. *)
Definition undefined_bytes : list ascii := ["r"; "x"; "y"; "u"]%char.

(** Stand-ins for [Copy], [Paste] and [ReadFile] in the examples, none
    of which reaches them. *)
Definition no_Copy : Z * Z -> M (option error) := fun _ => panic.
Definition no_Paste : Z -> M (option error) := fun _ => panic.
Definition no_ReadFile : Env -> Z -> string -> M (option error) := fun _ _ _ => panic.

(** The lines of the slots [lo..hi], as [Get] collects them. *)
Definition range_lines (f : FileBuffer) (r : Z * Z) : list string :=
  omap (line_at f) (seqZ (fst r) (snd r - fst r + 1)).

(** The backreferences of a replacement, as [cmdSub] finds them, and
    the number of the group that one of them names. *)
Definition backrefs_of (rep : string) : list (Z * Z * Z * Z) :=
  rxBackref_FindAll (backref_sanitize rep false) 0 O.





(** The invariants of section 3 of the specification, for a view [v]
    with current address [a] over a pool of [n] lines: every slot holds
    a pool index, no pool index occurs twice, and the current address is
    a line of the view, or [0] when the view is empty. *)
Definition view_ok (n : Z) (v : list Z) (a : Z) : Prop :=
  (forall b, b ∈ v -> 0 <= b < n)
  /\ NoDup v
  /\ 0 <= a
  /\ (a < Z.of_nat (length v) \/ (v = [] /\ a = 0)).

(** A buffer is sound when its view and the views of its history are. *)
Definition sound (f : FileBuffer) : Prop :=
  view_ok (Z.of_nat (length (buffer f))) (file f) (addr f)
  /\ Forall (fun s => view_ok (Z.of_nat (length (buffer f))) (s_file s) (s_addr s))
       (history f).

Definition keeps_sound (f f' : FileBuffer) : Prop := sound f -> sound f'.

(** A method keeps the buffer when it never ends with the global buffer
    set to nil. *)
Definition keeps_buffer {A} (m : M A) : Prop := forall f e, m f <> NilBuffer e.
(** * Properties *)

(** ** Machine integers *)

Lemma wrap_small z : min_int <= z <= max_int -> wrap z = z.
Proof.
  unfold wrap, min_int, max_int. intros Hz.
  rewrite Z.mod_small; lia.
Qed.

(** ** Facts about the line store *)

Lemma idx_Some {A} (l : list A) (i : Z) (x : A) :
  idx l i = Some x <-> 0 <= i /\ l !! Z.to_nat i = Some x.
Proof.
  unfold idx. destruct (Z.ltb_spec i 0); split; intros; try tauto; try lia.
  - discriminate.
Qed.

Lemma OOB_false f l : OOB f l = false <-> 0 <= l < Len f.
Proof. unfold OOB. rewrite orb_false_iff, Z.ltb_ge, Z.geb_leb, Z.leb_gt. tauto. Qed.

Lemma OOB_true f l : OOB f l = true <-> l < 0 \/ Len f <= l.
Proof. unfold OOB. rewrite orb_true_iff, Z.ltb_lt, Z.geb_leb, Z.leb_le. tauto. Qed.

Lemma Delete_blines_range f (n : nat) (lo : Z) :
  0 <= lo -> lo + Z.of_nat n <= Len f ->
  Delete_blines f (seqZ lo (Z.of_nat n)) = Some (take n (drop (Z.to_nat lo) (file f))).
Proof.
  revert lo. induction n as [|n IH]; intros lo Hlo Hhi.
  - reflexivity.
  - rewrite seqZ_cons by lia. cbn [Delete_blines].
    assert (Hin : OOB f lo = false) by (apply OOB_false; lia).
    rewrite Hin.
    replace (Z.pred (Z.of_nat (S n))) with (Z.of_nat n) by lia.
    rewrite (IH (Z.succ lo)) by lia.
    unfold Len in Hhi.
    destruct (lookup_lt_is_Some_2 (file f) (Z.to_nat lo)) as [b Hb]; [lia|].
    assert (Hidx : idx (file f) lo = Some b) by (apply idx_Some; auto).
    rewrite Hidx. f_equal.
    rewrite (drop_S _ b _ Hb). cbn [take].
    do 2 f_equal. f_equal. lia.
Qed.

Lemma Delete_blines_OOB f (lo hi : Z) :
  lo <= hi -> (lo < 0 \/ Len f <= hi) ->
  Delete_blines f (seqZ lo (hi - lo + 1)) = None.
Proof.
  intros Hle Hout.
  remember (Z.to_nat (hi - lo)) as k eqn:Hk.
  revert lo Hle Hout Hk. induction k as [|k IH]; intros lo Hle Hout Hk;
    rewrite seqZ_cons by lia; cbn [Delete_blines].
  - assert (hi = lo) by lia. subst hi.
    rewrite (proj2 (OOB_true f lo)) by lia. reflexivity.
  - destruct (OOB f lo) eqn:Hoob; [reflexivity|].
    apply OOB_false in Hoob.
    replace (Z.pred (hi - lo + 1)) with (hi - Z.succ lo + 1) by lia.
    rewrite (IH (Z.succ lo)) by lia.
    by destruct (idx (file f) lo).
Qed.

Lemma remove_first_skip (b : Z) (pre rest : list Z) :
  b ∉ pre -> remove_first b (pre ++ b :: rest) = pre ++ rest.
Proof.
  induction pre as [|x pre IH]; intros Hnot; cbn.
  - by rewrite Z.eqb_refl.
  - apply not_elem_of_cons in Hnot as [Hne Hnot].
    destruct (Z.eqb_spec x b); [congruence|].
    by rewrite IH.
Qed.

Lemma remove_all_middle (pre mid post : list Z) :
  NoDup (pre ++ mid ++ post) ->
  fold_left (fun v b => remove_first b v) mid (pre ++ mid ++ post) = pre ++ post.
Proof.
  revert pre. induction mid as [|b mid IH]; intros pre Hnd; cbn.
  - done.
  - rewrite remove_first_skip.
    + apply IH. apply NoDup_app in Hnd as (Hpre & Hdisj & Hrest).
      apply NoDup_cons in Hrest as [Hb Hrest].
      apply NoDup_app. split_and!; [done| |done].
      intros x Hx Hx'. apply (Hdisj x Hx). by right.
    + apply NoDup_app in Hnd as (_ & Hdisj & _).
      intros Hb. apply (Hdisj b Hb). by left.
Qed.

(** What [Delete] does on a range inside the view, slot by slot: the
    slots [lo..hi] leave the view, the flag is set, and the current
    address is [lo + 1] when that is still a line, else [0]. *)
Lemma Delete_range f (lo hi : Z) :
  NoDup (file f) -> 0 <= lo -> lo <= hi -> hi < Len f ->
  Delete (lo, hi) f =
    Val None (mkFileBuffer (buffer f)
                (take (Z.to_nat lo) (file f) ++ drop (Z.to_nat (hi + 1)) (file f))
                true
                (if lo + 1 <? Len f - (hi - lo + 1) then lo + 1 else 0)
                (marks f) (history f)).
Proof.
  intros Hnd Hlo Hle Hhi. unfold Delete. cbn [fst snd].
  replace (hi - lo + 1) with (Z.of_nat (Z.to_nat (hi - lo + 1))) at 1 by lia.
  rewrite Delete_blines_range by lia.
  set (n := Z.to_nat (hi - lo + 1)).
  assert (Hsplit : file f = take (Z.to_nat lo) (file f)
                     ++ take n (drop (Z.to_nat lo) (file f))
                     ++ drop (Z.to_nat (hi + 1)) (file f)).
  { rewrite <- (take_drop (Z.to_nat lo) (file f)) at 1. f_equal.
    rewrite <- (take_drop n (drop (Z.to_nat lo) (file f))) at 1. f_equal.
    rewrite drop_drop. f_equal. lia. }
  assert (Hfold : fold_left (fun v b => remove_first b v)
                    (take n (drop (Z.to_nat lo) (file f))) (file f)
                  = take (Z.to_nat lo) (file f) ++ drop (Z.to_nat (hi + 1)) (file f)).
  { rewrite Hsplit at 2. apply remove_all_middle. by rewrite <- Hsplit. }
  rewrite Hfold. unfold set_addr, set_dirty, set_file, OOB, Len. cbn.
  rewrite length_app, length_take, length_drop. unfold Len in Hhi.
  destruct (Z.ltb_spec (lo + 1) 0); [lia|]. cbn.
  rewrite Z.geb_leb.
  destruct (Z.leb_spec (Z.of_nat (Z.to_nat lo `min` length (file f)
                                  + (length (file f) - Z.to_nat (hi + 1)))) (lo + 1));
    destruct (Z.ltb_spec (lo + 1) (Z.of_nat (length (file f)) - (hi - lo + 1)));
    try reflexivity; lia.
Qed.

Lemma line_at_in_view (f : FileBuffer) (l : Z) (s : string) :
  line_at f l = Some s -> OOB f l = false.
Proof.
  unfold line_at. destruct (idx (file f) l) as [b|] eqn:Hb; [|done]. intros _.
  apply idx_Some in Hb as [H0 Hb]. apply lookup_lt_Some in Hb.
  apply OOB_false. unfold Len. lia.
Qed.

Lemma wf_view_line_at (f : FileBuffer) (c : Z) :
  wf_view f = true -> 0 <= c < Len f -> exists s, line_at f c = Some s.
Proof.
  intros Hwf Hc. unfold wf_view in Hwf. rewrite forallb_forall in Hwf.
  unfold Len in Hc.
  destruct (lookup_lt_is_Some_2 (file f) (Z.to_nat c)) as [b Hb]; [lia|].
  assert (Hin : In b (file f)).
  { apply list_elem_of_In. by apply list_elem_of_lookup_2 in Hb. }
  apply Hwf in Hin. apply andb_true_iff in Hin as [H0 H1].
  apply Z.leb_le in H0. apply Z.ltb_lt in H1.
  destruct (lookup_lt_is_Some_2 (buffer f) (Z.to_nat b)) as [s Hs]; [lia|].
  exists s. unfold line_at.
  rewrite (proj2 (idx_Some (file f) c b)) by (split; [lia|done]).
  apply idx_Some. split; [lia|done].
Qed.

Lemma line_at_set_addr a f l : line_at (set_addr a f) l = line_at f l.
Proof. reflexivity. Qed.

Lemma omap_cons_Some {A B} (g : A -> option B) (x : A) (y : B) (l : list A) :
  g x = Some y -> omap g (x :: l) = y :: omap g l.
Proof. intros H. cbn. by rewrite H. Qed.

Lemma Get_loop_lines (f : FileBuffer) (ls : list Z) (acc : list string) :
  (forall l, l ∈ ls -> exists s, line_at f l = Some s) ->
  Get_loop ls acc f
  = Val (acc ++ omap (line_at f) ls)
      match last ls with Some l => set_addr l f | None => f end.
Proof.
  revert f acc. induction ls as [|l ls IH]; intros f acc Hall; cbn [Get_loop].
  - cbn. by rewrite app_nil_r.
  - destruct (Hall l) as [s Hs]; [by left|]. rewrite Hs.
    rewrite IH.
    + rewrite <- app_assoc. cbn [app]. rewrite (last_cons l ls).
      rewrite (omap_cons_Some (line_at f) l s ls Hs).
      change (line_at (set_addr l f)) with (line_at f).
      by destruct (last ls).
    + intros l' Hl'. rewrite line_at_set_addr. apply Hall. by right.
Qed.

(** [Get] on a range inside the view returns its lines and leaves the
    current address on its last line. *)
Lemma Get_range (f : FileBuffer) (lo hi : Z) :
  wf_view f = true -> 0 <= lo -> lo <= hi -> hi < Len f ->
  Get (lo, hi) f = Val (range_lines f (lo, hi), None) (set_addr hi f).
Proof.
  intros Hwf Hlo Hle Hhi. unfold Get. cbn [fst snd].
  rewrite (proj2 (OOB_false f lo)), (proj2 (OOB_false f hi)) by lia. cbn [orb].
  rewrite Get_loop_lines.
  - assert (Hlast : last (seqZ lo (hi - lo + 1)) = Some hi).
    { replace (hi - lo + 1) with (Z.of_nat (S (Z.to_nat (hi - lo)))) by lia.
      rewrite seqZ_S, last_snoc. f_equal. lia. }
    by rewrite Hlast.
  - intros l Hl. apply elem_of_seqZ in Hl. apply wf_view_line_at; [done|lia].
Qed.

Lemma AddrRange_ok (f : FileBuffer) (addrs : list Z) (r : Z * Z) :
  AddrRange f addrs = (r, None) -> 0 <= fst r /\ fst r <= snd r /\ snd r < Len f.
Proof.
  unfold AddrRange. destruct (rev addrs) as [|last before]; [done|].
  cbv zeta. set (r' := match before with [] => _ | _ => _ end).
  destruct (Z.gtb_spec (fst r') (snd r')); [done|].
  destruct (OOB f (fst r')) eqn:H0; [done|].
  destruct (OOB f (snd r')) eqn:H1; [done|].
  intros [= <-]. apply OOB_false in H0, H1. lia.
Qed.

Lemma Len_nonneg f : 0 <= Len f.
Proof. unfold Len. lia. Qed.

Lemma idx_app_new {A} (pre l : list A) (i : nat) :
  idx (pre ++ l) (Z.of_nat (length pre) + Z.of_nat i) = l !! i.
Proof.
  unfold idx. destruct (Z.ltb_spec (Z.of_nat (length pre) + Z.of_nat i) 0); [lia|].
  replace (Z.to_nat (Z.of_nat (length pre) + Z.of_nat i)) with (length pre + i)%nat by lia.
  by rewrite lookup_app_r, Nat.add_sub' by lia.
Qed.

Lemma new_slots_hold (pre l : list string) :
  map (idx (pre ++ l)) (seqZ (Z.of_nat (length pre)) (Z.of_nat (length l))) = map Some l.
Proof.
  apply list_eq. intros i. rewrite !list_lookup_fmap.
  destruct (decide (i < length l)%nat) as [Hlt|Hge].
  - rewrite lookup_seqZ_lt by lia. cbn.
    rewrite idx_app_new. destruct (lookup_lt_is_Some_2 l i Hlt) as [x Hx].
    by rewrite Hx.
  - rewrite lookup_seqZ_ge by lia. by rewrite lookup_ge_None_2 by lia.
Qed.

(** C8.  [Insert] of a non-empty list of lines at [at]: for [at] in
    [0, N], [N] included, it succeeds, the new lines go to the end of the
    pool, their pool indices are spliced into the view at position [at],
    the current address becomes [at + len(lines) - 1] and the dirty flag
    is set; for any other [at] it fails with [ErrOOB] and leaves the
    buffer as it was. *)
Theorem Insert_splices (f : FileBuffer) (at_ : Z) (nlines : list string) :
  nlines <> [] ->
  (0 <= at_ <= Len f ->
     exists f', Insert at_ nlines f = Val None f'
       /\ buffer f' = buffer f ++ nlines
       /\ file f' = take (Z.to_nat at_) (file f)
                      ++ seqZ (Z.of_nat (length (buffer f))) (Z.of_nat (length nlines))
                      ++ drop (Z.to_nat at_) (file f)
       /\ map (idx (buffer f'))
            (seqZ (Z.of_nat (length (buffer f))) (Z.of_nat (length nlines)))
          = map Some nlines
       /\ addr f' = at_ + Z.of_nat (length nlines) - 1
       /\ dirty f' = true
       /\ marks f' = marks f)
  /\ (~ (0 <= at_ <= Len f) -> Insert at_ nlines f = Val (Some ErrOOB) f).
Proof.
  intros Hne. unfold Insert. split.
  - intros Hin.
    assert (Hguard : negb (at_ =? Len f) && OOB f at_ = false).
    { destruct (Z.eqb_spec at_ (Len f)); [done|]. cbn. apply OOB_false. lia. }
    rewrite Hguard.
    destruct nlines as [|l nlines]; [done|]. cbn [length Nat.eqb].
    eexists. split; [reflexivity|]. cbn.
    rewrite length_app. cbn [length].
    replace (Z.of_nat (length (buffer f) + S (length nlines)) - Z.of_nat (length (buffer f)))
      with (Z.of_nat (S (length nlines))) by lia.
    split_and!; try reflexivity.
    apply (new_slots_hold (buffer f) (l :: nlines)).
  - intros Hout.
    assert (Hguard : negb (at_ =? Len f) && OOB f at_ = true).
    { pose proof (Len_nonneg f).
      destruct (Z.eqb_spec at_ (Len f)); [lia|]. cbn. apply OOB_true. lia. }
    by rewrite Hguard.
Qed.

Lemma Insert_splices_witness :
  (exists f', Insert 3 ["x"; "y"]%string (NewFileBuffer ["a"; "b"; "c"]%string) = Val None f'
     /\ file f' = [0; 1; 2; 3; 4] /\ addr f' = 4 /\ dirty f' = true)
  /\ Insert 4 ["x"]%string (NewFileBuffer ["a"; "b"; "c"]%string)
     = Val (Some ErrOOB) (NewFileBuffer ["a"; "b"; "c"]%string).
Proof.
  split.
  - destruct (Insert_splices (NewFileBuffer ["a"; "b"; "c"]%string) 3 ["x"; "y"]%string)
      as [Hin _]; [discriminate|].
    destruct Hin as (f' & Hrun & _ & Hfile & _ & Haddr & Hdirty & _); [vm_compute; split; discriminate|].
    exists f'. split_and!; [exact Hrun|exact Hfile|exact Haddr|exact Hdirty].
  - destruct (Insert_splices (NewFileBuffer ["a"; "b"; "c"]%string) 4 ["x"]%string)
      as [_ Hout]; [discriminate|].
    apply Hout. vm_compute. intros [_ H]. apply H. reflexivity.
Defined.

(** C10, as the code has it.  Given exactly one address [a],
    [AddrRange] resolves the range to [[current address, a]], not to
    [[a, a]]: it fails with "address out of order" whenever the current
    address is greater than [a], also when one of the two is outside
    [0, N), because the order test comes last and overrides the bounds
    error; it fails with "line is out of bounds" when the two are in
    order and one of them is outside [0, N), and succeeds otherwise. *)
Theorem AddrRange_single (f : FileBuffer) (a : Z) :
  fst (AddrRange f [a]) = (GetAddr f, a)
  /\ (GetAddr f > a -> snd (AddrRange f [a]) = Some ErrOrder)
  /\ (GetAddr f <= a -> OOB f (GetAddr f) = true \/ OOB f a = true ->
      snd (AddrRange f [a]) = Some ErrOOB)
  /\ (OOB f (GetAddr f) = true \/ OOB f a = true -> snd (AddrRange f [a]) <> None)
  /\ (GetAddr f <= a -> OOB f (GetAddr f) = false -> OOB f a = false ->
      snd (AddrRange f [a]) = None).
Proof.
  unfold AddrRange. cbn [rev app fst snd].
  split_and!.
  - reflexivity.
  - intros Hgt. destruct (Z.gtb_spec (GetAddr f) a); [done|lia].
  - intros Hle Hoob. destruct (Z.gtb_spec (GetAddr f) a); [lia|].
    destruct Hoob as [-> | ->]; [done|]. by rewrite orb_true_r.
  - intros Hoob. destruct (Z.gtb_spec (GetAddr f) a); [done|].
    destruct Hoob as [-> | ->]; [done|]. by rewrite orb_true_r.
  - intros Hle H1 H2. destruct (Z.gtb_spec (GetAddr f) a); [lia|].
    by rewrite H1, H2.
Qed.

Lemma AddrRange_single_witness :
  AddrRange (set_addr 2 (NewFileBuffer ["a"; "b"; "c"]%string)) [0] = ((2, 0), Some ErrOrder)
  /\ AddrRange (set_addr 2 (NewFileBuffer ["a"; "b"; "c"]%string)) [5] = ((2, 5), Some ErrOOB)
  /\ AddrRange (set_addr 1 (NewFileBuffer ["a"; "b"; "c"]%string)) [2] = ((1, 2), None).
Proof.
  split_and!.
  - destruct (AddrRange_single (set_addr 2 (NewFileBuffer ["a"; "b"; "c"]%string)) 0)
      as (Hr & Hord & _).
    rewrite (surjective_pairing (AddrRange _ _)), Hr, Hord; [reflexivity|vm_compute; reflexivity].
  - destruct (AddrRange_single (set_addr 2 (NewFileBuffer ["a"; "b"; "c"]%string)) 5)
      as (Hr & _ & Hoob & _).
    rewrite (surjective_pairing (AddrRange _ _)), Hr, Hoob;
      [reflexivity|vm_compute; discriminate|right; reflexivity].
  - destruct (AddrRange_single (set_addr 1 (NewFileBuffer ["a"; "b"; "c"]%string)) 2)
      as (Hr & _ & _ & _ & Hok).
    rewrite (surjective_pairing (AddrRange _ _)), Hr, Hok;
      [reflexivity|vm_compute; discriminate|reflexivity|reflexivity].
Defined.

(** C10, refuted as stated.  On the buffer [a, b, c] with the current
    address on the first line, the command [0c] resolves to the single
    address -1, which is outside [0, N).  The range is [(0, -1)], and
    [AddrRange] fails with "address out of order", not with "line is out
    of bounds". *)
Lemma AddrRange_order_overrides_bounds :
  ResolveAddrs (RE := LiteralRegexp) "0c" three_lines = Val ([-1], 1, None) three_lines
  /\ GetAddr three_lines = 0
  /\ OOB three_lines (-1) = true
  /\ AddrRange three_lines [-1] = ((0, -1), Some ErrOrder)
  /\ snd (AddrRange three_lines [-1]) <> Some ErrOOB.
Proof. split_and!; try reflexivity. discriminate. Qed.

(** C2, evaluated.  On the three-line buffer, deleting the first line
    leaves the current address at [1], not at [0], the slot the line
    after the deleted one now has; deleting the last line leaves it at
    [0], not at [N - 1 = 1].  The slots removed and the dirty flag are
    as the specification says. *)
Theorem Delete_sets_addr_past_lo :
  (exists f', Delete (0, 0) (NewFileBuffer ["a"; "b"; "c"]%string) = Val None f'
      /\ file f' = [1; 2] /\ dirty f' = true /\ addr f' = 1)
  /\ (exists f', Delete (2, 2) (NewFileBuffer ["a"; "b"; "c"]%string) = Val None f'
      /\ file f' = [0; 1] /\ dirty f' = true /\ addr f' = 0).
Proof. split; eexists; (split; [vm_compute; reflexivity|]); by vm_compute. Qed.

(** ** The address resolver *)

Section ResolverFacts.
Context {RE : Regexp}.

Lemma is_addr_char_false c :
  is_addr_char c = false ->
  is_digit c = false /\ ascii_eqb c "." = false /\ ascii_eqb c "$" = false
  /\ ascii_eqb c "+" = false /\ ascii_eqb c "-" = false /\ ascii_eqb c "'" = false
  /\ ascii_eqb c "/" = false /\ ascii_eqb c "?" = false /\ ascii_eqb c "," = false
  /\ ascii_eqb c ";" = false /\ ascii_eqb c "%" = false.
Proof.
  unfold is_addr_char. rewrite !orb_false_iff. tauto.
Qed.

Lemma rxSingle_no_token c rest :
  is_addr_char c = false -> rxSingle_FindString (String c rest) = EmptyString.
Proof.
  intros H. apply is_addr_char_false in H
    as (Hd & H1 & H2 & H3 & H4 & H5 & H6 & H7 & _).
  unfold rxSingle_FindString. by rewrite H1, H2, Hd, H3, H4, H5, H6, H7.
Qed.

Lemma ResolveAddrs_loop_S fuel cmd lines cmdOffset f :
  ResolveAddrs_loop (S fuel) cmd lines cmdOffset f =
        if negb (cmdOffset <? len cmd) then Val (lines, cmdOffset, None) f
        else
          let cmdOffset := cmdOffset + wsOffset (drop_str (Z.to_nat cmdOffset) cmd) in
          match ResolveAddr f (drop_str (Z.to_nat cmdOffset) cmd) with
          | None => Crash
          | Some (_, _, Some e) => Val (lines, cmdOffset, Some e) f
          | Some (line, off, None) =>
              let lines := lines ++ [line] in
              let cmdOffset := cmdOffset + off in
              let cmdOffset :=
                cmdOffset + wsOffset (drop_str (Z.to_nat cmdOffset) cmd) in
              if len cmd - 1 <=? cmdOffset then Val (lines, cmdOffset, None) f
              else
                match str_at cmd cmdOffset with
                | None => Crash
                | Some c =>
                    if ascii_eqb c "," then
                      ResolveAddrs_loop fuel cmd lines (cmdOffset + 1) f
                    else if ascii_eqb c ";" then
                      if OOB f line then Val (lines, cmdOffset, Some ErrOOB) f
                      else ResolveAddrs_loop fuel cmd lines (cmdOffset + 1)
                             (set_addr line f)
                    else if ascii_eqb c "%" then
                      let lines := lines ++ [0; Len f - 1] in
                      let cmdOffset := cmdOffset + 1 in
                      Val (lines,
                           cmdOffset + wsOffset (drop_str (Z.to_nat cmdOffset) cmd),
                           None) f
                    else Val (lines, cmdOffset, None) f
                end
          end.
Proof. reflexivity. Qed.

(** C9, as the code has it.  A command whose first character is neither
    white space nor a character of the address syntax resolves to the
    single address [f.GetAddr()], with the command offset at [0], and
    the buffer as it was. *)
Theorem ResolveAddrs_no_address (f : FileBuffer) (c : ascii) (rest : string) :
  is_addr_char c = false -> is_space c = false ->
  ResolveAddrs (String c rest) f = Val ([GetAddr f], 0, None) f.
Proof.
  intros Haddr Hsp.
  pose proof (rxSingle_no_token c rest Haddr) as Hm.
  apply is_addr_char_false in Haddr as (_ & _ & _ & _ & _ & _ & _ & _ & Hc & Hs & Hp).
  unfold ResolveAddrs. rewrite ResolveAddrs_loop_S.
  assert (Hlen : (0 <? len (String c rest)) = true).
  { apply Z.ltb_lt. unfold len. cbn [String.length]. lia. }
  rewrite Hlen.
  assert (Hws : wsOffset (String c rest) = 0) by (cbn; by rewrite Hsp).
  change (Z.to_nat 0) with 0%nat. cbn [negb drop_str]. cbv zeta.
  rewrite Hws. change (Z.to_nat (0 + 0)) with 0%nat. cbn [drop_str].
  unfold ResolveAddr. rewrite Hm. cbn [String.length Nat.eqb].
  change (Z.to_nat (0 + 0 + 0)) with 0%nat. cbn [drop_str]. rewrite Hws.
  change (0 + 0 + 0 + 0) with 0. cbn [app].
  destruct (len (String c rest) - 1 <=? 0); [reflexivity|].
  change (str_at (String c rest) 0) with (Some c). cbv beta iota.
  by rewrite Hc, Hs, Hp.
Qed.

End ResolverFacts.

Lemma ResolveAddrs_no_address_witness :
  ResolveAddrs (RE := LiteralRegexp) "p" (set_addr 1 three_lines)
  = Val ([1], 0, None) (set_addr 1 three_lines).
Proof.
  apply (ResolveAddrs_no_address (RE := LiteralRegexp) (set_addr 1 three_lines) "p" "");
    reflexivity.
Defined.

(** C9, refuted as stated.  The command " p" starts with a space, which
    is no character of the address syntax, and has no address; it
    resolves to the current address with the command offset at [1]. *)
Lemma ResolveAddrs_leading_space :
  is_addr_char " " = false
  /\ ResolveAddrs (RE := LiteralRegexp) " p" three_lines = Val ([0], 1, None) three_lines
  /\ ~ (exists lines f', ResolveAddrs (RE := LiteralRegexp) " p" three_lines
                         = Val (lines, 0, None) f').
Proof.
  split_and!; [reflexivity|reflexivity|].
  intros (lines & f' & H). vm_compute in H. discriminate H.
Qed.


(** ** The loops of the resolver never use up their fuel *)

Lemma drop_str_length (k : nat) (s : string) :
  String.length (drop_str k s) = (String.length s - k)%nat.
Proof.
  revert s. induction k as [|k IH]; intros [|c s]; cbn; try lia. apply IH.
Qed.

Lemma ResolveOffset_empty : ResolveOffset EmptyString = (0, 0, None).
Proof. reflexivity. Qed.

(** More fuel than [length rest] changes nothing in [offsets_loop]. *)
Lemma offsets_loop_fuel (fuel1 fuel2 : nat) (rest : string) (line cmdOffset : Z) :
  (String.length rest <= fuel1)%nat -> (String.length rest <= fuel2)%nat ->
  offsets_loop fuel1 rest line cmdOffset = offsets_loop fuel2 rest line cmdOffset.
Proof.
  revert fuel2 rest line cmdOffset.
  induction fuel1 as [|fuel1 IH]; intros fuel2 rest line cmdOffset H1 H2.
  - destruct rest; [|cbn in H1; lia].
    destruct fuel2; [done|]. cbn [offsets_loop]. by rewrite ResolveOffset_empty.
  - destruct fuel2 as [|fuel2].
    + destruct rest; [|cbn in H2; lia].
      cbn [offsets_loop]. by rewrite ResolveOffset_empty.
    + cbn [offsets_loop].
      destruct (ResolveOffset rest) as [[off cmdoff] [e|]]; [done|].
      destruct (Z.ltb_spec 0 cmdoff); [|done].
      apply IH; rewrite drop_str_length; lia.
Qed.

Section Fuel.
Context {RE : Regexp}.

Lemma offsets_loop_nonneg fuel rest line cmdOffset line' off e :
  0 <= cmdOffset ->
  offsets_loop fuel rest line cmdOffset = (line', off, e) -> 0 <= off.
Proof.
  revert rest line cmdOffset. induction fuel as [|fuel IH]; intros rest line cmdOffset H0;
    cbn [offsets_loop].
  - intros [= _ <- _]. done.
  - destruct (ResolveOffset rest) as [[o cmdoff] [e'|]]; [by intros [= _ <- _]|].
    destruct (Z.ltb_spec 0 cmdoff); [|by intros [= _ <- _]].
    apply IH. lia.
Qed.

Lemma ResolveAddr_offset_nonneg f cmd line off e :
  ResolveAddr f cmd = Some (line, off, e) -> 0 <= off.
Proof.
  assert (Hlen : forall s, 0 <= len s) by (intros s; unfold len; lia).
  assert (Hloop : forall fuel rest l c,
            Some (offsets_loop fuel rest l (len c)) = Some (line, off, e) -> 0 <= off).
  { intros fuel rest l c [= H]. eapply offsets_loop_nonneg, H. apply Hlen. }
  unfold ResolveAddr.
  destruct (_ =? _)%nat; [by intros [= _ <- _]|]. cbv zeta.
  repeat match goal with
         | |- Some (offsets_loop _ _ _ _) = Some _ -> _ => apply Hloop
         | |- Some (_, len ?s, _) = Some _ -> _ => intros [= _ <- _]; apply Hlen
         | |- None = Some _ -> _ => discriminate
         | |- context [match ?x with _ => _ end] =>
             lazymatch x with
             | context [match _ with _ => _ end] => fail
             | _ => destruct x
             end
         end.
Qed.

(** More fuel than what is left of the command changes nothing in
    [ResolveAddrs_loop]. *)
Lemma ResolveAddrs_loop_fuel (fuel1 fuel2 : nat) cmd lines cmdOffset f :
  0 <= cmdOffset ->
  (Z.to_nat (len cmd - cmdOffset) < fuel1)%nat ->
  (Z.to_nat (len cmd - cmdOffset) < fuel2)%nat ->
  ResolveAddrs_loop fuel1 cmd lines cmdOffset f
  = ResolveAddrs_loop fuel2 cmd lines cmdOffset f.
Proof.
  revert fuel2 lines cmdOffset f.
  induction fuel1 as [|fuel1 IH]; intros fuel2 lines cmdOffset f H0 H1 H2; [lia|].
  destruct fuel2 as [|fuel2]; [lia|].
  rewrite !ResolveAddrs_loop_S.
  destruct (Z.ltb_spec cmdOffset (len cmd)); [|done]. cbn [negb]. cbv zeta.
  assert (Hws : forall s, 0 <= wsOffset s).
  { intros [|c s]; cbn; [done|]. destruct (is_space c); lia. }
  pose proof (Hws (drop_str (Z.to_nat cmdOffset) cmd)) as Hw1.
  destruct (ResolveAddr f _) as [[[line off] [e|]]|] eqn:Hra; [done| |done].
  apply ResolveAddr_offset_nonneg in Hra.
  match goal with
  | |- context [wsOffset (drop_str (Z.to_nat ?o) cmd)] =>
      lazymatch o with
      | cmdOffset => fail
      | _ => pose proof (Hws (drop_str (Z.to_nat o) cmd)) as Hw2
      end
  end.
  destruct (_ <=? _); [done|].
  destruct (str_at cmd _) as [c|]; [|done].
  destruct (ascii_eqb c ","); [apply IH; lia|].
  destruct (ascii_eqb c ";"); [|done].
  destruct (OOB f line); [done|]. apply IH; lia.
Qed.

(** [ResolveAddrs] is the loop with any larger fuel. *)
Lemma ResolveAddrs_fuel (k : nat) cmd f :
  ResolveAddrs_loop (S (String.length cmd) + k) cmd [] 0 f = ResolveAddrs cmd f.
Proof.
  unfold ResolveAddrs. apply ResolveAddrs_loop_fuel; unfold len; lia.
Qed.

End Fuel.

(** ** Forward search *)

Lemma append_cons (c : ascii) (s t : string) : String c s +:+ t = String c (s +:+ t).
Proof. reflexivity. Qed.

Lemma append_nil (t : string) : EmptyString +:+ t = t.
Proof. reflexivity. Qed.

Lemma length_append (s t : string) :
  String.length (s +:+ t) = (String.length s + String.length t)%nat.
Proof.
  induction s as [|c s IH]; [done|].
  rewrite append_cons. cbn [String.length]. by rewrite IH.
Qed.

Lemma re_body_fwd_head (d : ascii) (rest b : string) :
  ascii_eqb d "/" = false ->
  re_body_fwd (String d rest) = Some b -> exists b', b = String d b'.
Proof.
  intros Hd. cbn [re_body_fwd]. rewrite Hd.
  destruct (ascii_eqb d "\").
  - destruct rest as [|e rest']; [done|].
    destruct (ascii_eqb e "/").
    + destruct (re_body_fwd rest'); intros [= <-]; eauto.
    + destruct (re_body_fwd (String e rest')); cbn; intros [= <-]; eauto.
  - destruct (re_body_fwd rest); cbn; intros [= <-]; eauto.
Qed.

Lemma re_body_fwd_reparse_aux (n : nat) :
  forall s b, (String.length s <= n)%nat ->
    re_body_fwd s = Some b -> re_body_fwd (b +:+ "/") = Some b.
Proof.
  induction n as [|n IH]; intros s b Hlen.
  - destruct s; [done|cbn in Hlen; lia].
  - destruct s as [|c rest]; [done|]. cbn in Hlen.
    cbn [re_body_fwd].
    destruct (ascii_eqb c "/") eqn:Hc.
    + intros [= <-]. reflexivity.
    + destruct (ascii_eqb c "\") eqn:Hb.
      * destruct rest as [|d rest']; [done|]. cbn in Hlen.
        destruct (ascii_eqb d "/") eqn:Hd.
        -- destruct (re_body_fwd rest') as [b'|] eqn:Hrest; intros [= <-].
           ++ rewrite !append_cons. cbn [re_body_fwd]. rewrite Hc, Hb, Hd.
              by rewrite (IH rest' b') by (done || lia).
           ++ rewrite append_cons, append_nil. cbn [re_body_fwd]. rewrite Hc, Hb. reflexivity.
        -- destruct (re_body_fwd (String d rest')) as [b0|] eqn:Hrest; [|done].
           cbn. intros [= <-].
           destruct (re_body_fwd_head d rest' b0 Hd Hrest) as [b' ->].
           rewrite append_cons. cbn [re_body_fwd]. rewrite Hc, Hb.
           rewrite append_cons, Hd, <- append_cons.
           by rewrite (IH (String d rest') (String d b')) by (done || cbn; lia).
      * destruct (re_body_fwd rest) as [b0|] eqn:Hrest; [|done].
        cbn. intros [= <-].
        rewrite append_cons. cbn [re_body_fwd]. rewrite Hc, Hb.
        by rewrite (IH rest b0) by (done || lia).
Qed.

Lemma re_body_fwd_reparse (s b : string) :
  re_body_fwd s = Some b -> re_body_fwd (b +:+ "/") = Some b.
Proof. apply (re_body_fwd_reparse_aux (String.length s)). lia. Qed.


Section SearchFacts.
Context {RE : Regexp}.

Lemma probe_forward (f : FileBuffer) (i : Z) :
  0 <= GetAddr f < Len f -> 0 <= i < Len f ->
  probe f 1 i = (GetAddr f + i) mod Len f.
Proof.
  intros Ha Hi. unfold probe.
  rewrite Z.rem_mod_nonneg by lia.
  replace (1 * i + GetAddr f + Len f) with (GetAddr f + i + 1 * Len f) by lia.
  by rewrite Z.mod_add by lia.
Qed.

Lemma search_loop_found (f : FileBuffer) (re : regex) (sign : Z)
  (ks1 : list Z) (k : Z) (ks2 : list Z) :
  (forall i, i ∈ ks1 ->
     exists s, line_at f (probe f sign i) = Some s /\ MatchString re s = false) ->
  (exists s, line_at f (probe f sign k) = Some s /\ MatchString re s = true) ->
  search_loop f re sign (ks1 ++ k :: ks2) = Some (Some (probe f sign k)).
Proof.
  intros Hbefore (s & Hs & Hm).
  induction ks1 as [|i ks1 IH]; cbn [app search_loop]; fold (probe f sign k).
  - by rewrite Hs, Hm.
  - fold (probe f sign i).
    destruct (Hbefore i) as (si & Hsi & Hmi); [by left|].
    rewrite Hsi, Hmi. apply IH. intros j Hj. apply Hbefore. by right.
Qed.

Lemma search_loop_none (f : FileBuffer) (re : regex) (sign : Z) (ks : list Z) :
  (forall i, i ∈ ks ->
     exists s, line_at f (probe f sign i) = Some s /\ MatchString re s = false) ->
  search_loop f re sign ks = Some None.
Proof.
  induction ks as [|i ks IH]; intros Hall; cbn [search_loop]; [done|].
  fold (probe f sign i).
  destruct (Hall i) as (si & Hsi & Hmi); [by left|].
  rewrite Hsi, Hmi. apply IH. intros j Hj. apply Hall. by right.
Qed.

Lemma ResolveAddr_forward (f : FileBuffer) (cmd' pat : string) (re : regex) :
  re_body_fwd cmd' = Some pat -> Compile pat = Some re ->
  ResolveAddr f (String "/" cmd') =
    match search_loop f re 1 (seqZ 0 (Len f)) with
    | None => None
    | Some (Some c) => Some (c, len pat + 2, None)
    | Some None => Some (GetAddr f, len pat + 2, Some (ErrRegexpNotFound pat))
    end.
Proof.
  intros Hbody Hcomp. unfold ResolveAddr.
  assert (Hm : rxSingle_FindString (String "/" cmd') = String "/" (pat +:+ "/")).
  { cbn. by rewrite Hbody. }
  rewrite Hm. cbn [String.length Nat.eqb].
  assert (Hlen : len (String "/" (pat +:+ "/")) = len pat + 2).
  { unfold len. cbn [String.length]. rewrite length_append. cbn [String.length]. lia. }
  rewrite Hlen.
  change (rxSingleSymbol_Match (String "/" (pat +:+ "/"))) with false.
  change (rxNumber_Match (String "/" (pat +:+ "/"))) with false.
  change (rxOffset_Match (String "/" (pat +:+ "/"))) with false.
  assert (Hmark : rxMark_Match (String "/" (pat +:+ "/")) = false).
  { unfold rxMark_Match. by destruct (pat +:+ "/"). }
  rewrite Hmark. cbv iota.
  assert (Hre : rxRE_Find (String "/" (pat +:+ "/"))
                = Some (String "/" (pat +:+ "/"), pat, EmptyString)).
  { cbn. by rewrite (re_body_fwd_reparse cmd' pat Hbody). }
  rewrite Hre. cbv beta iota. change (ascii_eqb "/" "?") with false. cbv iota.
  by rewrite Hcomp.
Qed.

(** C7.  On a non-empty buffer whose current address is a line, a
    forward search [/pat/] at the head of a command, with a pattern that
    compiles, looks at the lines [current], [current + 1], ... modulo
    [N] and resolves to the first one that the pattern matches; when no
    line of the view matches, it fails with "regexp not found". *)
Theorem forward_search_first_match (f : FileBuffer) (cmd' pat : string) (re : regex) :
  0 < Len f -> 0 <= GetAddr f < Len f -> wf_view f = true ->
  re_body_fwd cmd' = Some pat -> Compile pat = Some re ->
  (forall k, 0 <= k < Len f ->
     (exists s, line_at f ((GetAddr f + k) mod Len f) = Some s
                /\ MatchString re s = true) ->
     (forall j, 0 <= j < k ->
        exists s, line_at f ((GetAddr f + j) mod Len f) = Some s
                  /\ MatchString re s = false) ->
     ResolveAddr f (String "/" cmd')
     = Some ((GetAddr f + k) mod Len f, len pat + 2, None))
  /\ ((forall c, 0 <= c < Len f ->
         exists s, line_at f c = Some s /\ MatchString re s = false) ->
      ResolveAddr f (String "/" cmd')
      = Some (GetAddr f, len pat + 2, Some (ErrRegexpNotFound pat))).
Proof.
  intros HN Haddr Hwf Hbody Hcomp. split.
  - intros k Hk Hmatch Hfirst.
    rewrite (ResolveAddr_forward f cmd' pat re Hbody Hcomp).
    replace (Len f) with (k + (1 + (Len f - k - 1))) at 1 by lia.
    rewrite seqZ_app by lia. rewrite (seqZ_cons (0 + k)) by lia.
    rewrite (search_loop_found f re 1 (seqZ 0 k) (0 + k)).
    + by rewrite probe_forward by lia.
    + intros i Hi. apply elem_of_seqZ in Hi.
      rewrite probe_forward by lia. apply Hfirst. lia.
    + rewrite probe_forward by lia. exact Hmatch.
  - intros Hnone.
    rewrite (ResolveAddr_forward f cmd' pat re Hbody Hcomp).
    rewrite search_loop_none; [done|].
    intros i Hi. apply elem_of_seqZ in Hi.
    rewrite probe_forward by lia. apply Hnone.
    apply Z.mod_pos_bound. lia.
Qed.

End SearchFacts.

Lemma forward_search_first_match_witness :
  ResolveAddr (RE := LiteralRegexp) (set_addr 1 three_lines) "/a/p" = Some (0, 3, None)
  /\ ResolveAddr (RE := LiteralRegexp) (set_addr 1 three_lines) "/z/p"
     = Some (1, 3, Some (ErrRegexpNotFound "z")).
Proof.
  assert (HN : 0 < Len (set_addr 1 three_lines)) by reflexivity.
  assert (Haddr : 0 <= GetAddr (set_addr 1 three_lines) < Len (set_addr 1 three_lines))
    by (change (0 <= 1 < 3); lia).
  assert (Hwf : wf_view (set_addr 1 three_lines) = true) by reflexivity.
  split.
  - destruct (forward_search_first_match (RE := LiteralRegexp)
                (set_addr 1 three_lines) "a/p" "a" "a"%string HN Haddr Hwf
                eq_refl eq_refl) as [Hfound _].
    apply (Hfound 2); [change (0 <= 2 < 3); lia| |].
    + exists "a"%string. split; reflexivity.
    + intros j Hj. assert (Hcases : j = 0 \/ j = 1) by lia.
      destruct Hcases as [-> | ->].
      * exists "b"%string. split; reflexivity.
      * exists "c"%string. split; reflexivity.
  - destruct (forward_search_first_match (RE := LiteralRegexp)
                (set_addr 1 three_lines) "z/p" "z" "z"%string HN Haddr Hwf
                eq_refl eq_refl) as [_ Hnone].
    apply Hnone. intros c Hc. change (0 <= c < 3) in Hc.
    assert (Hcases : c = 0 \/ c = 1 \/ c = 2) by lia.
    destruct Hcases as [-> | [-> | ->]].
    + exists "a"%string. split; reflexivity.
    + exists "b"%string. split; reflexivity.
    + exists "c"%string. split; reflexivity.
Defined.

(** ** What the handlers leave alone *)

Section Frames.
Context {RE : Regexp}.
Variable R : FileBuffer -> FileBuffer -> Prop.
Hypothesis R_refl : forall f, R f f.
Hypothesis R_trans : forall f g h, R f g -> R g h -> R f h.
Hypothesis R_set_addr : forall a f, OOB f a = false -> R f (set_addr a f).

Lemma respects_ret {A} (a : A) : respects R (ret a).
Proof. intros f a' f' [= _ <-]. apply R_refl. Qed.

Lemma respects_panic {A} : respects R (@panic A).
Proof. intros f a f' [=]. Qed.

Lemma respects_exit {A} : respects R (@exit A).
Proof. intros f a f' [=]. Qed.

Lemma respects_NilBuffer {A} (e : option error) :
  respects R (fun _ => @NilBuffer A e).
Proof. intros f a f' [=]. Qed.

Lemma respects_get_buf : respects R get_buf.
Proof. intros f a f' [= _ <-]. apply R_refl. Qed.

Lemma respects_bind {A B} (m : M A) (k : A -> M B) :
  respects R m -> (forall a, respects R (k a)) -> respects R (bind m k).
Proof.
  intros Hm Hk f b f'. unfold bind.
  destruct (m f) as [a f1| | |?] eqn:Em; [|done..].
  intros Hkf. eapply R_trans; [eapply Hm, Em|eapply Hk, Hkf].
Qed.

Lemma respects_cmd_byte ctx : respects R (cmd_byte ctx).
Proof. unfold cmd_byte. destruct (str_at _ _); [apply respects_ret|apply respects_panic]. Qed.

Lemma respects_cmd_suffix ctx : respects R (cmd_suffix ctx).
Proof. unfold cmd_suffix. destruct (str_from _ _); [apply respects_ret|apply respects_panic]. Qed.

Lemma respects_GetMust line set : respects R (GetMust line set).
Proof.
  intros f s f'. unfold GetMust.
  destruct (line_at _ line) eqn:Hl; [|done]. intros [= _ <-].
  destruct set; [|apply R_refl].
  apply R_set_addr. eapply line_at_in_view. exact Hl.
Qed.

Lemma respects_Get_loop ls lines : respects R (Get_loop ls lines).
Proof.
  revert lines. induction ls as [|l ls IH]; intros lines; cbn [Get_loop].
  - apply respects_ret.
  - intros f a f'. destruct (line_at f l) eqn:Hl; [|done].
    intros H. eapply R_trans; [|eapply IH, H].
    apply R_set_addr. eapply line_at_in_view, Hl.
Qed.

Lemma respects_Get r : respects R (Get r).
Proof.
  intros f a f'. unfold Get.
  destruct (OOB f (fst r) || OOB f (snd r)).
  - intros [= _ <-]. apply R_refl.
  - destruct (Get_loop _ _ f) as [ls f1| | |?] eqn:E; [|done..].
    intros [= _ <-]. eapply respects_Get_loop, E.
Qed.

Lemma respects_SetAddr i : respects R (SetAddr i).
Proof.
  intros f a f'. unfold SetAddr.
  destruct (OOB f i) eqn:Hi; intros [= _ <-]; [apply R_refl|by apply R_set_addr].
Qed.

Lemma respects_ResolveAddrs_loop fuel cmd lines cmdOffset :
  respects R (ResolveAddrs_loop fuel cmd lines cmdOffset).
Proof.
  revert lines cmdOffset.
  induction fuel as [|fuel IH]; intros lines cmdOffset f a f'.
  - cbn. intros [= _ <-]. apply R_refl.
  - rewrite ResolveAddrs_loop_S.
    destruct (negb _); [intros [= _ <-]; apply R_refl|]. cbv zeta.
    destruct (ResolveAddr f _) as [[[line off] [e|]]|]; [| |done].
    { intros [= _ <-]. apply R_refl. }
    destruct (_ <=? _); [intros [= _ <-]; apply R_refl|].
    destruct (str_at cmd _) as [c|]; [|done].
    destruct (ascii_eqb c ","); [apply IH|].
    destruct (ascii_eqb c ";").
    { destruct (OOB f line) eqn:Hl; [intros [= _ <-]; apply R_refl|].
      intros H. eapply R_trans; [by apply (R_set_addr line)|eapply IH, H]. }
    destruct (ascii_eqb c "%"); intros [= _ <-]; apply R_refl.
Qed.

Lemma respects_ResolveAddrs cmd : respects R (ResolveAddrs cmd).
Proof. apply respects_ResolveAddrs_loop. Qed.

Lemma respects_print_loop ls : respects R (print_loop ls).
Proof.
  induction ls as [|l ls IH]; cbn [print_loop]; [apply respects_ret|].
  apply respects_bind; [apply respects_GetMust|intros _; apply IH].
Qed.

Lemma respects_join_loop ls joined : respects R (join_loop ls joined).
Proof.
  revert joined. induction ls as [|l ls IH]; intros joined; cbn [join_loop];
    [apply respects_ret|].
  apply respects_bind; [apply respects_GetMust|intros s; apply IH].
Qed.

Create HintDb frame.
#[local] Hint Resolve respects_ret respects_panic respects_exit respects_get_buf
  respects_cmd_byte respects_cmd_suffix respects_GetMust respects_Get
  respects_SetAddr respects_ResolveAddrs respects_print_loop respects_join_loop
  : frame.

Ltac frame_step :=
  first
    [ solve [auto with frame]
    | apply respects_bind; [|intros ?]
    | match goal with
      | |- respects _ (match ?x with _ => _ end) => destruct x
      | |- respects _ (if ?x then _ else _) => destruct x
      | |- respects _ (let (_, _) := ?x in _) => destruct x
      end ].
Ltac frame := repeat frame_step.

(** The handlers that read the buffer and move the current address. *)
Lemma respects_cmdQuit env ctx : respects R (cmdQuit env ctx).
Proof. unfold cmdQuit. frame. Qed.

Lemma respects_cmdPrint env ctx : respects R (cmdPrint env ctx).
Proof. unfold cmdPrint. frame. Qed.

Lemma respects_cmdErr env ctx : respects R (cmdErr env ctx).
Proof. unfold cmdErr. frame. Qed.

Lemma respects_cmdFile env ctx : respects R (cmdFile env ctx).
Proof. unfold cmdFile. frame. Qed.

Lemma respects_cmdPrompt env ctx : respects R (cmdPrompt env ctx).
Proof. unfold cmdPrompt. frame. Qed.

Lemma respects_cmdDump env ctx : respects R (cmdDump env ctx).
Proof. unfold cmdDump. frame. Qed.

Lemma respects_cmdCommand env ctx : respects R (cmdCommand env ctx).
Proof. unfold cmdCommand. frame. Qed.

Lemma respects_cmdComment env ctx : respects R (cmdComment env ctx).
Proof. unfold cmdComment. frame. Qed.

Lemma respects_cmdLine env ctx : respects R (cmdLine env ctx).
Proof. unfold cmdLine. frame. Qed.

Lemma respects_cmdScroll env ctx : respects R (cmdScroll env ctx).
Proof. unfold cmdScroll. frame. Qed.

#[local] Hint Resolve respects_cmdQuit : frame.

(** The handler that sets a mark. *)
Section Marks.
Hypothesis R_set_marks : forall m f, R f (set_marks m f).

Lemma respects_SetMark c l : respects R (SetMark c l).
Proof.
  intros f a f'. unfold SetMark.
  destruct (OOB f l); [intros [= _ <-]; apply R_refl|].
  destruct (idx _ l); [|done]. intros [= _ <-]. apply R_set_marks.
Qed.

Lemma respects_cmdMark env ctx : respects R (cmdMark env ctx).
Proof. unfold cmdMark. pose proof respects_SetMark. frame. Qed.
End Marks.

(** The handlers that change the view through [Delete] and [Insert]. *)
Section Mutators.
Hypothesis R_Delete : forall r, respects R (Delete r).
Hypothesis R_Insert : forall line nlines, respects R (Insert line nlines).

#[local] Hint Resolve R_Delete R_Insert : frame.

Lemma respects_cmdDelete env ctx : respects R (cmdDelete env ctx).
Proof. unfold cmdDelete. frame. Qed.

Lemma respects_cmdInput env ctx : respects R (cmdInput env ctx).
Proof. unfold cmdInput. frame. Qed.

Lemma respects_cmdJoin env ctx : respects R (cmdJoin env ctx).
Proof. unfold cmdJoin. frame. Qed.

Lemma respects_cmdMove env ctx : respects R (cmdMove env ctx).
Proof. unfold cmdMove. frame. Qed.

Lemma respects_sub_lines rx rep refs b ln nMatch :
  respects R (sub_lines rx rep refs b ln nMatch).
Proof.
  revert ln nMatch. induction b as [|l b IH]; intros ln nMatch; cbn [sub_lines].
  - apply respects_ret.
  - cbv zeta. destruct (_ =? _)%nat; [apply IH|].
    destruct (sub_line _ _ _ _ _ _); frame.
Qed.

Lemma respects_cmdSub env ctx : respects R (cmdSub env ctx).
Proof. unfold cmdSub. pose proof respects_sub_lines. frame. Qed.
End Mutators.

(** The handler that writes. *)
Section Writers.
Hypothesis R_Clean : respects R Clean.

Lemma respects_cmdWrite env ctx : respects R (cmdWrite env ctx).
Proof. unfold cmdWrite. frame. Qed.
End Writers.

End Frames.

(** ** Commands *)

Section CommandFacts.
Context {RE : Regexp}.
Variable Copy : Z * Z -> M (option error).
Variable Paste : Z -> M (option error).
Variable ReadFile : Env -> Z -> string -> M (option error).

Lemma ResolveAddrs_zero_r (f : FileBuffer) (name : string) :
  ResolveAddrs (String "0" (String "r" name)) f = Val ([-1], 1, None) f.
Proof.
  unfold ResolveAddrs. rewrite ResolveAddrs_loop_S.
  set (cmd := String "0" (String "r" name)).
  assert (Hlen : len cmd = 2 + len name).
  { unfold len, cmd. cbn [String.length]. lia. }
  assert (Hpos : 0 <= len name) by (unfold len; lia).
  destruct (Z.ltb_spec 0 (len cmd)); [|lia]. cbn [negb]. cbv zeta.
  change (wsOffset (drop_str (Z.to_nat 0) cmd)) with 0.
  change (drop_str (Z.to_nat (0 + 0)) cmd) with cmd.
  assert (Hra : ResolveAddr f cmd = Some (-1, 1, None)) by reflexivity.
  rewrite Hra.
  change (wsOffset (drop_str (Z.to_nat (0 + 0 + 1)) cmd)) with 0.
  change (0 + 0 + 1 + 0) with 1.
  destruct (Z.leb_spec (len cmd - 1) 1); [reflexivity|].
  reflexivity.
Qed.

(** C5, evaluated.  On every buffer, in every environment and for every
    file name, the command [0r] followed by the name fails with "line is
    out of bounds" before any file is looked at: [cmdEdit] takes its
    address through [AddrValue], which rejects the [-1] that the address
    [0] resolves to.  The buffer keeps its view; [run] has pushed the
    snapshot of [Start]. *)
Theorem read_at_zero_is_out_of_bounds (env : Env) (f : FileBuffer) (name : string) :
  run Copy Paste ReadFile env (String "0" (String "r" name)) f
  = Val (Some ErrOOB) (set_history (snapshot f :: history f) f).
Proof.
  unfold run, bind. rewrite ResolveAddrs_zero_r.
  assert (Hlen : len (String "0" (String "r" name)) = 2 + len name).
  { unfold len. cbn [String.length]. lia. }
  assert (Hpos : 0 <= len name) by (unfold len; lia).
  destruct (Z.leb_spec (len (String "0" (String "r" name))) 1); [lia|].
  reflexivity.
Qed.
(** C3, evaluated.  On every buffer of three lines the command [1,3m0]
    fails with "cannot move lines to within their own range": the
    destination [0] has been turned from [-1] into [0] before it is
    compared with the start [0] of the range.  The view is left as it
    was; the current address is the last line of the range, where [Get]
    has put it. *)
Theorem move_to_zero_fails (env : Env) (f : FileBuffer) :
  Len f = 3 -> wf_view f = true ->
  run Copy Paste ReadFile env "1,3m0" f
  = Val (Some ErrMoveWithin) (set_addr 2 (set_history (snapshot f :: history f) f)).
Proof.
  intros HN Hwf.
  set (fs := set_history (snapshot f :: history f) f).
  assert (HNs : Len fs = 3) by exact HN.
  assert (Hwfs : wf_view fs = true) by exact Hwf.
  assert (Hmove : cmdMove env (mkContext "1,3m0" 3 [0; 2]) fs
                  = Val (Some ErrMoveWithin) (set_addr 2 fs)).
  { unfold cmdMove, bind, cmd_byte, cmd_suffix, get_buf, ret.
    change (str_at (c_cmd (mkContext "1,3m0" 3 [0; 2]))
              (c_cmdOffset (mkContext "1,3m0" 3 [0; 2]))) with (Some "m"%char).
    cbv beta iota.
    assert (Hr : AddrRangeOrLine fs [0; 2] = ((0, 2), None)).
    { unfold AddrRangeOrLine, AddrRange. cbn [length Nat.ltb Nat.leb rev app fst snd].
      unfold OOB. rewrite HNs. reflexivity. }
    change (c_addrs (mkContext "1,3m0" 3 [0; 2])) with [0; 2]. rewrite Hr.
    change (str_from (c_cmd (mkContext "1,3m0" 3 [0; 2]))
              (c_cmdOffset (mkContext "1,3m0" 3 [0; 2]) + 1)) with (Some "0"%string).
    cbv beta iota.
    assert (Hd : ResolveAddrs "0" fs = Val ([-1], 1, None) fs) by reflexivity.
    rewrite Hd. change (allow_zero [-1]) with (Some ([0], 0)). cbv beta iota.
    assert (Hv : AddrValue fs [0] = (0, None)).
    { unfold AddrValue. cbn [rev app]. unfold OOB. rewrite HNs. reflexivity. }
    rewrite Hv. rewrite Get_range by (done || lia). reflexivity. }
  transitivity
    (bind Start (fun _ =>
       bind (cmdMove env (mkContext "1,3m0" 3 [0; 2])) (fun e =>
         match e with
         | Some e => ret (Some e)
         | None => bind End (fun _ => ret None)
         end)) f); [reflexivity|].
  unfold bind at 1. unfold Start, modify. fold fs.
  unfold bind at 1. rewrite Hmove. reflexivity.
Qed.
End CommandFacts.

Lemma move_to_zero_fails_witness :
  run no_Copy no_Paste no_ReadFile (RE := LiteralRegexp) quiet_env "1,3m0" three_lines
  = Val (Some ErrMoveWithin)
      (mkFileBuffer (buffer three_lines) (file three_lines) false 2 ∅
         [snapshot three_lines]).
Proof.
  apply (move_to_zero_fails (RE := LiteralRegexp) no_Copy no_Paste no_ReadFile
           quiet_env three_lines); reflexivity.
Defined.

(** ** Undo *)

Lemma same_history_refl f : same_history f f.
Proof. reflexivity. Qed.

Lemma same_history_trans f g h : same_history f g -> same_history g h -> same_history f h.
Proof. unfold same_history. congruence. Qed.

Lemma same_history_set_addr a f : OOB f a = false -> same_history f (set_addr a f).
Proof. intros _. reflexivity. Qed.

Lemma Delete_same_history r : respects same_history (Delete r).
Proof.
  intros f a f'. unfold Delete.
  destruct (Delete_blines _ _); [|by intros [= _ <-]].
  cbv zeta. destruct (OOB _ _); by intros [= _ <-].
Qed.

Lemma Insert_same_history line nlines : respects same_history (Insert line nlines).
Proof.
  intros f a f'. unfold Insert.
  destruct (_ && _); [by intros [= _ <-]|].
  destruct (_ =? _)%nat; by intros [= _ <-].
Qed.

Lemma same_but_addr_refl f : same_but_addr f f.
Proof. by repeat split. Qed.

Lemma same_but_addr_trans f g h :
  same_but_addr f g -> same_but_addr g h -> same_but_addr f h.
Proof. unfold same_but_addr. intuition congruence. Qed.

Lemma same_but_addr_set_addr a f : OOB f a = false -> same_but_addr f (set_addr a f).
Proof. intros _. by repeat split. Qed.

Lemma str_at_Some (s : string) (n : Z) (c : ascii) :
  str_at s n = Some c -> 0 <= n < len s.
Proof.
  unfold str_at, len. destruct (Z.ltb_spec n 0); [done|].
  intros Hget. split; [done|].
  assert (Hlt : (Z.to_nat n < String.length s)%nat); [|lia].
  revert s Hget. generalize (Z.to_nat n) as k.
  induction k as [|k IH]; intros [|d s]; cbn; try done; [lia|].
  intros Hget. apply IH in Hget. lia.
Qed.

Section Undo.
Context {RE : Regexp}.
Variable Copy : Z * Z -> M (option error).
Variable Paste : Z -> M (option error).
Variable ReadFile : Env -> Z -> string -> M (option error).


(** The handlers of the mutating commands leave the history alone. *)
Lemma mutating_same_history (c : ascii) (exe : Command) env ctx :
  c ∈ mutating_bytes -> cmds Copy Paste ReadFile c = Some exe -> respects same_history (exe env ctx).
Proof.
  intros Hc Hexe. unfold mutating_bytes in Hc.
  repeat (apply elem_of_cons in Hc as [-> | Hc]);
    [..|by apply elem_of_nil in Hc];
    injection Hexe as <-;
    first [ apply respects_cmdDelete | apply respects_cmdInput
          | apply respects_cmdJoin | apply respects_cmdMove
          | apply respects_cmdSub ];
    first [ exact same_history_refl | exact same_history_trans
          | exact same_history_set_addr | exact Delete_same_history
          | exact Insert_same_history ].
Qed.

(** What the command [u] does to a buffer, through [run], with [Start]
    and [Rewind] as the specification words them.  [run] brackets the
    undo command like every other: [Start] pushes the snapshot of the
    buffer, and [Rewind] then finds that snapshot on top of the history,
    pops it, restores it, and pushes the snapshot of the state before
    the undo, which is the same.  The view, the current address, the
    dirty flag and the marks are what they were before [u]. *)
Lemma run_undo env (f : FileBuffer) :
  run Copy Paste ReadFile env "u" f
  = Val None (set_history (snapshot f :: history f) f).
Proof. destruct f as [p v d a m h]. reflexivity. Qed.

(** An address list without semicolon leaves the buffer as it is. *)
Lemma ResolveAddrs_loop_no_semicolon fuel cmd lines cmdOffset f a f' :
  (forall i, str_at cmd i <> Some ";"%char) ->
  ResolveAddrs_loop fuel cmd lines cmdOffset f = Val a f' -> f' = f.
Proof.
  intros Hsemi. revert lines cmdOffset.
  induction fuel as [|fuel IH]; intros lines cmdOffset.
  - cbn. by intros [= _ <-].
  - rewrite ResolveAddrs_loop_S.
    destruct (negb _); [by intros [= _ <-]|]. cbv zeta.
    destruct (ResolveAddr f _) as [[[line off] [e|]]|]; [by intros [= _ <-]| |done].
    destruct (_ <=? _); [by intros [= _ <-]|].
    destruct (str_at cmd _) as [c|] eqn:Hat; [|done].
    destruct (ascii_eqb c ","); [apply IH|].
    destruct (ascii_eqb c ";") eqn:Hc.
    { apply Ascii.eqb_eq in Hc. subst c. by apply Hsemi in Hat. }
    destruct (ascii_eqb c "%"); by intros [= _ <-].
Qed.

End Undo.

(** ** The dirty flag *)






Lemma same_dirty_refl f : same_dirty f f.
Proof. reflexivity. Qed.
Lemma same_dirty_trans f g h : same_dirty f g -> same_dirty g h -> same_dirty f h.
Proof. unfold same_dirty. congruence. Qed.
Lemma same_dirty_set_addr a f : OOB f a = false -> same_dirty f (set_addr a f).
Proof. intros _. reflexivity. Qed.
Lemma same_dirty_set_marks m f : same_dirty f (set_marks m f).
Proof. reflexivity. Qed.

Lemma not_cleared_refl f : not_cleared f f.
Proof. by intros H. Qed.
Lemma not_cleared_trans f g h : not_cleared f g -> not_cleared g h -> not_cleared f h.
Proof. unfold not_cleared. auto. Qed.
Lemma not_cleared_set_addr a f : OOB f a = false -> not_cleared f (set_addr a f).
Proof. intros _. by intros H. Qed.

Lemma Delete_not_cleared r : respects not_cleared (Delete r).
Proof.
  intros f a f'. unfold Delete, not_cleared.
  destruct (Delete_blines _ _); [|by intros [= _ <-]].
  cbv zeta. destruct (OOB _ _); by intros [= _ <-].
Qed.

Lemma Insert_not_cleared line nlines : respects not_cleared (Insert line nlines).
Proof.
  intros f a f'. unfold Insert, not_cleared.
  destruct (_ && _); [by intros [= _ <-]|].
  destruct (_ =? _)%nat; by intros [= _ <-].
Qed.

Lemma not_set_refl f : not_set f f.
Proof. by intros H. Qed.
Lemma not_set_trans f g h : not_set f g -> not_set g h -> not_set f h.
Proof. unfold not_set. auto. Qed.
Lemma not_set_set_addr a f : OOB f a = false -> not_set f (set_addr a f).
Proof. intros _. by intros H. Qed.
Lemma Clean_not_set : respects not_set Clean.
Proof. by intros f a f' [= _ <-]. Qed.

Lemma assoc_In (c : ascii) (t : list (ascii * Command)) (exe : Command) :
  assoc c t = Some exe -> In (c, exe) t.
Proof.
  induction t as [|[k e] t IH]; cbn; [done|].
  destruct (ascii_eqb k c) eqn:Hk.
  - apply Ascii.eqb_eq in Hk. intros [= <-]. left. by subst.
  - intros H. right. by apply IH.
Qed.

Section DirtyFlag.
Context {RE : Regexp}.
Variable Copy : Z * Z -> M (option error).
Variable Paste : Z -> M (option error).
Variable ReadFile : Env -> Z -> string -> M (option error).

Ltac split_handler H :=
  repeat match type of H with
         | context [match ?x with _ => _ end] =>
             lazymatch x with
             | context [match _ with _ => _ end] => fail
             | _ => destruct x eqn:?
             end
         end.

(** [cmdEdit] for the bytes e and E: the buffer it leaves is the one it
    found or a fresh one, and e refuses a modified buffer. *)
Lemma cmdEdit_dirty env ctx (c : ascii) f e f' :
  str_at (c_cmd ctx) (c_cmdOffset ctx) = Some c ->
  ascii_eqb c "r" = false ->
  cmdEdit ReadFile env ctx f = Val e f' ->
  not_set f f' /\ (ascii_eqb c "E" = false -> same_dirty f f').
Proof.
  intros Hat Hr. unfold cmdEdit, bind, get_buf, cmd_byte, cmd_suffix.
  rewrite Hat. unfold ret, panic, modify, bind. rewrite Hr. cbn [negb orb].
  unfold not_set, same_dirty, Dirty.
  intros H. split_handler H; try discriminate H;
    injection H as <- <-; cbn; split; try done.
  all: intros HE; rewrite HE in *; cbn in *.
  all: match goal with
       | Hd : dirty _ && true = false |- _ =>
           rewrite andb_true_r in Hd; by rewrite Hd
       end.
Qed.

(** The dirty flag, command by command.  A handler of the command
    table, other than those of r, x, y and u, sets the dirty flag only
    if its command is one of d, a, i, c, j, m, t, s, and clears it only
    if its command is w, W or E. *)
Lemma dirty_flag_by_command (env : Env) (ctx : Context) (c : ascii) (exe : Command)
  (f f' : FileBuffer) (e : option error) :
  cmds Copy Paste ReadFile c = Some exe ->
  c ∉ undefined_bytes ->
  str_at (c_cmd ctx) (c_cmdOffset ctx) = Some c ->
  exe env ctx f = Val e f' ->
  (dirty f = false -> dirty f' = true -> c ∈ mutating_bytes)
  /\ (dirty f = true -> dirty f' = false -> c ∈ cleaning_bytes).
Proof.
  intros Hexe Hundef Hat Hrun.
  assert (Hkeep : same_dirty f f' -> 
            (dirty f = false -> dirty f' = true -> c ∈ mutating_bytes)
            /\ (dirty f = true -> dirty f' = false -> c ∈ cleaning_bytes)).
  { unfold same_dirty. intros ->. split; congruence. }
  assert (Hmut : c ∈ mutating_bytes -> not_cleared f f' ->
            (dirty f = false -> dirty f' = true -> c ∈ mutating_bytes)
            /\ (dirty f = true -> dirty f' = false -> c ∈ cleaning_bytes)).
  { unfold not_cleared. intros Hc Hn. split; [done|]. intros Hd Hd'.
    rewrite Hn in Hd' by done. discriminate. }
  assert (Hcln : c ∈ cleaning_bytes -> not_set f f' ->
            (dirty f = false -> dirty f' = true -> c ∈ mutating_bytes)
            /\ (dirty f = true -> dirty f' = false -> c ∈ cleaning_bytes)).
  { unfold not_set. intros Hc Hn. split; [|done]. intros Hd Hd'.
    rewrite Hn in Hd' by done. discriminate. }
  assert (Hcases :
            respects same_dirty (exe env ctx)
            \/ (c ∈ mutating_bytes /\ respects not_cleared (exe env ctx))
            \/ (c ∈ cleaning_bytes /\ respects not_set (exe env ctx))
            \/ (c = "e"%char /\ exe = cmdEdit ReadFile)
            \/ (c = "E"%char /\ exe = cmdEdit ReadFile)).
  { clear Hrun Hkeep Hmut Hcln Hat.
    apply assoc_In in Hexe. unfold cmds_table in Hexe. cbn [In] in Hexe.
    repeat (destruct Hexe as [Hexe | Hexe];
            [injection Hexe as <- <-|]); [..|done].
    all: try (exfalso; apply Hundef; unfold undefined_bytes;
              solve [repeat first [by left | right]]).
    all: try (left;
              first [ apply respects_cmdQuit | apply respects_cmdPrint
                    | apply respects_cmdErr | apply respects_cmdMark
                    | apply respects_cmdFile | apply respects_cmdLine
                    | apply respects_cmdPrompt | apply respects_cmdDump
                    | apply respects_cmdScroll | apply respects_cmdCommand
                    | apply respects_cmdComment ];
              first [ exact same_dirty_refl | exact same_dirty_trans
                    | exact same_dirty_set_addr | exact same_dirty_set_marks ]).
    all: try (right; left; split;
              [unfold mutating_bytes; solve [repeat first [by left | right]]|];
              first [ apply respects_cmdDelete | apply respects_cmdInput
                    | apply respects_cmdJoin | apply respects_cmdMove
                    | apply respects_cmdSub ];
              first [ exact not_cleared_refl | exact not_cleared_trans
                    | exact not_cleared_set_addr | exact Delete_not_cleared
                    | exact Insert_not_cleared ]).
    all: try (right; right; left; split;
              [unfold cleaning_bytes; solve [repeat first [by left | right]]|];
              apply respects_cmdWrite;
              first [ exact not_set_refl | exact not_set_trans
                    | exact not_set_set_addr | exact Clean_not_set ]).
    - right; right; right; left. by split.
    - right; right; right; right. by split. }
  destruct Hcases as [Hk | [[Hc Hm] | [[Hc Hn] | [[-> ->] | [-> ->]]]]].
  + eapply Hkeep, Hk, Hrun.
  + eapply Hmut; [done|]. eapply Hm, Hrun.
  + eapply Hcln; [done|]. eapply Hn, Hrun.
  + destruct (cmdEdit_dirty env ctx "e" f e f' Hat eq_refl Hrun) as [_ Hs].
    apply Hkeep, Hs. reflexivity.
  + destruct (cmdEdit_dirty env ctx "E" f e f' Hat eq_refl Hrun) as [Hs _].
    apply Hcln; [|done]. unfold cleaning_bytes. solve [repeat first [by left | right]].
Qed.

End DirtyFlag.

(** C4, evaluated.  [cmdWrite] ends every write that succeeds with
    [buffer.Clean()] and never looks at the range it has written.  For
    every range that [AddrRange] accepts, the whole view or a proper
    part of it, a write to a file that can be written returns no error
    and leaves the dirty flag clear, where the claim keeps the flag set
    after the write of a proper part of the view. *)
Theorem write_clears_dirty_whatever_range (env : Env) (ctx : Context) (c : ascii)
  (f : FileBuffer) (r : Z * Z) (suffix name : string) :
  wf_view f = true ->
  c_cmdOffset ctx <> 0 ->
  AddrRange f (c_addrs ctx) = (r, None) ->
  str_at (c_cmd ctx) (c_cmdOffset ctx) = Some c ->
  str_from (c_cmd ctx) (c_cmdOffset ctx + 1) = Some suffix ->
  rxWrite_Find suffix = (false, false, name) ->
  file_write env (if (0 <? String.length name)%nat then name else fileName env)
    (ascii_eqb c "W") (range_lines f r) = None ->
  cmdWrite env ctx f = Val None (set_dirty false (set_addr (snd r) f)).
Proof.
  intros Hwf Hoff Hrange Hat Hsuf Hparse Hwrite.
  pose proof (AddrRange_ok f _ r Hrange) as (H0 & H1 & H2).
  unfold cmdWrite, bind, get_buf, cmd_suffix, cmd_byte.
  destruct (Z.eqb_spec (c_cmdOffset ctx) 0); [done|].
  rewrite Hrange, Hsuf. unfold ret. rewrite Hparse.
  destruct r as [lo hi]. cbn [fst snd] in *.
  rewrite Get_range by done. rewrite Hat, Hwrite. reflexivity.
Qed.

(** At the failing input: the buffer [a, b, c] with the dirty flag set
    and the command [1,2w out], whose range is a proper part of the
    view. *)
Lemma write_clears_dirty_whatever_range_witness :
  Len (set_dirty true three_lines) = 3
  /\ dirty (set_dirty true three_lines) = true
  /\ AddrRange (set_dirty true three_lines) [0; 1] = ((0, 1), None)
  /\ cmdWrite quiet_env (mkContext "1,2w out" 3 [0; 1]) (set_dirty true three_lines)
     = Val None (set_dirty false (set_addr 1 (set_dirty true three_lines))).
Proof.
  split; [reflexivity|]. split; [reflexivity|]. split; [reflexivity|].
  apply (write_clears_dirty_whatever_range quiet_env (mkContext "1,2w out" 3 [0; 1])
           "w"%char (set_dirty true three_lines) (0, 1) " out"%string "out"%string);
    try reflexivity. discriminate.
Defined.

(** The same through [run]: on the buffer [a, b, c] with the dirty flag
    set, [1,2w out] resolves to the first two of the three lines, writes
    them and succeeds, and leaves the dirty flag clear; the command [q]
    that follows leaves the editor without the warning that the file is
    modified. *)
Lemma write_of_part_clears_dirty :
  exists f',
    Len (set_dirty true three_lines) = 3
    /\ ResolveAddrs (RE := LiteralRegexp) "1,2w out" (set_dirty true three_lines)
       = Val ([0; 1], 3, None) (set_dirty true three_lines)
    /\ run no_Copy no_Paste no_ReadFile (RE := LiteralRegexp) quiet_env "1,2w out"
         (set_dirty true three_lines) = Val None f'
    /\ dirty (set_dirty true three_lines) = true
    /\ dirty f' = false
    /\ run no_Copy no_Paste no_ReadFile (RE := LiteralRegexp) quiet_env "q" f' = Exited
    /\ run no_Copy no_Paste no_ReadFile (RE := LiteralRegexp) quiet_env "q"
         (set_dirty true three_lines)
       = Val (Some ErrFileModified)
           (set_history [snapshot (set_dirty true three_lines)]
              (set_dirty true three_lines)).
Proof.
  exists (mkFileBuffer ["a"; "b"; "c"]%string [0; 1; 2] false 1 ∅
            [mkSnapshot [0; 1; 2] 0 true ∅]).
  split_and!; try reflexivity; vm_compute; reflexivity.
Qed.

(** ** Substitution *)



Lemma take_digits_length (s : string) :
  (String.length (take_digits s) <= String.length s)%nat.
Proof.
  induction s as [|c s IH]; cbn; [lia|]. destruct (is_digit c); cbn; lia.
Qed.





Section Substitution.
Context {RE : Regexp}.






Lemma AddrRangeOrLine_ok (f : FileBuffer) (addrs : list Z) (r : Z * Z) :
  AddrRangeOrLine f addrs = (r, None) -> 0 <= fst r /\ fst r <= snd r /\ snd r < Len f.
Proof.
  unfold AddrRangeOrLine. destruct (_ <? _)%nat; [apply AddrRange_ok|].
  unfold AddrValue. destruct (rev addrs) as [|a before]; [done|].
  destruct (OOB f a) eqn:Hoob; [done|]. intros [= <-]. cbn.
  apply OOB_false in Hoob. lia.
Qed.


End Substitution.




(** ** The invariants of the line store *)

Lemma view_ok_grow (n n' : Z) (v : list Z) (a : Z) :
  n <= n' -> view_ok n v a -> view_ok n' v a.
Proof.
  intros Hn (Hb & Hnd & H0 & Ha). split_and!; try done.
  intros b Hin. apply Hb in Hin. lia.
Qed.

Lemma sound_wf_view (f : FileBuffer) : sound f -> wf_view f = true.
Proof.
  intros [(Hb & _) _]. unfold wf_view. apply forallb_forall.
  intros b Hin. apply list_elem_of_In, Hb in Hin.
  apply andb_true_iff. split; [apply Z.leb_le|apply Z.ltb_lt]; lia.
Qed.

Lemma sound_addr (f : FileBuffer) : sound f -> 0 < Len f -> 0 <= GetAddr f < Len f.
Proof.
  intros [(_ & _ & H0 & Ha) _] HN. unfold Len, GetAddr in *.
  destruct Ha as [Ha | [Hnil _]]; [lia|]. rewrite Hnil in HN. cbn in HN. lia.
Qed.

Lemma sound_NoDup (f : FileBuffer) : sound f -> NoDup (file f).
Proof. by intros [(_ & Hnd & _) _]. Qed.

Lemma sound_NewFileBuffer (inp : list string) : sound (NewFileBuffer inp).
Proof.
  split; [|by apply Forall_nil]. cbn. split_and!.
  - intros b Hb. apply elem_of_seqZ in Hb. lia.
  - apply NoDup_seqZ.
  - done.
  - rewrite length_seqZ. destruct inp as [|l inp]; [by right|].
    left. cbn [length]. lia.
Qed.

Lemma keeps_sound_refl f : keeps_sound f f.
Proof. by intros H. Qed.

Lemma keeps_sound_trans f g h : keeps_sound f g -> keeps_sound g h -> keeps_sound f h.
Proof. unfold keeps_sound. auto. Qed.

Lemma keeps_sound_set_addr a f : OOB f a = false -> keeps_sound f (set_addr a f).
Proof.
  intros Ha [(Hb & Hnd & _ & _) Hh]. apply OOB_false in Ha. unfold Len in Ha.
  split; [|done]. cbn. split_and!; try done; lia.
Qed.

Lemma keeps_sound_set_marks m f : keeps_sound f (set_marks m f).
Proof. by intros H. Qed.

Lemma remove_first_elem (b x : Z) (v : list Z) : x ∈ remove_first b v -> x ∈ v.
Proof.
  induction v as [|l v IH]; cbn; [done|].
  destruct (l =? b); [by right|].
  intros Hx. apply elem_of_cons in Hx as [-> | Hx]; [by left|]. right. by apply IH.
Qed.

Lemma remove_first_NoDup (b : Z) (v : list Z) : NoDup v -> NoDup (remove_first b v).
Proof.
  induction v as [|l v IH]; cbn; [done|].
  intros Hnd. apply NoDup_cons in Hnd as [Hl Hnd].
  destruct (l =? b); [done|].
  apply NoDup_cons. split; [|by apply IH].
  intros Hin. apply Hl. by apply remove_first_elem in Hin.
Qed.

Lemma remove_all_sub (bs v : list Z) :
  (forall x, x ∈ fold_left (fun v b => remove_first b v) bs v -> x ∈ v)
  /\ (NoDup v -> NoDup (fold_left (fun v b => remove_first b v) bs v)).
Proof.
  revert v. induction bs as [|b bs IH]; intros v; cbn; [done|].
  destruct (IH (remove_first b v)) as [Hsub Hnd]. split.
  - intros x Hx. by apply (remove_first_elem b), Hsub.
  - intros H. by apply Hnd, remove_first_NoDup.
Qed.

Lemma Delete_keeps_sound r : respects keeps_sound (Delete r).
Proof.
  intros f e f'. unfold Delete.
  destruct (Delete_blines _ _) as [blines|];
    [|intros [= _ <-]; apply keeps_sound_refl].
  cbv zeta. set (v := fold_left _ blines (file f)).
  destruct (remove_all_sub blines (file f)) as [Hsub Hnodup]. fold v in Hsub, Hnodup.
  intros Hrun [(Hb & Hnd & _ & _) Hh].
  assert (Hv : forall a, 0 <= a -> (a < Z.of_nat (length v) \/ v = [] /\ a = 0) ->
                 sound (mkFileBuffer (buffer f) v true a (marks f) (history f))).
  { intros a H0 Ha. split; [|done]. cbn. split_and!; try done.
    - intros b Hin. by apply Hb, Hsub.
    - by apply Hnodup. }
  destruct (OOB _ _) eqn:Hoob; injection Hrun as _ <-.
  - apply Hv; [done|]. destruct v; [by right|left; cbn; lia].
  - apply OOB_false in Hoob. unfold Len in Hoob. cbn in Hoob.
    apply Hv; [lia|left; lia].
Qed.

Lemma Insert_keeps_sound line nlines : respects keeps_sound (Insert line nlines).
Proof.
  intros f e f'. unfold Insert.
  destruct (negb _ && _) eqn:Hguard; [intros [= _ <-]; apply keeps_sound_refl|].
  destruct nlines as [|l nlines]; [intros [= _ <-]; apply keeps_sound_refl|].
  cbn [length Nat.eqb]. cbv zeta. intros [= _ <-] [(Hb & Hnd & H0 & Ha) Hh].
  assert (Hline : 0 <= line <= Len f).
  { apply andb_false_iff in Hguard as [Hg | Hg].
    - apply negb_false_iff, Z.eqb_eq in Hg. pose proof (Len_nonneg f). lia.
    - apply OOB_false in Hg. lia. }
  unfold Len in Hline.
  set (n := Z.of_nat (length (buffer f))).
  set (k := Z.of_nat (S (length nlines))).
  assert (Hpool : Z.of_nat (length (buffer f ++ l :: nlines)) = n + k).
  { rewrite length_app. cbn [length]. lia. }
  split.
  - cbn. rewrite Hpool. replace (n + k - n) with k by lia.
    split_and!.
    + intros b Hin. rewrite !elem_of_app, elem_of_seqZ in Hin.
      destruct Hin as [Hin | [Hin | Hin]]; [|lia|].
      * apply subseteq_take, Hb in Hin. lia.
      * apply subseteq_drop, Hb in Hin. lia.
    + rewrite <- (take_drop (Z.to_nat line) (file f)) in Hnd.
      apply NoDup_app in Hnd as (Ht & Hdisj & Hd).
      apply NoDup_app. split_and!; [done| |].
      * intros x Hx Hx'. apply elem_of_app in Hx' as [Hx' | Hx'].
        -- apply elem_of_seqZ in Hx'. apply subseteq_take, Hb in Hx. lia.
        -- by apply (Hdisj x).
      * apply NoDup_app. split_and!; [apply NoDup_seqZ| |done].
        intros x Hx Hx'. apply elem_of_seqZ in Hx.
        apply subseteq_drop, Hb in Hx'. lia.
    + lia.
    + left. rewrite !length_app, length_seqZ, length_take, length_drop. lia.
  - cbn. rewrite Hpool. eapply Forall_impl; [exact Hh|].
    intros s Hs. eapply view_ok_grow; [|exact Hs]. lia.
Qed.

Lemma Clean_keeps_sound : respects keeps_sound Clean.
Proof. intros f a f' [= _ <-] H. exact H. Qed.

Lemma Start_keeps_sound : respects keeps_sound Start.
Proof.
  intros f a f' [= _ <-] [Hv Hh]. split; [done|]. cbn. by apply Forall_cons.
Qed.

Lemma End_keeps_sound : respects keeps_sound End.
Proof. intros f a f' [= _ <-] H. exact H. Qed.

Lemma Rewind_keeps_sound : respects keeps_sound Rewind.
Proof.
  intros f a f' [= _ <-] [Hv Hh].
  destruct (history f) as [|s h] eqn:Hhist; [split; [done|by rewrite Hhist]|].
  apply Forall_cons in Hh as [Hs Hh].
  split; [done|]. cbn. by apply Forall_cons.
Qed.

Section Soundness.
Context {RE : Regexp}.
Variable Copy : Z * Z -> M (option error).
Variable Paste : Z -> M (option error).
Variable ReadFile : Env -> Z -> string -> M (option error).
Hypothesis Copy_sound : forall r, respects keeps_sound (Copy r).
Hypothesis Paste_sound : forall l, respects keeps_sound (Paste l).
Hypothesis ReadFile_sound : forall env l name, respects keeps_sound (ReadFile env l name).

Lemma cmdEdit_keeps_sound env ctx : respects keeps_sound (cmdEdit ReadFile env ctx).
Proof.
  assert (Hnew : forall b, respects keeps_sound (modify (fun _ => NewFileBuffer b))).
  { intros b f a f' [= _ <-] _. apply sound_NewFileBuffer. }
  unfold cmdEdit.
  repeat first
    [ apply respects_ret; exact keeps_sound_refl
    | apply respects_panic
    | apply respects_NilBuffer
    | apply respects_get_buf; exact keeps_sound_refl
    | apply respects_cmd_byte; exact keeps_sound_refl
    | apply respects_cmd_suffix; exact keeps_sound_refl
    | apply Hnew
    | apply ReadFile_sound
    | apply respects_bind; [exact keeps_sound_trans| |intros ?]
    | match goal with
      | |- respects _ (match ?x with _ => _ end) => destruct x
      | |- respects _ (if ?x then _ else _) => destruct x
      end ].
Qed.

(** Every handler of the command table keeps a sound buffer sound, when
    the three methods that the source leaves out do. *)
Lemma handlers_keep_sound (c : ascii) (exe : Command) env ctx :
  cmds Copy Paste ReadFile c = Some exe -> respects keeps_sound (exe env ctx).
Proof.
  intros Hexe. apply assoc_In in Hexe. unfold cmds_table in Hexe. cbn [In] in Hexe.
  repeat (destruct Hexe as [Hexe | Hexe]; [injection Hexe as <- <-|]); [..|done].
  all: try (first [ apply respects_cmdQuit | apply respects_cmdPrint
                  | apply respects_cmdErr | apply respects_cmdMark
                  | apply respects_cmdFile | apply respects_cmdLine
                  | apply respects_cmdPrompt | apply respects_cmdDump
                  | apply respects_cmdScroll | apply respects_cmdCommand
                  | apply respects_cmdComment | apply respects_cmdDelete
                  | apply respects_cmdInput | apply respects_cmdJoin
                  | apply respects_cmdMove | apply respects_cmdSub
                  | apply respects_cmdWrite ];
            first [ exact keeps_sound_refl | exact keeps_sound_trans
                  | exact keeps_sound_set_addr | exact keeps_sound_set_marks
                  | exact Delete_keeps_sound | exact Insert_keeps_sound
                  | exact Clean_keeps_sound ]).
  all: try apply cmdEdit_keeps_sound.
  - unfold cmdCopy. apply respects_bind; [exact keeps_sound_trans| |intros f0].
    + apply respects_get_buf. exact keeps_sound_refl.
    + destruct (AddrRangeOrLine _ _) as [r [e|]];
        [apply respects_ret; exact keeps_sound_refl|apply Copy_sound].
  - unfold cmdPaste. destruct (allow_zero _) as [[addrs app]|]; [|apply respects_panic].
    apply respects_bind; [exact keeps_sound_trans| |intros f0].
    + apply respects_get_buf. exact keeps_sound_refl.
    + destruct (AddrValue _ _) as [a [e|]];
        [apply respects_ret; exact keeps_sound_refl|apply Paste_sound].
  - unfold cmdUndo. apply respects_bind; [exact keeps_sound_trans| |intros _].
    + exact Rewind_keeps_sound.
    + apply respects_ret. exact keeps_sound_refl.
Qed.

(** Every command keeps a sound buffer sound: the buffers that a
    session reaches from [NewFileBuffer] are sound. *)
Lemma run_keeps_sound env cmd : respects keeps_sound (run Copy Paste ReadFile env cmd).
Proof.
  unfold run.
  apply respects_bind; [exact keeps_sound_trans| |intros [[addrs off] e]].
  { apply respects_ResolveAddrs;
      [exact keeps_sound_refl|exact keeps_sound_trans|exact keeps_sound_set_addr]. }
  destruct e as [e|]; [apply respects_ret; exact keeps_sound_refl|]. cbv zeta.
  destruct (str_at _ off) as [c|]; [|apply respects_panic].
  destruct (cmds Copy Paste ReadFile c) as [exe|] eqn:Hexe.
  - apply respects_bind; [exact keeps_sound_trans|exact Start_keeps_sound|intros _].
    apply respects_bind; [exact keeps_sound_trans| |intros e].
    + by apply handlers_keep_sound with (c := c).
    + destruct e; [apply respects_ret; exact keeps_sound_refl|].
      apply respects_bind; [exact keeps_sound_trans|exact End_keeps_sound|intros _].
      apply respects_ret. exact keeps_sound_refl.
  - destruct (str_at cmd off); [apply respects_ret; exact keeps_sound_refl|].
    apply respects_panic.
Qed.

End Soundness.

(** * The line store, the resolver and the handlers in detail *)

(** ** The line store, operation by operation *)

Lemma idx_lookup {A} (l : list A) (i : Z) : 0 <= i -> idx l i = l !! Z.to_nat i.
Proof. intros H. unfold idx. by destruct (Z.ltb_spec i 0); [lia|]. Qed.

Lemma idx_pool_grow {A} (pre extra : list A) (b : Z) :
  0 <= b < Z.of_nat (length pre) -> idx (pre ++ extra) b = idx pre b.
Proof.
  intros H. rewrite !idx_lookup by lia. apply lookup_app_l. lia.
Qed.

Lemma wf_view_slot (f : FileBuffer) (b : Z) :
  wf_view f = true -> b ∈ file f -> 0 <= b < Z.of_nat (length (buffer f)).
Proof.
  unfold wf_view. intros Hwf Hb. rewrite forallb_forall in Hwf.
  apply list_elem_of_In, Hwf in Hb. lia.
Qed.

Lemma wf_view_intro (f : FileBuffer) :
  (forall b, b ∈ file f -> 0 <= b < Z.of_nat (length (buffer f))) -> wf_view f = true.
Proof.
  intros H. unfold wf_view. apply forallb_forall. intros b Hb.
  apply list_elem_of_In, H in Hb. lia.
Qed.

Lemma omap_all_Some {A B} (g : A -> option B) (l : list A) :
  (forall x, x ∈ l -> exists y, g x = Some y) -> map Some (omap g l) = map g l.
Proof.
  induction l as [|x l IH]; intros H; [done|].
  destruct (H x) as [y Hy]; [by left|].
  rewrite (omap_cons_Some g x y l Hy). cbn [map]. rewrite Hy, IH; [done|].
  intros x' Hx'. apply H. by right.
Qed.

Lemma map_Some_inj {A} (l l' : list A) : map Some l = map Some l' -> l = l'.
Proof.
  revert l'. induction l as [|x l IH]; intros [|x' l'] H; try done.
  cbn in H. injection H as -> H. f_equal. by apply IH.
Qed.

(** X1.  [Delete] of a range [(lo, hi)] that lies in a view without
    duplicates succeeds and removes exactly the slots [lo..hi]: the view
    that is left is the slots before [lo] followed by the slots after
    [hi], it is [hi - lo + 1] slots shorter, the pool of lines and the
    marks are kept, the dirty flag is set, and the current address is
    [lo + 1] when that is a line of the new view and 0 otherwise. *)
Theorem Delete_unmaps_range (f : FileBuffer) (lo hi : Z) :
  NoDup (file f) -> 0 <= lo -> lo <= hi -> hi < Len f ->
  exists f', Delete (lo, hi) f = Val None f'
    /\ file f' = take (Z.to_nat lo) (file f) ++ drop (Z.to_nat (hi + 1)) (file f)
    /\ Len f' = Len f - (hi - lo + 1)
    /\ buffer f' = buffer f
    /\ marks f' = marks f
    /\ dirty f' = true
    /\ addr f' = (if lo + 1 <? Len f' then lo + 1 else 0).
Proof.
  intros Hnd Hlo Hle Hhi. rewrite Delete_range by done.
  eexists. split; [reflexivity|]. cbn.
  assert (HL : Len (mkFileBuffer (buffer f)
                 (take (Z.to_nat lo) (file f) ++ drop (Z.to_nat (hi + 1)) (file f))
                 true (if lo + 1 <? Len f - (hi - lo + 1) then lo + 1 else 0)
                 (marks f) (history f)) = Len f - (hi - lo + 1)).
  { unfold Len in *. cbn. rewrite length_app, length_take, length_drop. lia. }
  rewrite HL. by split_and!.
Qed.

Lemma Delete_unmaps_range_witness :
  exists f', Delete (1, 2) (NewFileBuffer ["a"; "b"; "c"; "d"]%string) = Val None f'
    /\ file f' = [0; 3] /\ dirty f' = true /\ addr f' = 0.
Proof.
  destruct (Delete_unmaps_range (NewFileBuffer ["a"; "b"; "c"; "d"]%string) 1 2)
    as (f' & Hrun & Hfile & _ & _ & _ & Hdirty & Haddr).
  - apply NoDup_seqZ.
  - lia.
  - lia.
  - vm_compute. reflexivity.
  - exists f'. split; [exact Hrun|]. split; [exact Hfile|]. split; [exact Hdirty|].
    rewrite Haddr. unfold Len. rewrite Hfile. reflexivity.
Defined.

(** X2.  [Delete] of a range with [lo <= hi] and an endpoint outside
    the view fails with the out-of-bounds error and changes nothing.
    [Delete] of an inverted range, [hi < lo], is not refused, wherever
    its endpoints lie: it succeeds, removes nothing, sets the dirty flag
    and moves the current address to [lo + 1] when that is a line of the
    view and to 0 otherwise. *)
Theorem Delete_outside_view (f : FileBuffer) (lo hi : Z) :
  (lo <= hi -> lo < 0 \/ Len f <= hi -> Delete (lo, hi) f = Val (Some ErrOOB) f)
  /\ (hi < lo ->
      exists f', Delete (lo, hi) f = Val None f'
        /\ file f' = file f /\ buffer f' = buffer f /\ marks f' = marks f
        /\ dirty f' = true
        /\ addr f' = (if (0 <=? lo + 1) && (lo + 1 <? Len f) then lo + 1 else 0)).
Proof.
  split.
  - intros Hle Hout. unfold Delete. cbn [fst snd].
    by rewrite Delete_blines_OOB.
  - intros Hlt. unfold Delete. cbn [fst snd].
    rewrite seqZ_nil by lia. cbn.
    unfold OOB, Len. cbn.
    destruct (Z.ltb_spec (lo + 1) 0); cbn.
    + eexists. split; [reflexivity|]. cbn.
      destruct (Z.leb_spec 0 (lo + 1)); [lia|]. by cbn.
    + rewrite Z.geb_leb.
      destruct (Z.leb_spec (Z.of_nat (length (file f))) (lo + 1)).
      * eexists. split; [reflexivity|]. cbn.
        destruct (Z.leb_spec 0 (lo + 1)); [|lia].
        destruct (Z.ltb_spec (lo + 1) (Z.of_nat (length (file f)))); [lia|]. by cbn.
      * eexists. split; [reflexivity|]. cbn.
        destruct (Z.leb_spec 0 (lo + 1)); [|lia].
        destruct (Z.ltb_spec (lo + 1) (Z.of_nat (length (file f)))); [|lia]. by cbn.
Qed.

Lemma Delete_outside_view_witness :
  Delete (1, 3) three_lines = Val (Some ErrOOB) three_lines
  /\ exists f', Delete (1, 0) three_lines = Val None f'
       /\ file f' = file three_lines /\ dirty f' = true /\ addr f' = 2.
Proof.
  destruct (Delete_outside_view three_lines 1 3) as [H1 _].
  destruct (Delete_outside_view three_lines 1 0) as [_ H2].
  split.
  - apply H1; [lia|]. right. vm_compute. discriminate.
  - destruct H2 as (f' & Hrun & Hfile & _ & _ & Hdirty & Haddr); [lia|].
    exists f'. split; [exact Hrun|]. split; [exact Hfile|]. split; [exact Hdirty|].
    rewrite Haddr. reflexivity.
Defined.

(** X3.  On a buffer whose view holds only indices of the pool:
    [Get] of a range with [0 <= lo <= hi < Len] returns the lines of the
    slots [lo..hi], in order, with no error, and leaves the current
    address at [hi]; [Get] of a range with an endpoint outside the view
    returns no line and the out-of-bounds error and changes nothing;
    [Get] of an inverted range whose endpoints are lines of the view
    returns no line and no error and does not move the current address. *)
Theorem Get_collects_range (f : FileBuffer) (lo hi : Z) :
  wf_view f = true ->
  (0 <= lo -> lo <= hi -> hi < Len f ->
     exists ls, Get (lo, hi) f = Val (ls, None) (set_addr hi f)
       /\ map Some ls = map (line_at f) (seqZ lo (hi - lo + 1)))
  /\ (lo < 0 \/ Len f <= lo \/ hi < 0 \/ Len f <= hi ->
      Get (lo, hi) f = Val ([], Some ErrOOB) f)
  /\ (0 <= hi -> hi < lo -> lo < Len f -> Get (lo, hi) f = Val ([], None) f).
Proof.
  intros Hwf. split_and!.
  - intros Hlo Hle Hhi. rewrite Get_range by done.
    eexists. split; [reflexivity|]. unfold range_lines. cbn [fst snd].
    apply omap_all_Some. intros l Hl. apply elem_of_seqZ in Hl.
    apply wf_view_line_at; [done|lia].
  - intros Hout. unfold Get. cbn [fst snd].
    assert (H : OOB f lo || OOB f hi = true).
    { apply orb_true_iff. rewrite !OOB_true. lia. }
    by rewrite H.
  - intros Hhi Hlt Hlo. unfold Get. cbn [fst snd].
    rewrite (proj2 (OOB_false f lo)), (proj2 (OOB_false f hi)) by lia. cbn [orb].
    by rewrite seqZ_nil by lia.
Qed.

Lemma Get_collects_range_witness :
  (exists ls, Get (1, 2) three_lines = Val (ls, None) (set_addr 2 three_lines)
     /\ map Some ls = [Some "b"; Some "c"]%string)
  /\ Get (1, 3) three_lines = Val ([], Some ErrOOB) three_lines.
Proof.
  destruct (Get_collects_range three_lines 1 2) as (H1 & _ & _); [reflexivity|].
  destruct (Get_collects_range three_lines 1 3) as (_ & H2 & _); [reflexivity|].
  split.
  - destruct H1 as (ls & Hrun & Hls); [lia|lia|vm_compute; reflexivity|].
    exists ls. split; [exact Hrun|exact Hls].
  - apply H2. right. right. right. vm_compute. discriminate.
Defined.

Lemma line_at_NewFileBuffer (inp : list string) (i : Z) :
  0 <= i < Z.of_nat (length inp) -> line_at (NewFileBuffer inp) i = idx inp i.
Proof.
  intros Hi. unfold line_at, NewFileBuffer. cbn.
  rewrite idx_lookup by lia. rewrite lookup_seqZ_lt by lia.
  f_equal. lia.
Qed.

(** X4.  A buffer that [NewFileBuffer] makes of a non-empty list of
    lines gives that list back: [Get] of the whole view, [(0, n - 1)],
    returns the lines that were given, in order, and leaves the current
    address on the last of them. *)
Theorem NewFileBuffer_Get_all (inp : list string) :
  inp <> [] ->
  Get (0, Z.of_nat (length inp) - 1) (NewFileBuffer inp)
  = Val (inp, None) (set_addr (Z.of_nat (length inp) - 1) (NewFileBuffer inp)).
Proof.
  intros Hne.
  assert (Hlen : 0 < Z.of_nat (length inp)) by (destruct inp; [done|cbn; lia]).
  assert (HL : Len (NewFileBuffer inp) = Z.of_nat (length inp)).
  { unfold Len, NewFileBuffer. cbn. rewrite length_seqZ. lia. }
  assert (Hwf : wf_view (NewFileBuffer inp) = true)
    by apply sound_wf_view, sound_NewFileBuffer.
  rewrite Get_range; [|done|lia..]. do 2 f_equal. apply map_Some_inj.
  unfold range_lines. cbn [fst snd]. rewrite omap_all_Some.
  2:{ intros l Hl. apply elem_of_seqZ in Hl. apply wf_view_line_at; [done|lia]. }
  replace (Z.of_nat (length inp) - 1 - 0 + 1) with (Z.of_nat (length inp)) by lia.
  rewrite <- (new_slots_hold [] inp). cbn [length app].
  apply map_ext_in. intros i Hi. apply list_elem_of_In, elem_of_seqZ in Hi.
  apply line_at_NewFileBuffer. lia.
Qed.

Lemma NewFileBuffer_Get_all_witness :
  Get (0, 2) (NewFileBuffer ["a"; "b"; "c"]%string)
  = Val (["a"; "b"; "c"]%string, None) (set_addr 2 (NewFileBuffer ["a"; "b"; "c"]%string)).
Proof. apply (NewFileBuffer_Get_all ["a"; "b"; "c"]%string). discriminate. Defined.

(** What [Insert] leaves, written out. *)
Lemma Insert_result (f : FileBuffer) (at_ : Z) (nlines : list string) :
  nlines <> [] -> 0 <= at_ <= Len f ->
  Insert at_ nlines f =
    Val None (mkFileBuffer (buffer f ++ nlines)
                (take (Z.to_nat at_) (file f)
                   ++ seqZ (Z.of_nat (length (buffer f))) (Z.of_nat (length nlines))
                   ++ drop (Z.to_nat at_) (file f))
                true (at_ + Z.of_nat (length nlines) - 1) (marks f) (history f)).
Proof.
  intros Hne Hin. unfold Insert.
  assert (Hguard : negb (at_ =? Len f) && OOB f at_ = false).
  { destruct (Z.eqb_spec at_ (Len f)); [done|]. cbn. apply OOB_false. lia. }
  rewrite Hguard. destruct nlines as [|l nlines]; [done|]. cbn [length Nat.eqb].
  cbv zeta. unfold set_addr, set_dirty, set_file, set_buffer. cbn.
  rewrite length_app. cbn [length].
  replace (Z.of_nat (length (buffer f) + S (length nlines)) - Z.of_nat (length (buffer f)))
    with (Z.of_nat (S (length nlines))) by lia.
  reflexivity.
Qed.

Lemma line_at_inserted (f : FileBuffer) (at_ : Z) (nlines : list string) (g : FileBuffer) :
  wf_view f = true -> 0 <= at_ <= Len f ->
  buffer g = buffer f ++ nlines ->
  file g = take (Z.to_nat at_) (file f)
             ++ seqZ (Z.of_nat (length (buffer f))) (Z.of_nat (length nlines))
             ++ drop (Z.to_nat at_) (file f) ->
  (forall k, 0 <= k < at_ -> line_at g k = line_at f k)
  /\ (forall i, (i < length nlines)%nat -> line_at g (at_ + Z.of_nat i) = nlines !! i)
  /\ (forall k, at_ <= k < Len f -> line_at g (k + Z.of_nat (length nlines)) = line_at f k).
Proof.
  intros Hwf Hat Hpool Hview. unfold Len in *.
  assert (Hold : forall k b, file f !! k = Some b -> idx (buffer g) b = idx (buffer f) b).
  { intros k b Hb. rewrite Hpool. apply idx_pool_grow.
    apply wf_view_slot; [done|]. by apply list_elem_of_lookup_2 in Hb. }
  split_and!.
  - intros k Hk. unfold line_at. rewrite !idx_lookup by lia. rewrite Hview.
    rewrite lookup_app_l by (rewrite length_take; lia).
    rewrite lookup_take_lt by lia.
    destruct (file f !! Z.to_nat k) as [b|] eqn:Hb; [|done]. by eapply Hold.
  - intros i Hi. unfold line_at. rewrite idx_lookup by lia. rewrite Hview.
    rewrite lookup_app_r by (rewrite length_take; lia).
    rewrite length_take.
    replace (Z.to_nat (at_ + Z.of_nat i) - Z.to_nat at_ `min` length (file f))%nat
      with i by lia.
    rewrite lookup_app_l by (rewrite length_seqZ; lia).
    rewrite lookup_seqZ_lt by lia. rewrite Hpool. apply idx_app_new.
  - intros k Hk. unfold line_at. rewrite !idx_lookup by lia. rewrite Hview.
    rewrite lookup_app_r by (rewrite length_take; lia).
    rewrite length_take.
    rewrite lookup_app_r by (rewrite length_seqZ; lia).
    rewrite length_seqZ, lookup_drop.
    replace (Z.to_nat at_ +
             (Z.to_nat (k + Z.of_nat (length nlines)) - Z.to_nat at_ `min` length (file f)
              - Z.to_nat (Z.of_nat (length nlines))))%nat
      with (Z.to_nat k) by lia.
    destruct (file f !! Z.to_nat k) as [b|] eqn:Hb; [|done]. by eapply Hold.
Qed.

Lemma Insert_wf_view (f : FileBuffer) (at_ : Z) (nlines : list string) :
  wf_view f = true -> nlines <> [] -> 0 <= at_ <= Len f ->
  wf_view (mkFileBuffer (buffer f ++ nlines)
             (take (Z.to_nat at_) (file f)
                ++ seqZ (Z.of_nat (length (buffer f))) (Z.of_nat (length nlines))
                ++ drop (Z.to_nat at_) (file f))
             true (at_ + Z.of_nat (length nlines) - 1) (marks f) (history f)) = true.
Proof.
  intros Hwf Hne Hat. apply wf_view_intro. cbn. intros b Hb.
  rewrite length_app. rewrite !elem_of_app, elem_of_seqZ in Hb.
  destruct Hb as [Hb | [Hb | Hb]]; [|lia|].
  - apply subseteq_take in Hb. apply (wf_view_slot f) in Hb; [lia|done].
  - apply subseteq_drop in Hb. apply (wf_view_slot f) in Hb; [lia|done].
Qed.

(** X5.  After [Insert] of a non-empty list of [n] lines at a slot
    [at] with [0 <= at <= Len], on a buffer whose view holds only
    indices of the pool: the view is [n] slots longer, [Get] of the range
    [(at, at + n - 1)] returns the inserted lines and leaves the buffer
    as it is, the lines before [at] are where they were, and the lines
    from [at] on are [n] slots further down. *)
Theorem Insert_then_Get (f : FileBuffer) (at_ : Z) (nlines : list string) :
  wf_view f = true -> nlines <> [] -> 0 <= at_ <= Len f ->
  exists f', Insert at_ nlines f = Val None f'
    /\ Len f' = Len f + Z.of_nat (length nlines)
    /\ Get (at_, at_ + Z.of_nat (length nlines) - 1) f' = Val (nlines, None) f'
    /\ (forall k, 0 <= k < at_ -> line_at f' k = line_at f k)
    /\ (forall k, at_ <= k < Len f ->
          line_at f' (k + Z.of_nat (length nlines)) = line_at f k).
Proof.
  intros Hwf Hne Hat. rewrite Insert_result by done.
  set (f' := mkFileBuffer _ _ _ _ _ _).
  assert (Hlen : 0 < Z.of_nat (length nlines)) by (destruct nlines; [done|cbn; lia]).
  assert (HL : Len f' = Len f + Z.of_nat (length nlines)).
  { unfold Len in *. cbn. rewrite !length_app, length_take, length_drop, length_seqZ. lia. }
  assert (Hwf' : wf_view f' = true) by by apply Insert_wf_view.
  destruct (line_at_inserted f at_ nlines f' Hwf Hat eq_refl eq_refl)
    as (Hbefore & Hnew & Hafter).
  exists f'. split_and!; try done.
  rewrite Get_range; [|done|lia..].
  replace (set_addr (at_ + Z.of_nat (length nlines) - 1) f') with f' by reflexivity.
  do 2 f_equal. apply map_Some_inj. unfold range_lines. cbn [fst snd].
  rewrite omap_all_Some.
  2:{ intros l Hl. apply elem_of_seqZ in Hl. apply wf_view_line_at; [done|lia]. }
  replace (at_ + Z.of_nat (length nlines) - 1 - at_ + 1) with (Z.of_nat (length nlines))
    by lia.
  apply list_eq. intros i. rewrite !list_lookup_fmap.
  destruct (decide (i < length nlines)%nat) as [Hlt|Hge].
  - rewrite lookup_seqZ_lt by lia. cbn. rewrite Hnew by done.
    destruct (lookup_lt_is_Some_2 nlines i Hlt) as [x Hx]. by rewrite Hx.
  - rewrite lookup_seqZ_ge by lia. by rewrite lookup_ge_None_2 by lia.
Qed.

Lemma Insert_then_Get_witness :
  exists f', Insert 1 ["x"; "y"]%string three_lines = Val None f'
    /\ Len f' = 5
    /\ Get (1, 2) f' = Val (["x"; "y"]%string, None) f'
    /\ line_at f' 0 = Some "a"%string
    /\ line_at f' 3 = Some "b"%string.
Proof.
  destruct (Insert_then_Get three_lines 1 ["x"; "y"]%string)
    as (f' & Hrun & HL & Hget & Hbefore & Hafter).
  - reflexivity.
  - discriminate.
  - vm_compute. split; discriminate.
  - exists f'. split; [exact Hrun|]. split; [exact HL|]. split; [exact Hget|].
    split.
    + rewrite (Hbefore 0); [reflexivity|lia].
    + transitivity (line_at three_lines 1); [|reflexivity].
      apply (Hafter 1). vm_compute. split; [discriminate|reflexivity].
Defined.

(** X6.  On a sound buffer, [Insert] of a non-empty list of lines
    at [at], with [0 <= at <= Len], followed by [Delete] of the range
    the lines were put at, gives back the view as it was before the
    insertion; the inserted lines stay in the pool, the marks are kept
    and the dirty flag is set. *)
Theorem Insert_then_Delete (f : FileBuffer) (at_ : Z) (nlines : list string) :
  sound f -> nlines <> [] -> 0 <= at_ <= Len f ->
  exists f1 f2,
    Insert at_ nlines f = Val None f1
    /\ Delete (at_, at_ + Z.of_nat (length nlines) - 1) f1 = Val None f2
    /\ file f2 = file f
    /\ buffer f2 = buffer f ++ nlines
    /\ marks f2 = marks f
    /\ dirty f2 = true.
Proof.
  intros Hs Hne Hat.
  assert (Hlen : 0 < Z.of_nat (length nlines)) by (destruct nlines; [done|cbn; lia]).
  pose proof (Insert_keeps_sound at_ nlines f _ _ (Insert_result f at_ nlines Hne Hat) Hs)
    as Hs1.
  rewrite Insert_result by done. set (f1 := mkFileBuffer _ _ _ _ _ _) in *.
  assert (HL : Len f1 = Len f + Z.of_nat (length nlines)).
  { unfold Len in *. cbn. rewrite !length_app, length_take, length_drop, length_seqZ. lia. }
  exists f1. rewrite Delete_range; [|by apply sound_NoDup|lia..].
  eexists. split; [reflexivity|]. split; [reflexivity|]. cbn.
  split_and!; try done.
  unfold Len in Hat.
  rewrite take_app_le by (rewrite length_take; lia).
  rewrite take_take. rewrite Nat.min_l by lia.
  rewrite drop_app_ge by (rewrite length_take; lia).
  rewrite length_take.
  rewrite drop_app_ge by (rewrite length_seqZ; lia).
  rewrite length_seqZ, drop_drop.
  replace (Z.to_nat at_ +
           (Z.to_nat (at_ + Z.of_nat (length nlines) - 1 + 1)
            - Z.to_nat at_ `min` length (file f)
            - Z.to_nat (Z.of_nat (length nlines))))%nat
    with (Z.to_nat at_) by lia.
  apply take_drop.
Qed.

Lemma Insert_then_Delete_witness :
  exists f1 f2,
    Insert 1 ["x"; "y"]%string three_lines = Val None f1
    /\ Delete (1, 2) f1 = Val None f2
    /\ file f2 = [0; 1; 2]
    /\ buffer f2 = ["a"; "b"; "c"; "x"; "y"]%string.
Proof.
  destruct (Insert_then_Delete three_lines 1 ["x"; "y"]%string)
    as (f1 & f2 & H1 & H2 & Hfile & Hpool & _ & _).
  - apply sound_NewFileBuffer.
  - discriminate.
  - vm_compute. split; discriminate.
  - exists f1, f2. split; [exact H1|]. split; [exact H2|]. split; [exact Hfile|exact Hpool].
Defined.

(** ** Marks *)

Lemma find_slot_NoDup (b : Z) (v : list Z) (i : nat) (k : Z) :
  NoDup v -> v !! i = Some b -> find_slot b v k = Some (k + Z.of_nat i).
Proof.
  revert i k. induction v as [|l v IH]; intros i k Hnd Hi; [done|].
  apply NoDup_cons in Hnd as [Hl Hnd]. cbn [find_slot].
  destruct i as [|i]; cbn in Hi.
  - injection Hi as ->. rewrite Z.eqb_refl. f_equal. lia.
  - destruct (Z.eqb_spec l b) as [->|Hne].
    + exfalso. apply Hl. by eapply list_elem_of_lookup_2.
    + rewrite (IH i (k + 1)) by done. f_equal. lia.
Qed.

Lemma find_slot_absent (b : Z) (v : list Z) (k : Z) : b ∉ v -> find_slot b v k = None.
Proof.
  revert k. induction v as [|l v IH]; intros k Hb; [done|]. cbn [find_slot].
  apply not_elem_of_cons in Hb as [Hne Hb].
  destruct (Z.eqb_spec l b); [congruence|]. by apply IH.
Qed.

Lemma find_slot_found (b : Z) (v : list Z) (k l : Z) :
  find_slot b v k = Some l -> exists i : nat, l = k + Z.of_nat i /\ v !! i = Some b.
Proof.
  revert k. induction v as [|x v IH]; intros k H; [done|]. cbn [find_slot] in H.
  destruct (Z.eqb_spec x b) as [->|Hne].
  - injection H as <-. exists 0%nat. split; [lia|done].
  - apply IH in H as (i & -> & Hi). exists (S i). split; [lia|done].
Qed.

Lemma GetMark_found (f : FileBuffer) (c : ascii) (l : Z) :
  GetMark f c = (l, None) ->
  exists b, marks f !! c = Some b /\ 0 <= l /\ file f !! Z.to_nat l = Some b.
Proof.
  unfold GetMark. destruct (marks f !! c) as [b|]; [|done].
  destruct (find_slot b (file f) 0) as [l'|] eqn:Hfs; [|done].
  intros [= <-]. apply find_slot_found in Hfs as (i & -> & Hi).
  exists b. split_and!; [done|lia|]. by replace (Z.to_nat (0 + Z.of_nat i)) with i by lia.
Qed.

(** X7.  On a view without duplicates: [SetMark c l] for a line
    [l] of the view succeeds; after it [GetMark c] returns [l], every
    other mark reads as before, and the view, the pool, the current
    address and the dirty flag are unchanged.  For [l] outside the view
    [SetMark] fails with the out-of-bounds error and changes nothing. *)
Theorem SetMark_then_GetMark (f : FileBuffer) (c : ascii) (l : Z) :
  NoDup (file f) ->
  (0 <= l < Len f ->
     exists f', SetMark c l f = Val None f'
       /\ GetMark f' c = (l, None)
       /\ (forall c', c' <> c -> GetMark f' c' = GetMark f c')
       /\ file f' = file f /\ buffer f' = buffer f
       /\ addr f' = addr f /\ dirty f' = dirty f)
  /\ (~ (0 <= l < Len f) -> SetMark c l f = Val (Some ErrOOB) f).
Proof.
  intros Hnd. split.
  - intros Hl. unfold SetMark. rewrite (proj2 (OOB_false f l)) by done.
    unfold Len in Hl. destruct (lookup_lt_is_Some_2 (file f) (Z.to_nat l)) as [b Hb]; [lia|].
    rewrite idx_lookup, Hb by lia.
    eexists. split; [reflexivity|]. split_and!; try reflexivity.
    + unfold GetMark. cbn. rewrite lookup_insert_eq.
      rewrite (find_slot_NoDup b (file f) (Z.to_nat l) 0) by done. do 2 f_equal. lia.
    + intros c' Hc'. unfold GetMark. cbn. by rewrite lookup_insert_ne.
  - intros Hl. unfold SetMark.
    assert (H : OOB f l = true) by (apply OOB_true; lia).
    by rewrite H.
Qed.

Lemma SetMark_then_GetMark_witness :
  (exists f', SetMark "a" 1 three_lines = Val None f' /\ GetMark f' "a" = (1, None))
  /\ SetMark "a" 3 three_lines = Val (Some ErrOOB) three_lines.
Proof.
  destruct (SetMark_then_GetMark three_lines "a" 1) as [H1 _]; [apply NoDup_seqZ|].
  destruct (SetMark_then_GetMark three_lines "a" 3) as [_ H2]; [apply NoDup_seqZ|].
  split.
  - destruct H1 as (f' & Hset & Hget & _); [vm_compute; split; [discriminate|reflexivity]|].
    exists f'. split; [exact Hset|exact Hget].
  - apply H2. vm_compute. intros [_ H]. discriminate.
Defined.

(** X8.  A mark follows its line through [Delete].  On a view
    without duplicates, when the mark [c] reads line [l] and the range
    [(lo, hi)] of the view is deleted: for [l < lo] the mark still reads
    [l]; for [lo <= l <= hi] reading the mark fails with the error that
    the mark was cleared; for [hi < l] the mark reads
    [l - (hi - lo + 1)]. *)
Theorem mark_after_Delete (f : FileBuffer) (c : ascii) (l lo hi : Z) :
  NoDup (file f) -> GetMark f c = (l, None) ->
  0 <= lo -> lo <= hi -> hi < Len f ->
  exists f', Delete (lo, hi) f = Val None f'
    /\ GetMark f' c =
         (if l <? lo then (l, None)
          else if l <=? hi then (-1, Some (ErrMarkCleared c))
          else (l - (hi - lo + 1), None)).
Proof.
  intros Hnd Hmark Hlo Hle Hhi.
  apply GetMark_found in Hmark as (b & Hc & Hl0 & Hb).
  rewrite Delete_range by done. eexists. split; [reflexivity|].
  unfold GetMark. cbn. rewrite Hc. unfold Len in Hhi.
  assert (Hl : (Z.to_nat l < length (file f))%nat) by by eapply lookup_lt_Some.
  set (v := take (Z.to_nat lo) (file f) ++ drop (Z.to_nat (hi + 1)) (file f)).
  assert (Hnd' : NoDup v).
  { pose proof Hnd as Hnd0.
    rewrite <- (take_drop (Z.to_nat lo) (file f)) in Hnd0.
    apply NoDup_app in Hnd0 as (Ht & Hdisj & Hd).
    apply NoDup_app. split_and!; [done| |].
    - intros x Hx Hx'. apply (Hdisj x Hx).
      replace (Z.to_nat (hi + 1)) with (Z.to_nat lo + Z.to_nat (hi + 1 - lo))%nat in Hx'
        by lia.
      rewrite <- drop_drop in Hx'. by apply subseteq_drop in Hx'.
    - replace (Z.to_nat (hi + 1)) with (Z.to_nat lo + Z.to_nat (hi + 1 - lo))%nat by lia.
      rewrite <- drop_drop. eapply sublist_NoDup; [exact Hd|apply sublist_drop]. }
  destruct (Z.ltb_spec l lo) as [Hlt|Hge].
  - rewrite (find_slot_NoDup b v (Z.to_nat l) 0); [do 2 f_equal; lia|done|].
    unfold v. rewrite lookup_app_l by (rewrite length_take; lia).
    by rewrite lookup_take_lt by lia.
  - destruct (Z.leb_spec l hi) as [Hin|Hgt].
    + rewrite find_slot_absent; [done|].
      intros Hv. apply elem_of_app in Hv as [Hv | Hv].
      * apply list_elem_of_lookup in Hv as (j & Hj).
        pose proof (lookup_lt_Some _ _ _ Hj) as Hjlt. rewrite length_take in Hjlt.
        rewrite lookup_take_lt in Hj by lia.
        pose proof (NoDup_lookup _ _ _ _ Hnd Hj Hb). lia.
      * apply list_elem_of_lookup in Hv as (j & Hj). rewrite lookup_drop in Hj.
        pose proof (NoDup_lookup _ _ _ _ Hnd Hj Hb). lia.
    + rewrite (find_slot_NoDup b v (Z.to_nat (l - (hi - lo + 1))) 0);
        [do 2 f_equal; lia|done|].
      unfold v. rewrite lookup_app_r by (rewrite length_take; lia).
      rewrite length_take, lookup_drop. rewrite <- Hb. f_equal. lia.
Qed.

Lemma mark_after_Delete_witness :
  exists f',
    Delete (1, 1) (set_marks {["x"%char := 1; "y"%char := 2]} three_lines) = Val None f'
    /\ GetMark f' "x" = (-1, Some (ErrMarkCleared "x"))
    /\ GetMark f' "y" = (1, None).
Proof.
  destruct (mark_after_Delete (set_marks {["x"%char := 1; "y"%char := 2]} three_lines)
              "x" 1 1 1) as (f' & Hrun & Hx);
    [apply NoDup_seqZ|vm_compute; reflexivity|lia|lia|vm_compute; reflexivity|].
  destruct (mark_after_Delete (set_marks {["x"%char := 1; "y"%char := 2]} three_lines)
              "y" 2 1 1) as (f'' & Hrun' & Hy);
    [apply NoDup_seqZ|vm_compute; reflexivity|lia|lia|vm_compute; reflexivity|].
  exists f'. split; [exact Hrun|]. split; [exact Hx|].
  rewrite Hrun in Hrun'. injection Hrun' as <-. exact Hy.
Defined.

(** X9.  A mark follows its line through [Insert].  On a sound
    buffer, when the mark [c] reads line [l] and lines are inserted at
    [at], with [0 <= at <= Len]: the mark reads [l] when [l < at], and
    [l] plus the number of inserted lines otherwise. *)
Theorem mark_after_Insert (f : FileBuffer) (c : ascii) (l at_ : Z) (nlines : list string) :
  sound f -> GetMark f c = (l, None) -> 0 <= at_ <= Len f ->
  exists f', Insert at_ nlines f = Val None f'
    /\ GetMark f' c = (if l <? at_ then l else l + Z.of_nat (length nlines), None).
Proof.
  intros Hs Hmark Hat.
  destruct nlines as [|x nlines].
  { exists f. split.
    - unfold Insert.
      assert (Hguard : negb (at_ =? Len f) && OOB f at_ = false).
      { destruct (Z.eqb_spec at_ (Len f)); [done|]. cbn. apply OOB_false. lia. }
      by rewrite Hguard.
    - rewrite Hmark. cbn [length]. destruct (l <? at_); do 2 f_equal; lia. }
  assert (Hne : x :: nlines <> []) by done.
  pose proof (Insert_keeps_sound at_ _ f _ _ (Insert_result f at_ _ Hne Hat) Hs) as Hs1.
  apply sound_NoDup in Hs1.
  apply GetMark_found in Hmark as (b & Hc & Hl0 & Hb).
  rewrite Insert_result by done. eexists. split; [reflexivity|].
  cbn in Hs1. unfold GetMark. cbn. rewrite Hc. unfold Len in Hat.
  assert (Hl : (Z.to_nat l < length (file f))%nat) by by eapply lookup_lt_Some.
  destruct (Z.ltb_spec l at_) as [Hlt|Hge].
  - rewrite (find_slot_NoDup b _ (Z.to_nat l) 0); [do 2 f_equal; lia|done|].
    rewrite lookup_app_l by (rewrite length_take; lia).
    by rewrite lookup_take_lt by lia.
  - rewrite (find_slot_NoDup b _ (Z.to_nat (l + Z.of_nat (S (length nlines)))) 0);
      [f_equal; lia|done|].
    rewrite lookup_app_r by (rewrite length_take; lia).
    rewrite length_take.
    rewrite lookup_app_r by (rewrite length_seqZ; lia).
    rewrite length_seqZ, lookup_drop. rewrite <- Hb. f_equal. lia.
Qed.

Lemma mark_after_Insert_witness :
  exists f',
    Insert 1 ["x"; "y"]%string (set_marks {["m"%char := 2]} three_lines) = Val None f'
    /\ GetMark f' "m" = (4, None).
Proof.
  destruct (mark_after_Insert (set_marks {["m"%char := 2]} three_lines)
              "m" 2 1 ["x"; "y"]%string) as (f' & Hrun & Hm).
  - apply (keeps_sound_set_marks _ three_lines), sound_NewFileBuffer.
  - vm_compute. reflexivity.
  - vm_compute. split; discriminate.
  - exists f'. split; [exact Hrun|exact Hm].
Defined.

(** ** The address resolver never leaves the command *)

Lemma wsOffset_bounds (s : string) : 0 <= wsOffset s <= 1 /\ wsOffset s <= len s.
Proof.
  destruct s as [|c s]; unfold len; cbn [wsOffset String.length]; [lia|].
  destruct (is_space c); lia.
Qed.

Lemma re_body_fwd_length_aux (n : nat) :
  forall s b, (String.length s <= n)%nat ->
    re_body_fwd s = Some b -> (String.length b < String.length s)%nat.
Proof.
  induction n as [|n IH]; intros s b Hlen.
  - destruct s; [done|cbn in Hlen; lia].
  - destruct s as [|c rest]; [done|]. cbn in Hlen. cbn [re_body_fwd].
    destruct (ascii_eqb c "/").
    + intros [= <-]. cbn. lia.
    + destruct (ascii_eqb c "\").
      * destruct rest as [|d rest']; [done|]. cbn in Hlen.
        destruct (ascii_eqb d "/").
        -- destruct (re_body_fwd rest') as [b'|] eqn:Hrest; intros [= <-].
           ++ apply IH in Hrest; [|lia]. cbn. lia.
           ++ cbn. lia.
        -- destruct (re_body_fwd (String d rest')) as [b0|] eqn:Hrest; [|done].
           cbn. intros [= <-]. apply IH in Hrest; [|cbn; lia]. cbn in *. lia.
      * destruct (re_body_fwd rest) as [b0|] eqn:Hrest; [|done].
        cbn. intros [= <-]. apply IH in Hrest; [|lia]. cbn. lia.
Qed.

Lemma re_body_fwd_length (s b : string) :
  re_body_fwd s = Some b -> (String.length b < String.length s)%nat.
Proof. apply (re_body_fwd_length_aux (String.length s)). lia. Qed.

Lemma re_body_bwd_length (s b : string) :
  re_body_bwd s = Some b -> (String.length b < String.length s)%nat.
Proof.
  revert b. induction s as [|c s IH]; intros b; [done|]. cbn [re_body_bwd].
  destruct (ascii_eqb c "?").
  - intros [= <-]. cbn. lia.
  - destruct (re_body_bwd s) as [b0|]; [|done]. cbn. intros [= <-].
    specialize (IH b0 eq_refl). cbn. lia.
Qed.

Lemma rxSingle_FindString_length (cmd : string) :
  (String.length (rxSingle_FindString cmd) <= String.length cmd)%nat.
Proof.
  destruct cmd as [|c rest]; [done|].
  pose proof (take_digits_length (String c rest)) as Hd.
  pose proof (take_digits_length rest) as Hd'.
  unfold rxSingle_FindString.
  destruct (ascii_eqb c "." || ascii_eqb c "$"); [cbn; lia|].
  destruct (is_digit c); [exact Hd|].
  destruct (ascii_eqb c "-" || ascii_eqb c "+"); [cbn [String.length]; lia|].
  destruct (ascii_eqb c "'").
  { destruct rest as [|d r]; [cbn; lia|]. destruct (is_lower d); cbn; lia. }
  destruct (ascii_eqb c "/").
  { destruct (re_body_fwd rest) as [b|] eqn:Hb; [|cbn; lia].
    apply re_body_fwd_length in Hb. cbn [String.length]. rewrite length_append. cbn. lia. }
  destruct (ascii_eqb c "?"); [|cbn; lia].
  destruct (re_body_bwd rest) as [b|] eqn:Hb; [|cbn; lia].
  apply re_body_bwd_length in Hb. cbn [String.length]. rewrite length_append. cbn. lia.
Qed.

Lemma skip_space_length (s : string) (n : nat) (r : string) :
  skip_space s = (n, r) -> (n + String.length r = String.length s)%nat.
Proof.
  revert n r. induction s as [|c s IH]; intros n r; cbn [skip_space].
  - by intros [= <- <-].
  - destruct (is_space c).
    + destruct (skip_space s) as [n' r'] eqn:Hs. intros [= <- <-].
      specialize (IH _ _ eq_refl). cbn. lia.
    + intros [= <- <-]. cbn. lia.
Qed.

Lemma rxOff_Find_length (cmd : string) (ms : off_match) :
  rxOff_Find cmd = Some ms -> 0 < om_len ms <= len cmd.
Proof.
  unfold rxOff_Find. destruct (skip_space cmd) as [n r] eqn:Hs.
  apply skip_space_length in Hs.
  destruct n as [|n]; [done|]. destruct r as [|c r']; [done|].
  pose proof (take_digits_length (String c r')) as Hd.
  pose proof (take_digits_length r') as Hd'.
  cbn [take_digits] in Hd. revert Hd.
  destruct (is_digit c) eqn:Hc; intros Hd.
  - intros [= <-]. cbn [om_len]. unfold len. cbn [take_digits]. rewrite Hc.
    cbn [String.length] in *. lia.
  - destruct (_ || _); [|done]. intros [= <-]. cbn [om_len]. unfold len.
    cbn [String.length] in *. lia.
Qed.

Lemma ResolveOffset_bounds (cmd : string) (o c : Z) (e : option error) :
  ResolveOffset cmd = (o, c, e) -> 0 <= c <= len cmd.
Proof.
  unfold ResolveOffset. destruct (rxOff_Find cmd) as [ms|] eqn:Hms.
  - apply rxOff_Find_length in Hms.
    repeat match goal with
           | |- context [match ?x with _ => _ end] =>
               lazymatch x with
               | context [match _ with _ => _ end] => fail
               | _ => destruct x
               end
           end; intros [= _ <- _]; lia.
  - intros [= _ <- _]. unfold len. lia.
Qed.

Lemma offsets_loop_bounds fuel rest line co l off e :
  offsets_loop fuel rest line co = (l, off, e) -> co <= off <= co + len rest.
Proof.
  revert rest line co. induction fuel as [|fuel IH]; intros rest line co;
    cbn [offsets_loop].
  - intros [= _ <- _]. unfold len. lia.
  - destruct (ResolveOffset rest) as [[o c] [e'|]] eqn:Hro;
      [intros [= _ <- _]; unfold len; lia|].
    apply ResolveOffset_bounds in Hro.
    destruct (Z.ltb_spec 0 c); [|intros [= _ <- _]; unfold len; lia].
    intros H'. apply IH in H'. unfold len in *. rewrite drop_str_length in H'. lia.
Qed.

Lemma str_at_in_range (s : string) (n : Z) :
  0 <= n < len s -> exists c, str_at s n = Some c.
Proof.
  unfold str_at, len. intros Hn. destruct (Z.ltb_spec n 0); [lia|].
  assert (Hlt : (Z.to_nat n < String.length s)%nat) by lia.
  clear -Hlt. revert s Hlt. induction (Z.to_nat n) as [|k IH]; intros [|c s] Hlt;
    cbn in *; try lia; [eauto|]. apply IH. lia.
Qed.

Lemma str_at_default_print (s : string) : str_at (s +:+ "p") (len s) = Some "p"%char.
Proof.
  unfold str_at, len. destruct (Z.ltb_spec (Z.of_nat (String.length s)) 0) as [|_]; [lia|].
  rewrite Nat2Z.id. induction s as [|c s IH]; [done|].
  rewrite append_cons. exact IH.
Qed.

Lemma rxMark_has_char (m : string) : rxMark_Match m = true -> str_at m 1 <> None.
Proof. destruct m as [|c [|d m']]; cbn; done. Qed.

Section ResolverSafety.
Context {RE : Regexp}.

Lemma search_loop_total (f : FileBuffer) (re : regex) (sign : Z) (ks : list Z) :
  sound f -> sign = 1 \/ sign = -1 ->
  (forall i, i ∈ ks -> 0 <= i < Len f) ->
  search_loop f re sign ks <> None.
Proof.
  intros Hs Hsign. induction ks as [|i ks IH]; intros Hks; cbn [search_loop]; [done|].
  assert (Hi : 0 <= i < Len f) by (apply Hks; by left).
  pose proof (sound_addr f Hs ltac:(lia)) as Ha.
  assert (Hc : 0 <= Z.rem (sign * i + GetAddr f + Len f) (Len f) < Len f).
  { apply Z.rem_bound_pos; destruct Hsign as [-> | ->]; lia. }
  destruct (wf_view_line_at f _ (sound_wf_view f Hs) Hc) as [s ->].
  destruct (MatchString re s); [done|]. apply IH. intros j Hj. apply Hks. by right.
Qed.

Lemma ResolveAddr_ok (f : FileBuffer) (cmd : string) :
  sound f ->
  exists l off e, ResolveAddr f cmd = Some (l, off, e) /\ 0 <= off <= len cmd.
Proof.
  intros Hs. unfold ResolveAddr.
  pose proof (rxSingle_FindString_length cmd) as Hm.
  generalize dependent (rxSingle_FindString cmd). intros m Hm.
  assert (Hoff : forall line fuel,
            exists l off e,
              Some (offsets_loop fuel (drop_str (String.length m) cmd) line (len m))
              = Some (l, off, e) /\ 0 <= off <= len cmd).
  { intros line fuel.
    destruct (offsets_loop _ _ _ _) as [[l off] e] eqn:Ho.
    exists l, off, e. split; [done|]. apply offsets_loop_bounds in Ho.
    unfold len in *. rewrite drop_str_length in Ho. lia. }
  assert (Hret : forall (line : Z) (e : option error),
            exists l off e', Some (line, len m, e) = Some (l, off, e')
                             /\ 0 <= off <= len cmd).
  { intros line e. eexists _, _, _. split; [reflexivity|]. unfold len. lia. }
  assert (Hsearch : forall re sign, sign = 1 \/ sign = -1 ->
            search_loop f re sign (seqZ 0 (Len f)) <> None).
  { intros re sign Hsign. apply search_loop_total; [done..|].
    intros i Hi. apply elem_of_seqZ in Hi. lia. }
  destruct (_ =? _)%nat.
  { eexists _, _, _. split; [reflexivity|]. unfold len. lia. }
  cbv zeta.
  repeat first
    [ progress cbv beta iota
    | apply Hoff
    | apply Hret
    | match goal with
      | H1 : rxMark_Match ?M = true, H2 : str_at ?M 1 = None |- _ =>
          exfalso; exact (rxMark_has_char M H1 H2)
      | H : search_loop f _ 1 _ = None |- _ =>
          exfalso; exact (Hsearch _ 1 (or_introl eq_refl) H)
      | H : search_loop f _ (-1) _ = None |- _ =>
          exfalso; exact (Hsearch _ (-1) (or_intror eq_refl) H)
      | |- context [match ?x with _ => _ end] =>
          lazymatch x with
          | context [match _ with _ => _ end] => fail
          | _ => first [is_var x; destruct x | destruct x eqn:?]
          end
      end ].
Qed.

Lemma ResolveAddrs_loop_total fuel cmd lines co f :
  sound f -> 0 <= co <= len cmd ->
  exists lines' off e f',
    ResolveAddrs_loop fuel cmd lines co f = Val (lines', off, e) f'
    /\ 0 <= off <= len cmd /\ sound f'.
Proof.
  revert lines co f. induction fuel as [|fuel IH]; intros lines co f Hs Hco.
  { cbn. eexists _, _, _, _. split; [reflexivity|]. split; [lia|done]. }
  rewrite ResolveAddrs_loop_S.
  destruct (Z.ltb_spec co (len cmd)); cbn [negb].
  2:{ eexists _, _, _, _. split; [reflexivity|]. split; [lia|done]. }
  cbv zeta.
  assert (Hdrop : forall k, 0 <= k <= len cmd ->
            len (drop_str (Z.to_nat k) cmd) = len cmd - k).
  { intros k Hk. unfold len in *. rewrite drop_str_length. lia. }
  set (co1 := co + wsOffset (drop_str (Z.to_nat co) cmd)).
  assert (Hco1 : co <= co1 <= len cmd).
  { pose proof (wsOffset_bounds (drop_str (Z.to_nat co) cmd)) as [? Hw].
    rewrite Hdrop in Hw by lia. unfold co1. lia. }
  destruct (ResolveAddr_ok f (drop_str (Z.to_nat co1) cmd) Hs)
    as (line & off & e & -> & Hoff).
  rewrite Hdrop in Hoff by lia.
  destruct e as [e|].
  { eexists _, _, _, _. split; [reflexivity|]. split; [lia|done]. }
  set (co2 := co1 + off).
  set (co3 := co2 + wsOffset (drop_str (Z.to_nat co2) cmd)).
  assert (Hco3 : co2 <= co3 <= len cmd).
  { pose proof (wsOffset_bounds (drop_str (Z.to_nat co2) cmd)) as [? Hw].
    rewrite Hdrop in Hw by (unfold co2; lia). unfold co3, co2 in *. lia. }
  destruct (Z.leb_spec (len cmd - 1) co3).
  { eexists _, _, _, _. split; [reflexivity|]. split; [unfold co2 in *; lia|done]. }
  destruct (str_at_in_range cmd co3) as [c ->]; [unfold co2 in *; lia|].
  destruct (ascii_eqb c ","); [apply IH; [done|unfold co2 in *; lia]|].
  destruct (ascii_eqb c ";").
  { destruct (OOB f line) eqn:Hoob.
    - eexists _, _, _, _. split; [reflexivity|]. split; [unfold co2 in *; lia|done].
    - apply IH; [by apply (keeps_sound_set_addr line f)|unfold co2 in *; lia]. }
  destruct (ascii_eqb c "%").
  - eexists _, _, _, _. split; [reflexivity|]. split; [|done].
    pose proof (wsOffset_bounds (drop_str (Z.to_nat (co3 + 1)) cmd)) as [? Hw].
    rewrite Hdrop in Hw by (unfold co2 in *; lia). unfold co2 in *. lia.
  - eexists _, _, _, _. split; [reflexivity|]. split; [unfold co2 in *; lia|done].
Qed.

(** X10.  On a sound buffer [ResolveAddrs] returns for every
    command string: it neither panics nor exits.  The offset it returns
    lies between 0 and the length of the command, so the byte that [run]
    reads at that offset, after appending the default command [p] to a
    command that the addresses use up, exists. *)
Theorem ResolveAddrs_never_panics (cmd : string) (f : FileBuffer) :
  sound f ->
  exists lines off e f',
    ResolveAddrs cmd f = Val (lines, off, e) f'
    /\ 0 <= off <= len cmd
    /\ exists c, str_at (if len cmd <=? off then cmd +:+ "p" else cmd) off = Some c.
Proof.
  intros Hs.
  destruct (ResolveAddrs_loop_total (S (String.length cmd)) cmd [] 0 f Hs)
    as (lines & off & e & f' & Hrun & Hoff & _); [unfold len; lia|].
  exists lines, off, e, f'. split; [exact Hrun|]. split; [exact Hoff|].
  destruct (Z.leb_spec (len cmd) off).
  - replace off with (len cmd) by lia. exists "p"%char. apply str_at_default_print.
  - apply str_at_in_range. lia.
Qed.

Lemma ResolveAddrs_loop_extends fuel cmd lines co f lines' off e f' :
  ResolveAddrs_loop fuel cmd lines co f = Val (lines', off, e) f' ->
  exists more, lines' = lines ++ more.
Proof.
  revert lines co f. induction fuel as [|fuel IH]; intros lines co f.
  { cbn. intros [= <- _ _ _]. exists []. by rewrite app_nil_r. }
  rewrite ResolveAddrs_loop_S.
  destruct (negb _); [intros [= <- _ _ _]; exists []; by rewrite app_nil_r|]. cbv zeta.
  destruct (ResolveAddr f _) as [[[line o] [e'|]]|]; [| |done].
  { intros [= <- _ _ _]. exists []. by rewrite app_nil_r. }
  assert (Hmore : forall more', (exists more, lines' = (lines ++ [line]) ++ more ++ more')
                                -> exists more, lines' = lines ++ more).
  { intros more' [more ->]. exists (line :: more ++ more'). by rewrite <- app_assoc. }
  destruct (_ <=? _).
  { intros [= <- _ _ _]. exists [line]. done. }
  destruct (str_at cmd _) as [c|]; [|done].
  destruct (ascii_eqb c ",").
  { intros H. apply IH in H as [more ->]. exists (line :: more). by rewrite <- app_assoc. }
  destruct (ascii_eqb c ";").
  { destruct (OOB f line); [intros [= <- _ _ _]; by exists [line]|].
    intros H. apply IH in H as [more ->]. exists (line :: more). by rewrite <- app_assoc. }
  destruct (ascii_eqb c "%"); intros [= <- _ _ _].
  - exists [line; 0; Len f - 1]. by rewrite <- app_assoc.
  - by exists [line].
Qed.

(** X11.  [ResolveAddrs] of the empty command returns no
    address, offset 0 and no error, and leaves the buffer as it is.
    For every other command, [ResolveAddrs] that returns without an
    error returns at least one address. *)
Theorem ResolveAddrs_gives_an_address (cmd : string) (f : FileBuffer) :
  (cmd = EmptyString -> ResolveAddrs cmd f = Val ([], 0, None) f)
  /\ (cmd <> EmptyString ->
      forall lines off f', ResolveAddrs cmd f = Val (lines, off, None) f' -> lines <> []).
Proof.
  split; [by intros ->|].
  intros Hne lines off f'. unfold ResolveAddrs. rewrite ResolveAddrs_loop_S.
  assert (Hlen : (0 <? len cmd) = true).
  { apply Z.ltb_lt. destruct cmd; [done|]. unfold len. cbn. lia. }
  rewrite Hlen. cbn [negb]. cbv zeta.
  destruct (ResolveAddr f _) as [[[line o] [e'|]]|]; [done| |done].
  cbn [app].
  destruct (_ <=? _); [by intros [= <- _ _]|].
  destruct (str_at cmd _) as [c|]; [|done].
  assert (Hgrow : forall f0 o0,
            ResolveAddrs_loop (String.length cmd) cmd [line] o0 f0
            = Val (lines, off, None) f' -> lines <> []).
  { intros f0 o0 H. apply ResolveAddrs_loop_extends in H as [more ->]. done. }
  destruct (ascii_eqb c ","); [apply Hgrow|].
  destruct (ascii_eqb c ";"); [destruct (OOB f line); [done|apply Hgrow]|].
  destruct (ascii_eqb c "%"); by intros [= <- _ _].
Qed.

(** X12.  Whenever [ResolveAddrs] returns, with or without
    an error, the buffer it leaves differs from the one it was given in
    the current address at most; a current address that it changed is a
    line of the view; and for a command without a semicolon the buffer
    is left as it was. *)
Theorem ResolveAddrs_only_moves_addr (cmd : string) (f f' : FileBuffer)
  (a : list Z * Z * option error) :
  ResolveAddrs cmd f = Val a f' ->
  same_but_addr f f'
  /\ (addr f' = addr f \/ OOB f (addr f') = false)
  /\ ((forall i, str_at cmd i <> Some ";"%char) -> f' = f).
Proof.
  intros Hrun.
  pose (R := fun g g' : FileBuffer =>
               same_but_addr g g' /\ (addr g' = addr g \/ OOB g (addr g') = false)).
  assert (HR : R f f').
  { apply (respects_ResolveAddrs R) with (cmd := cmd) (a := a); [| | |exact Hrun].
    - intros g. split; [apply same_but_addr_refl|by left].
    - intros g1 g2 g3 [H12 Ha12] [H23 Ha23]. split; [by eapply same_but_addr_trans|].
      destruct Ha23 as [-> | Hoob]; [done|]. right.
      destruct H12 as (_ & Hfile & _). unfold OOB, Len in *. by rewrite <- Hfile.
    - intros x g Hoob. split; [by apply same_but_addr_set_addr|by right]. }
  destruct HR as [Hsame Haddr]. split_and!; [done..|].
  intros Hsemi. by eapply ResolveAddrs_loop_no_semicolon.
Qed.

End ResolverSafety.

Lemma ResolveAddrs_never_panics_witness :
  exists lines off e f',
    ResolveAddrs (RE := LiteralRegexp) "1,$" three_lines = Val (lines, off, e) f'
    /\ 0 <= off <= 3
    /\ exists c, str_at (if 3 <=? off then "1,$p"%string else "1,$"%string) off = Some c.
Proof.
  exact (ResolveAddrs_never_panics (RE := LiteralRegexp) "1,$" three_lines
           (sound_NewFileBuffer _)).
Defined.

Lemma ResolveAddrs_gives_an_address_witness :
  ResolveAddrs (RE := LiteralRegexp) "" three_lines = Val ([], 0, None) three_lines
  /\ [0; 2] <> [].
Proof.
  destruct (ResolveAddrs_gives_an_address (RE := LiteralRegexp) "" three_lines) as [H1 _].
  destruct (ResolveAddrs_gives_an_address (RE := LiteralRegexp) "1,3p" three_lines)
    as [_ H2].
  split.
  - apply H1. reflexivity.
  - apply (H2 ltac:(discriminate) [0; 2] 3 three_lines). vm_compute. reflexivity.
Defined.

Lemma ResolveAddrs_only_moves_addr_witness :
  same_but_addr three_lines (set_addr 1 three_lines)
  /\ (addr (set_addr 1 three_lines) = addr three_lines
      \/ OOB three_lines (addr (set_addr 1 three_lines)) = false).
Proof.
  destruct (ResolveAddrs_only_moves_addr (RE := LiteralRegexp) "2;3p" three_lines
              (set_addr 1 three_lines) ([1; 2], 3, None)) as (H1 & H2 & _).
  - vm_compute. reflexivity.
  - split; [exact H1|exact H2].
Defined.

(** ** The handlers on an empty buffer *)

Lemma OOB_empty (f : FileBuffer) (l : Z) : Len f = 0 -> OOB f l = true.
Proof. intros H. apply OOB_true. lia. Qed.

Lemma AddrValue_empty (f : FileBuffer) (addrs : list Z) :
  Len f = 0 -> exists r e, AddrValue f addrs = (r, Some e).
Proof.
  intros H. unfold AddrValue. destruct (rev addrs) as [|r ?]; [by eexists _, _|].
  rewrite OOB_empty by done. by eexists _, _.
Qed.

Lemma AddrRange_empty (f : FileBuffer) (addrs : list Z) :
  Len f = 0 -> exists r e, AddrRange f addrs = (r, Some e).
Proof.
  intros H. unfold AddrRange. destruct (rev addrs) as [|last before]; [by eexists _, _|].
  cbv zeta. rewrite (OOB_empty f (fst _)) by done. cbn [orb].
  destruct (_ >? _); by eexists _, _.
Qed.

Lemma AddrRangeOrLine_empty (f : FileBuffer) (addrs : list Z) :
  Len f = 0 -> exists r e, AddrRangeOrLine f addrs = (r, Some e).
Proof.
  intros H. unfold AddrRangeOrLine. destruct (_ <? _)%nat; [by apply AddrRange_empty|].
  destruct (AddrValue_empty f addrs H) as (r & e & ->). by eexists _, _.
Qed.

Lemma Get_empty (f : FileBuffer) (r : Z * Z) :
  Len f = 0 -> Get r f = Val ([], Some ErrOOB) f.
Proof. intros H. unfold Get. by rewrite (OOB_empty f (fst r)) by done. Qed.

Ltac stuck H0 :=
  repeat first
    [ progress unfold bind, ret, get_buf, modify, panic, exit, cmd_byte, cmd_suffix
    | progress cbv beta iota zeta
    | match goal with
      | |- Val _ ?g = Val _ _ -> _ = ?g => intros [= _ <-]; reflexivity
      | |- Crash = _ -> _ => discriminate
      | |- Exited = _ -> _ => discriminate
      | |- context [AddrValue ?f ?a] =>
          destruct (AddrValue_empty f a H0) as (? & ? & ->)
      | |- context [AddrRangeOrLine ?f ?a] =>
          destruct (AddrRangeOrLine_empty f a H0) as (? & ? & ->)
      | |- context [AddrRange ?f ?a] =>
          destruct (AddrRange_empty f a H0) as (? & ? & ->)
      | |- context [Get ?r ?f] => rewrite (Get_empty f r H0)
      | |- context [match ?x with _ => _ end] =>
          lazymatch x with
          | context [match _ with _ => _ end] => fail
          | _ => destruct x
          end
      end ].

Section EmptyBuffer.
Context {RE : Regexp}.
Variable Copy : Z * Z -> M (option error).
Variable Paste : Z -> M (option error).
Variable ReadFile : Env -> Z -> string -> M (option error).

(** X13.  On a buffer whose view is empty nothing changes the
    buffer: [ResolveAddrs] leaves it as it is for every command string,
    and so does every handler of the command table, other than that of
    u, for every context and environment, whenever it returns.  In
    particular a, i, c, e, E, r, x and y cannot put a line into an empty
    buffer. *)
Theorem empty_buffer_is_stuck (f : FileBuffer) :
  Len f = 0 ->
  (forall cmd a f', ResolveAddrs cmd f = Val a f' -> f' = f)
  /\ (forall (c : ascii) (exe : Command) env ctx e f',
        cmds Copy Paste ReadFile c = Some exe -> c <> "u"%char ->
        exe env ctx f = Val e f' -> f' = f).
Proof.
  intros H0. split.
  - intros cmd a f' Hrun.
    pose (R := fun g g' : FileBuffer => Len g = 0 -> g' = g).
    apply (respects_ResolveAddrs R) with (cmd := cmd) (a := a); [| | |exact Hrun|exact H0].
    + by intros g _.
    + intros g1 g2 g3 H12 H23 H1. rewrite <- (H12 H1). apply H23. by rewrite (H12 H1).
    + intros x g Hoob H1. by rewrite OOB_empty in Hoob.
  - intros c exe env ctx e f' Hexe Hc.
    apply assoc_In in Hexe. unfold cmds_table in Hexe. cbn [In] in Hexe.
    repeat (destruct Hexe as [Hexe | Hexe]; [injection Hexe as <- <-|]); [..|done].
    all: try done.
    all: unfold cmdQuit, cmdDelete, cmdPrint, cmdErr, cmdInput, cmdWrite, cmdMark,
           cmdEdit, cmdFile, cmdLine, cmdJoin, cmdMove, cmdCopy, cmdPaste, cmdPrompt,
           cmdSub, cmdDump, cmdScroll, cmdCommand, cmdComment.
    all: stuck H0.
Qed.

End EmptyBuffer.

Lemma empty_buffer_is_stuck_witness :
  cmdInput (mkEnv ["hello"; "."]%string "" 22 false (fun _ => true) (fun _ => Some [])
              (fun _ _ _ => None))
    (mkContext "a" 0 [0]) (NewFileBuffer []) = Val (Some ErrOOB) (NewFileBuffer [])
  /\ NewFileBuffer [] = NewFileBuffer [].
Proof.
  split; [vm_compute; reflexivity|].
  destruct (empty_buffer_is_stuck (RE := LiteralRegexp) no_Copy no_Paste no_ReadFile
              (NewFileBuffer []) eq_refl) as [_ H].
  apply (H "a"%char cmdInput
           (mkEnv ["hello"; "."]%string "" 22 false (fun _ => true) (fun _ => Some [])
              (fun _ _ _ => None))
           (mkContext "a" 0 [0]) (Some ErrOOB));
    [reflexivity|discriminate|vm_compute; reflexivity].
Defined.

(** ** Where the global buffer is lost *)

Lemma keeps_buffer_ret {A} (a : A) : keeps_buffer (ret a).
Proof. intros f e. discriminate. Qed.

Lemma keeps_buffer_panic {A} : keeps_buffer (@panic A).
Proof. intros f e. discriminate. Qed.

Lemma keeps_buffer_exit {A} : keeps_buffer (@exit A).
Proof. intros f e. discriminate. Qed.

Lemma keeps_buffer_get_buf : keeps_buffer get_buf.
Proof. intros f e. discriminate. Qed.

Lemma keeps_buffer_modify (g : FileBuffer -> FileBuffer) : keeps_buffer (modify g).
Proof. intros f e. discriminate. Qed.

Lemma keeps_buffer_bind {A B} (m : M A) (k : A -> M B) :
  keeps_buffer m -> (forall a, keeps_buffer (k a)) -> keeps_buffer (bind m k).
Proof.
  intros Hm Hk f e. unfold bind.
  destruct (m f) as [a f1| | |e1] eqn:Em; [apply Hk|done|done|].
  by apply Hm in Em.
Qed.

Lemma keeps_buffer_cmd_byte ctx : keeps_buffer (cmd_byte ctx).
Proof. intros f e. unfold cmd_byte. by destruct (str_at _ _). Qed.

Lemma keeps_buffer_cmd_suffix ctx : keeps_buffer (cmd_suffix ctx).
Proof. intros f e. unfold cmd_suffix. by destruct (str_from _ _). Qed.

Lemma keeps_buffer_GetMust line set : keeps_buffer (GetMust line set).
Proof. intros f e. unfold GetMust. cbv zeta. by destruct (line_at _ _). Qed.

Lemma keeps_buffer_Get_loop ls lines : keeps_buffer (Get_loop ls lines).
Proof.
  revert lines. induction ls as [|l ls IH]; intros lines f e; cbn [Get_loop]; [done|].
  destruct (line_at f l); [apply IH|done].
Qed.

Lemma keeps_buffer_Get r : keeps_buffer (Get r).
Proof.
  intros f e. unfold Get. destruct (_ || _); [done|].
  destruct (Get_loop _ _ f) as [ls f1| | |e1] eqn:E; try done.
  by apply keeps_buffer_Get_loop in E.
Qed.

Lemma keeps_buffer_Delete r : keeps_buffer (Delete r).
Proof.
  intros f e. unfold Delete. destruct (Delete_blines _ _); [|done].
  cbv zeta. by destruct (OOB _ _).
Qed.

Lemma keeps_buffer_Insert line nlines : keeps_buffer (Insert line nlines).
Proof.
  intros f e. unfold Insert. destruct (_ && _); [done|]. by destruct (_ =? _)%nat.
Qed.

Lemma keeps_buffer_SetAddr i : keeps_buffer (SetAddr i).
Proof. intros f e. unfold SetAddr. by destruct (OOB _ _). Qed.

Lemma keeps_buffer_SetMark c l : keeps_buffer (SetMark c l).
Proof.
  intros f e. unfold SetMark. destruct (OOB _ _); [done|]. by destruct (idx _ _).
Qed.

Lemma keeps_buffer_Clean : keeps_buffer Clean.
Proof. apply keeps_buffer_modify. Qed.

Lemma keeps_buffer_print_loop ls : keeps_buffer (print_loop ls).
Proof.
  induction ls as [|l ls IH]; cbn [print_loop]; [apply keeps_buffer_ret|].
  apply keeps_buffer_bind; [apply keeps_buffer_GetMust|by intros _].
Qed.

Lemma keeps_buffer_join_loop ls joined : keeps_buffer (join_loop ls joined).
Proof.
  revert joined. induction ls as [|l ls IH]; intros joined; cbn [join_loop];
    [apply keeps_buffer_ret|].
  apply keeps_buffer_bind; [apply keeps_buffer_GetMust|by intros s].
Qed.

Lemma keeps_buffer_cmdQuit env ctx : keeps_buffer (cmdQuit env ctx).
Proof.
  unfold cmdQuit.
  apply keeps_buffer_bind; [apply keeps_buffer_cmd_byte|intros c].
  apply keeps_buffer_bind; [apply keeps_buffer_get_buf|intros f].
  destruct (_ && _); [apply keeps_buffer_ret|apply keeps_buffer_exit].
Qed.

Section BufferKept.
Context {RE : Regexp}.

Lemma keeps_buffer_ResolveAddrs_loop fuel cmd lines cmdOffset :
  keeps_buffer (ResolveAddrs_loop fuel cmd lines cmdOffset).
Proof.
  revert lines cmdOffset. induction fuel as [|fuel IH]; intros lines cmdOffset f e;
    [done|].
  rewrite ResolveAddrs_loop_S. destruct (negb _); [done|]. cbv zeta.
  destruct (ResolveAddr f _) as [[[line off] [e'|]]|]; [done| |done].
  destruct (_ <=? _); [done|].
  destruct (str_at cmd _) as [c|]; [|done].
  destruct (ascii_eqb c ","); [apply IH|].
  destruct (ascii_eqb c ";"); [destruct (OOB f line); [done|apply IH]|].
  by destruct (ascii_eqb c "%").
Qed.

Lemma keeps_buffer_ResolveAddrs cmd : keeps_buffer (ResolveAddrs cmd).
Proof. apply keeps_buffer_ResolveAddrs_loop. Qed.

Lemma keeps_buffer_sub_lines rx rep refs b ln nMatch :
  keeps_buffer (sub_lines rx rep refs b ln nMatch).
Proof.
  revert ln nMatch. induction b as [|l b IH]; intros ln nMatch; cbn [sub_lines];
    [apply keeps_buffer_ret|].
  destruct (_ =? _)%nat; [apply IH|].
  destruct (sub_line _ _ _ _ _ _); [|apply keeps_buffer_ret|apply keeps_buffer_panic].
  apply keeps_buffer_bind; [apply keeps_buffer_Delete|intros _].
  apply keeps_buffer_bind; [apply keeps_buffer_Insert|intros _]. apply IH.
Qed.

End BufferKept.

Ltac buffer_kept :=
  repeat first
    [ apply keeps_buffer_ret | apply keeps_buffer_panic | apply keeps_buffer_exit
    | apply keeps_buffer_get_buf | apply keeps_buffer_modify
    | apply keeps_buffer_cmd_byte | apply keeps_buffer_cmd_suffix
    | apply keeps_buffer_GetMust | apply keeps_buffer_Get
    | apply keeps_buffer_Delete | apply keeps_buffer_Insert
    | apply keeps_buffer_SetMark | apply keeps_buffer_Clean
    | apply keeps_buffer_print_loop | apply keeps_buffer_join_loop
    | apply keeps_buffer_cmdQuit | apply keeps_buffer_ResolveAddrs
    | apply keeps_buffer_sub_lines
    | apply keeps_buffer_bind; [|intros ?]
    | progress cbv zeta
    | match goal with
      | |- keeps_buffer (match ?x with _ => _ end) => destruct x
      | |- keeps_buffer (if ?x then _ else _) => destruct x
      end ].

Section BufferLost.
Context {RE : Regexp}.
Variable Copy : Z * Z -> M (option error).
Variable Paste : Z -> M (option error).
Variable ReadFile : Env -> Z -> string -> M (option error).
Hypothesis Copy_keeps : forall r, keeps_buffer (Copy r).
Hypothesis Paste_keeps : forall l, keeps_buffer (Paste l).
Hypothesis ReadFile_keeps : forall env l name, keeps_buffer (ReadFile env l name).

(** [cmdEdit] is where the buffer is lost: with [-s], for a file that
    [FileToBuffer] cannot open. *)
Lemma cmdEdit_NilBuffer env ctx (f : FileBuffer) (e : option error) :
  cmdEdit ReadFile env ctx f = NilBuffer e ->
  e = None /\ fSuppress env = true /\ exists name, file_lines env name = None.
Proof.
  unfold cmdEdit, bind, get_buf, cmd_byte, cmd_suffix, ret, panic, modify.
  intros H.
  repeat match type of H with
         | context [match ?x with _ => _ end] =>
             lazymatch x with
             | context [match _ with _ => _ end] => fail
             | _ => destruct x eqn:?
             end
         end; try discriminate H.
  all: try match goal with
           | H1 : ReadFile _ _ _ _ = NilBuffer _ |- _ => by apply ReadFile_keeps in H1
           end.
  all: injection H as <-.
  all: split; [done|]. 
  all: split; [by destruct (fSuppress env)|by eexists].
Qed.

(** Every other handler of the command table keeps the buffer. *)
Lemma handlers_keep_buffer (c : ascii) (exe : Command) env ctx :
  cmds Copy Paste ReadFile c = Some exe -> c ∉ ["e"; "E"; "r"]%char ->
  keeps_buffer (exe env ctx).
Proof.
  intros Hexe Hc.
  apply assoc_In in Hexe. unfold cmds_table in Hexe. cbn [In] in Hexe.
  repeat (destruct Hexe as [Hexe | Hexe]; [injection Hexe as <- <-|]); [..|done].
  all: try (exfalso; apply Hc; solve [repeat first [by left | right]]).
  all: unfold cmdQuit, cmdDelete, cmdPrint, cmdErr, cmdInput, cmdWrite, cmdMark,
         cmdFile, cmdLine, cmdJoin, cmdMove, cmdCopy, cmdPaste, cmdPrompt,
         cmdSub, cmdDump, cmdScroll, cmdCommand, cmdComment, cmdUndo, Rewind.
  all: buffer_kept.
  all: first [apply Copy_keeps | apply Paste_keeps].
Qed.

End BufferLost.

(** ** Invariants of the handlers *)

Lemma pool_grows_Delete (r : Z * Z) :
  respects (fun g g' => exists extra, buffer g' = buffer g ++ extra) (Delete r).
Proof.
  intros f e f'. unfold Delete. destruct (Delete_blines _ _).
  - cbv zeta. destruct (OOB _ _); intros [= _ <-]; exists []; cbn; by rewrite app_nil_r.
  - intros [= _ <-]. exists []. by rewrite app_nil_r.
Qed.

Lemma pool_grows_Insert (line : Z) (nlines : list string) :
  respects (fun g g' => exists extra, buffer g' = buffer g ++ extra) (Insert line nlines).
Proof.
  intros f e f'. unfold Insert.
  destruct (_ && _); [intros [= _ <-]; exists []; by rewrite app_nil_r|].
  destruct (_ =? _)%nat; [intros [= _ <-]; exists []; by rewrite app_nil_r|].
  cbv zeta. intros [= _ <-]. by exists nlines.
Qed.

Section HandlerInvariants.
Context {RE : Regexp}.
Variable Copy : Z * Z -> M (option error).
Variable Paste : Z -> M (option error).
Variable ReadFile : Env -> Z -> string -> M (option error).

(** X14.  Every handler of the command table, other than that of u,
    keeps a sound buffer sound, when the three methods that the source
    leaves out, [Copy], [Paste] and [ReadFile], keep a sound buffer
    sound and keep the buffer.  When the handler returns with a buffer,
    the view still holds only indices of the pool, none of them twice,
    the current address is a line of the view, or 0 on an empty view,
    and the same is true of every snapshot of the history.  The one
    return that leaves no buffer is that of [cmdEdit], the handler of e,
    E and r, with no error, when counts are suppressed and
    [FileToBuffer] cannot open the file: the global buffer is nil
    then. *)
Theorem handlers_preserve_invariants (c : ascii) (exe : Command) env ctx
  (f : FileBuffer) :
  (forall r, respects keeps_sound (Copy r)) ->
  (forall l, respects keeps_sound (Paste l)) ->
  (forall env l name, respects keeps_sound (ReadFile env l name)) ->
  (forall r, keeps_buffer (Copy r)) ->
  (forall l, keeps_buffer (Paste l)) ->
  (forall env l name, keeps_buffer (ReadFile env l name)) ->
  cmds Copy Paste ReadFile c = Some exe -> c <> "u"%char ->
  sound f ->
  (forall e f', exe env ctx f = Val e f' -> sound f')
  /\ (forall e, exe env ctx f = NilBuffer e ->
        c ∈ ["e"; "E"; "r"]%char /\ e = None /\ fSuppress env = true
        /\ exists name, file_lines env name = None).
Proof.
  intros HC HP HR KC KP KR Hexe _ Hs. split.
  - intros e f' Hrun.
    by apply (handlers_keep_sound Copy Paste ReadFile HC HP HR c exe env ctx Hexe f e f').
  - intros e Hrun.
    destruct (decide (c ∈ ["e"; "E"; "r"]%char)) as [Hc|Hc].
    + split; [done|].
      assert (Hedit : exe = cmdEdit ReadFile).
      { repeat (apply elem_of_cons in Hc as [-> | Hc]); [..|by apply elem_of_nil in Hc];
          by injection Hexe as <-. }
      subst exe. by apply (cmdEdit_NilBuffer ReadFile KR env ctx f e).
    + exfalso.
      by apply (handlers_keep_buffer Copy Paste ReadFile KC KP c exe env ctx Hexe Hc f e).
Qed.

(** X15.  No handler of the command table, other than those of e,
    E, r, y, x and u, removes or changes a line of the pool: whenever it
    returns, the pool it leaves is the pool it was given, followed by
    the lines that were added. *)
Theorem pool_only_grows (c : ascii) (exe : Command) env ctx
  (f f' : FileBuffer) (e : option error) :
  cmds Copy Paste ReadFile c = Some exe ->
  c ∉ ["e"; "E"; "r"; "y"; "x"; "u"]%char ->
  exe env ctx f = Val e f' ->
  exists extra, buffer f' = buffer f ++ extra.
Proof.
  intros Hexe Hc. revert f e f'.
  change (respects (fun g g' => exists extra, buffer g' = buffer g ++ extra) (exe env ctx)).
  set (R := fun g g' : FileBuffer => exists extra, buffer g' = buffer g ++ extra).
  assert (Hrefl : forall g, R g g) by (intros g; exists []; by rewrite app_nil_r).
  assert (Htrans : forall g1 g2 g3, R g1 g2 -> R g2 g3 -> R g1 g3).
  { intros g1 g2 g3 [x1 H1] [x2 H2]. exists (x1 ++ x2). by rewrite H2, H1, app_assoc. }
  assert (Haddr : forall a g, OOB g a = false -> R g (set_addr a g)).
  { intros a g _. exists []. cbn. by rewrite app_nil_r. }
  assert (Hmarks : forall m g, R g (set_marks m g)).
  { intros m g. exists []. cbn. by rewrite app_nil_r. }
  assert (Hclean : respects R Clean).
  { intros g u g' [= _ <-]. exists []. cbn. by rewrite app_nil_r. }
  apply assoc_In in Hexe. unfold cmds_table in Hexe. cbn [In] in Hexe.
  repeat (destruct Hexe as [Hexe | Hexe]; [injection Hexe as <- <-|]); [..|done].
  all: try (exfalso; apply Hc; solve [repeat first [by left | right]]).
  all: first [ apply respects_cmdQuit | apply respects_cmdPrint
             | apply respects_cmdErr | apply respects_cmdMark
             | apply respects_cmdFile | apply respects_cmdLine
             | apply respects_cmdPrompt | apply respects_cmdDump
             | apply respects_cmdScroll | apply respects_cmdCommand
             | apply respects_cmdComment | apply respects_cmdDelete
             | apply respects_cmdInput | apply respects_cmdJoin
             | apply respects_cmdMove | apply respects_cmdSub
             | apply respects_cmdWrite ];
       first [ exact Hrefl | exact Htrans | exact Haddr | exact Hmarks
             | exact pool_grows_Delete | exact pool_grows_Insert | exact Hclean ].
Qed.

End HandlerInvariants.

Lemma handlers_preserve_invariants_witness :
  sound three_lines
  /\ cmdDelete quiet_env (mkContext "2d" 1 [1]) three_lines
     = Val None (mkFileBuffer ["a"; "b"; "c"]%string [0; 2] true 0 ∅ [])
  /\ sound (mkFileBuffer ["a"; "b"; "c"]%string [0; 2] true 0 ∅ [])
  /\ cmdEdit no_ReadFile
       (mkEnv [] "" 22 true (fun _ => false) (fun _ => None) (fun _ _ _ => None))
       (mkContext "e gone" 0 [0]) three_lines = NilBuffer None
  /\ fSuppress (mkEnv [] "" 22 true (fun _ => false) (fun _ => None) (fun _ _ _ => None))
     = true.
Proof.
  assert (Hs : sound three_lines) by apply sound_NewFileBuffer.
  assert (Hrun : cmdDelete quiet_env (mkContext "2d" 1 [1]) three_lines
                 = Val None (mkFileBuffer ["a"; "b"; "c"]%string [0; 2] true 0 ∅ []))
    by (vm_compute; reflexivity).
  assert (Hlost : cmdEdit no_ReadFile
                    (mkEnv [] "" 22 true (fun _ => false) (fun _ => None)
                       (fun _ _ _ => None))
                    (mkContext "e gone" 0 [0]) three_lines = NilBuffer None)
    by (vm_compute; reflexivity).
  assert (HC : forall r, respects keeps_sound (no_Copy r))
    by (intros r f e f' H; discriminate H).
  assert (HP : forall l, respects keeps_sound (no_Paste l))
    by (intros l f e f' H; discriminate H).
  assert (HR : forall env l name, respects keeps_sound (no_ReadFile env l name))
    by (intros env l name f e f' H; discriminate H).
  assert (KC : forall r, keeps_buffer (no_Copy r)) by (intros r f e H; discriminate H).
  assert (KP : forall l, keeps_buffer (no_Paste l)) by (intros l f e H; discriminate H).
  assert (KR : forall env l name, keeps_buffer (no_ReadFile env l name))
    by (intros env l name f e H; discriminate H).
  split; [exact Hs|]. split; [exact Hrun|]. split.
  - destruct (handlers_preserve_invariants (RE := LiteralRegexp) no_Copy no_Paste
                no_ReadFile "d"%char cmdDelete quiet_env (mkContext "2d" 1 [1])
                three_lines HC HP HR KC KP KR eq_refl ltac:(discriminate) Hs)
      as [Hval _].
    exact (Hval _ _ Hrun).
  - split; [exact Hlost|].
    destruct (handlers_preserve_invariants (RE := LiteralRegexp) no_Copy no_Paste
                no_ReadFile "e"%char (cmdEdit no_ReadFile)
                (mkEnv [] "" 22 true (fun _ => false) (fun _ => None) (fun _ _ _ => None))
                (mkContext "e gone" 0 [0]) three_lines HC HP HR KC KP KR eq_refl
                ltac:(discriminate) Hs) as [_ Hnil].
    destruct (Hnil _ Hlost) as (_ & _ & Hsupp & _). exact Hsupp.
Defined.

Lemma pool_only_grows_witness :
  exists extra,
    buffer (mkFileBuffer ["a"; "b"; "c"; "x"]%string [0; 3; 1; 2] true 1 ∅ [])
    = buffer three_lines ++ extra.
Proof.
  apply (pool_only_grows (RE := LiteralRegexp) no_Copy no_Paste no_ReadFile
           "a"%char cmdInput
           (mkEnv ["x"; "."]%string "" 22 false (fun _ => true) (fun _ => Some [])
              (fun _ _ _ => None))
           (mkContext "1a" 1 [0]) three_lines _ None).
  - reflexivity.
  - intros H. repeat (apply elem_of_cons in H as [H|H]; [discriminate|]).
    by apply elem_of_nil in H.
  - vm_compute. reflexivity.
Defined.

(** ** The handlers, one by one *)

Lemma AddrValue_last (f : FileBuffer) (addrs : list Z) (l : Z) :
  last addrs = Some l ->
  AddrValue f addrs = (l, if OOB f l then Some ErrOOB else None).
Proof.
  intros H. apply last_Some in H as [pre ->]. unfold AddrValue. by rewrite rev_unit.
Qed.

Lemma print_loop_range (f : FileBuffer) (ls : list Z) :
  (forall l, l ∈ ls -> exists s, line_at f l = Some s) ->
  print_loop ls f = Val tt match last ls with Some l => set_addr l f | None => f end.
Proof.
  revert f. induction ls as [|l ls IH]; intros f Hall; cbn [print_loop]; [done|].
  unfold bind, GetMust. rewrite line_at_set_addr.
  destruct (Hall l) as [s ->]; [by left|].
  rewrite IH.
  - rewrite (last_cons l ls). by destruct (last ls).
  - intros l' Hl'. rewrite line_at_set_addr. apply Hall. by right.
Qed.

Lemma join_loop_lines (f : FileBuffer) (ls : list Z) (acc : string) :
  (forall l, l ∈ ls -> exists s, line_at f l = Some s) ->
  join_loop ls acc f = Val (fold_left String.append (omap (line_at f) ls) acc) f.
Proof.
  revert acc. induction ls as [|l ls IH]; intros acc Hall; cbn [join_loop]; [done|].
  unfold bind, GetMust. destruct (Hall l) as [s Hs]; [by left|]. rewrite Hs.
  rewrite (omap_cons_Some (line_at f) l s ls Hs). cbn [fold_left].
  apply IH. intros l' Hl'. apply Hall. by right.
Qed.

Lemma last_seqZ (lo hi : Z) : lo <= hi -> last (seqZ lo (hi - lo + 1)) = Some hi.
Proof.
  intros H. replace (hi - lo + 1) with (Z.of_nat (S (Z.to_nat (hi - lo)))) by lia.
  rewrite seqZ_S, last_snoc. f_equal. lia.
Qed.

(** X16.  On a buffer whose view holds only indices of the
    pool, [cmdPrint] (p, n and l) with addresses that [AddrRangeOrLine]
    refuses returns that error and changes nothing; with addresses that
    it accepts, [cmdPrint] succeeds and changes the current address to
    the end of the range, and nothing else. *)
Theorem cmdPrint_moves_to_range_end env ctx (f : FileBuffer) (c : ascii)
  (r : Z * Z) (e : option error) :
  wf_view f = true ->
  str_at (c_cmd ctx) (c_cmdOffset ctx) = Some c ->
  AddrRangeOrLine f (c_addrs ctx) = (r, e) ->
  cmdPrint env ctx f
  = match e with
    | Some e => Val (Some e) f
    | None => Val None (set_addr (snd r) f)
    end.
Proof.
  intros Hwf Hc Hr. unfold cmdPrint, bind, get_buf. rewrite Hr.
  destruct e as [e|]; [reflexivity|].
  apply AddrRangeOrLine_ok in Hr as (Hlo & Hle & Hhi).
  unfold cmd_byte. rewrite Hc. unfold ret at 1.
  rewrite print_loop_range.
  - by rewrite last_seqZ.
  - intros l Hl. apply elem_of_seqZ in Hl. apply wf_view_line_at; [done|lia].
Qed.

Lemma cmdPrint_moves_to_range_end_witness :
  cmdPrint quiet_env (mkContext "2,3p" 3 [1; 2]) three_lines
  = Val None (set_addr 2 three_lines).
Proof.
  exact (cmdPrint_moves_to_range_end quiet_env (mkContext "2,3p" 3 [1; 2]) three_lines
           "p" (1, 2) None eq_refl eq_refl eq_refl).
Defined.

(** X17.  [cmdInput] for a and i, with nothing after the command
    byte and [l] the last address.  When the input holds no line before
    the terminating dot, the command succeeds and changes nothing, for
    every [l].  Otherwise, when [l] is not a line of the view, which
    includes the address 0, resolved to -1, of [0a] and [0i], the
    command fails with the out-of-bounds error and changes nothing.
    Otherwise the lines read are appended to the pool and spliced into
    the view at slot [l + 1] for a and at slot [l] for i, the dirty flag
    is set and the current address is the last line inserted. *)
Theorem cmdInput_inserts env ctx (f : FileBuffer) (c : ascii) (l : Z) :
  str_at (c_cmd ctx) (c_cmdOffset ctx) = Some c ->
  str_from (c_cmd ctx) (c_cmdOffset ctx + 1) = Some EmptyString ->
  last (c_addrs ctx) = Some l ->
  c = "a"%char \/ c = "i"%char ->
  (input_lines (stdin env) = [] -> cmdInput env ctx f = Val None f)
  /\ (input_lines (stdin env) <> [] -> ~ (0 <= l < Len f) ->
      cmdInput env ctx f = Val (Some ErrOOB) f)
  /\ (input_lines (stdin env) <> [] -> 0 <= l < Len f ->
      cmdInput env ctx f
      = Val None
          (mkFileBuffer (buffer f ++ input_lines (stdin env))
             (take (Z.to_nat (if ascii_eqb c "a" then l + 1 else l)) (file f)
                ++ seqZ (Z.of_nat (length (buffer f)))
                     (Z.of_nat (length (input_lines (stdin env))))
                ++ drop (Z.to_nat (if ascii_eqb c "a" then l + 1 else l)) (file f))
             true
             ((if ascii_eqb c "a" then l + 1 else l)
              + Z.of_nat (length (input_lines (stdin env))) - 1)
             (marks f) (history f))).
Proof.
  intros Hc Hsuf Hlast Hbyte.
  assert (Hhead : cmdInput env ctx f =
            if (length (input_lines (stdin env)) =? 0)%nat then Val None f
            else match AddrValue f (c_addrs ctx) with
                 | (_, Some e) => Val (Some e) f
                 | (line, None) =>
                     Insert (if ascii_eqb c "a" then line + 1 else line)
                       (input_lines (stdin env)) f
                 end).
  { unfold cmdInput, bind, cmd_suffix, cmd_byte. rewrite Hsuf, Hc. unfold ret at 1 2.
    cbn [len String.length Z.of_nat Z.eqb negb andb]. cbv zeta.
    destruct (_ =? _)%nat; [reflexivity|].
    destruct Hbyte as [-> | ->].
    - change (negb (len "" =? 0) && negb (ascii_eqb "a" "c")) with false.
      change (ascii_eqb "a" "i") with false. change (ascii_eqb "a" "a") with true.
      cbv beta iota. unfold get_buf, ret.
      by destruct (AddrValue f (c_addrs ctx)) as [line [e|]].
    - change (negb (len "" =? 0) && negb (ascii_eqb "i" "c")) with false.
      change (ascii_eqb "i" "i") with true. change (ascii_eqb "i" "a") with false.
      cbv beta iota. unfold get_buf, ret.
      by destruct (AddrValue f (c_addrs ctx)) as [line [e|]]. }
  rewrite Hhead, (AddrValue_last f _ l Hlast). split_and!.
  - by intros ->.
  - intros Hne Hout. destruct (input_lines (stdin env)); [done|]. cbn [length Nat.eqb].
    assert (H : OOB f l = true) by (apply OOB_true; lia). by rewrite H.
  - intros Hne Hin.
    destruct (input_lines (stdin env)) as [|x nbuf] eqn:Hn; [done|]. cbn [length Nat.eqb].
    rewrite (proj2 (OOB_false f l)) by done.
    apply Insert_result; [done|]. destruct (ascii_eqb c "a"); lia.
Qed.

Lemma cmdInput_inserts_witness :
  cmdInput (mkEnv ["x"; "."]%string "" 22 false (fun _ => true) (fun _ => Some [])
              (fun _ _ _ => None)) (mkContext "3a" 1 [2]) three_lines
    = Val None (mkFileBuffer ["a"; "b"; "c"; "x"]%string [0; 1; 2; 3] true 3 ∅ [])
  /\ cmdInput (mkEnv ["x"; "."]%string "" 22 false (fun _ => true) (fun _ => Some [])
                 (fun _ _ _ => None)) (mkContext "0a" 1 [-1]) three_lines
     = Val (Some ErrOOB) three_lines.
Proof.
  split.
  - destruct (cmdInput_inserts
                (mkEnv ["x"; "."]%string "" 22 false (fun _ => true) (fun _ => Some [])
                   (fun _ _ _ => None)) (mkContext "3a" 1 [2]) three_lines "a" 2
                eq_refl eq_refl eq_refl (or_introl eq_refl)) as (_ & _ & H).
    rewrite H; [reflexivity|discriminate|vm_compute; split; [discriminate|reflexivity]].
  - destruct (cmdInput_inserts
                (mkEnv ["x"; "."]%string "" 22 false (fun _ => true) (fun _ => Some [])
                   (fun _ _ _ => None)) (mkContext "0a" 1 [-1]) three_lines "a" (-1)
                eq_refl eq_refl eq_refl (or_introl eq_refl)) as (_ & H & _).
    apply H; [discriminate|]. intros [H0 _]. apply H0. reflexivity.
Defined.

Lemma splice_after_delete (F new : list Z) (lo hi : Z) :
  0 <= lo -> lo <= hi -> hi < Z.of_nat (length F) ->
  take (Z.to_nat lo) (take (Z.to_nat lo) F ++ drop (Z.to_nat (hi + 1)) F)
    ++ new ++ drop (Z.to_nat lo) (take (Z.to_nat lo) F ++ drop (Z.to_nat (hi + 1)) F)
  = take (Z.to_nat lo) F ++ new ++ drop (Z.to_nat (hi + 1)) F.
Proof.
  intros Hlo Hle Hhi.
  rewrite take_app_length' by (rewrite length_take; lia).
  rewrite drop_app_length' by (rewrite length_take; lia).
  reflexivity.
Qed.

(** What [Delete] of a range and [Insert] at its start leave. *)
Lemma Delete_then_Insert (f : FileBuffer) (lo hi : Z) (nlines : list string) :
  NoDup (file f) -> 0 <= lo -> lo <= hi -> hi < Len f -> nlines <> [] ->
  bind (Delete (lo, hi)) (fun e => Insert lo nlines) f
  = Val None
      (mkFileBuffer (buffer f ++ nlines)
         (take (Z.to_nat lo) (file f)
            ++ seqZ (Z.of_nat (length (buffer f))) (Z.of_nat (length nlines))
            ++ drop (Z.to_nat (hi + 1)) (file f))
         true (lo + Z.of_nat (length nlines) - 1) (marks f) (history f)).
Proof.
  intros Hnd Hlo Hle Hhi Hne. unfold bind. rewrite Delete_range by done.
  unfold Len in Hhi.
  rewrite Insert_result; [|done|].
  - cbn [buffer file marks history]. f_equal. f_equal.
    by apply splice_after_delete.
  - unfold Len. cbn [file]. rewrite length_app, length_take, length_drop. lia.
Qed.

(** X18.  [cmdInput] for c, on a view without duplicates, with
    addresses that [AddrRange] resolves to the range [(lo, hi)] and at
    least one line of input: the slots [lo..hi] of the view are replaced
    by the lines read, which are appended to the pool; the dirty flag is
    set and the current address is the last line read. *)
Theorem cmdInput_changes env ctx (f : FileBuffer) (suffix : string) (lo hi : Z) :
  NoDup (file f) ->
  str_at (c_cmd ctx) (c_cmdOffset ctx) = Some "c"%char ->
  str_from (c_cmd ctx) (c_cmdOffset ctx + 1) = Some suffix ->
  input_lines (stdin env) <> [] ->
  AddrRange f (c_addrs ctx) = ((lo, hi), None) ->
  cmdInput env ctx f
  = Val None
      (mkFileBuffer (buffer f ++ input_lines (stdin env))
         (take (Z.to_nat lo) (file f)
            ++ seqZ (Z.of_nat (length (buffer f)))
                 (Z.of_nat (length (input_lines (stdin env))))
            ++ drop (Z.to_nat (hi + 1)) (file f))
         true (lo + Z.of_nat (length (input_lines (stdin env))) - 1)
         (marks f) (history f)).
Proof.
  intros Hnd Hc Hsuf Hne Hr.
  pose proof (AddrRange_ok f _ _ Hr) as (Hlo & Hle & Hhi). cbn [fst snd] in *.
  unfold cmdInput. unfold bind at 1 2, cmd_suffix, cmd_byte. rewrite Hsuf, Hc.
  unfold ret at 1 2.
  change (ascii_eqb "c" "c") with true. change (ascii_eqb "c" "i") with false.
  change (ascii_eqb "c" "a") with false. cbn [negb]. rewrite andb_false_r. cbv zeta.
  destruct (input_lines (stdin env)) as [|x nbuf] eqn:Hn; [done|]. cbn [length Nat.eqb].
  unfold bind at 1, get_buf. rewrite Hr. cbn [fst].
  by apply Delete_then_Insert.
Qed.

Lemma cmdInput_changes_witness :
  cmdInput (mkEnv ["x"; "."]%string "" 22 false (fun _ => true) (fun _ => Some [])
              (fun _ _ _ => None)) (mkContext "1,2c" 3 [0; 1]) three_lines
  = Val None (mkFileBuffer ["a"; "b"; "c"; "x"]%string [3; 2] true 0 ∅ []).
Proof.
  rewrite (cmdInput_changes
             (mkEnv ["x"; "."]%string "" 22 false (fun _ => true) (fun _ => Some [])
                (fun _ _ _ => None)) (mkContext "1,2c" 3 [0; 1]) three_lines "" 0 1);
    [reflexivity|apply NoDup_seqZ|reflexivity|reflexivity|discriminate|reflexivity].
Defined.

(** X19.  [cmdJoin] on a sound buffer, with addresses that
    [AddrRangeOrLine] resolves to [(lo, hi)].  For a single line,
    [lo = hi], the command succeeds and changes nothing, not even the
    dirty flag.  Otherwise the lines [lo..hi] are concatenated in order,
    with nothing between them, the result is appended to the pool and
    takes the place of the slots [lo..hi] in the view, the dirty flag is
    set and the current address is [lo], the joined line. *)
Theorem cmdJoin_joins env ctx (f : FileBuffer) (lo hi : Z) :
  sound f ->
  AddrRangeOrLine f (c_addrs ctx) = ((lo, hi), None) ->
  (lo = hi -> cmdJoin env ctx f = Val None f)
  /\ (lo <> hi ->
      cmdJoin env ctx f
      = Val None
          (mkFileBuffer
             (buffer f ++ [fold_left String.append (range_lines f (lo, hi)) EmptyString])
             (take (Z.to_nat lo) (file f)
                ++ [Z.of_nat (length (buffer f))]
                ++ drop (Z.to_nat (hi + 1)) (file f))
             true lo (marks f) (history f))).
Proof.
  intros Hs Hr.
  pose proof (AddrRangeOrLine_ok f _ _ Hr) as (Hlo & Hle & Hhi). cbn [fst snd] in *.
  split.
  - intros ->. unfold cmdJoin. unfold bind at 1, get_buf. rewrite Hr. cbn [fst snd].
    by rewrite Z.eqb_refl.
  - intros Hne. unfold cmdJoin. unfold bind at 1, get_buf. rewrite Hr. cbn [fst snd].
    destruct (Z.eqb_spec lo hi); [done|].
    unfold bind at 1. rewrite join_loop_lines.
    2:{ intros l Hl. apply elem_of_seqZ in Hl.
        apply wf_view_line_at; [by apply sound_wf_view|lia]. }
    fold (range_lines f (lo, hi)).
    set (joined := fold_left String.append (range_lines f (lo, hi)) EmptyString).
    transitivity (bind (Delete (lo, hi)) (fun e => Insert lo [joined]) f).
    { unfold bind. rewrite Delete_range by (done || by apply sound_NoDup). reflexivity. }
    rewrite Delete_then_Insert by (done || by apply sound_NoDup).
    cbn [length]. do 2 f_equal. lia.
Qed.

Lemma cmdJoin_joins_witness :
  cmdJoin quiet_env (mkContext "1,2j" 3 [0; 1]) three_lines
  = Val None (mkFileBuffer ["a"; "b"; "c"; "ab"]%string [3; 2] true 0 ∅ []).
Proof.
  destruct (cmdJoin_joins quiet_env (mkContext "1,2j" 3 [0; 1]) three_lines 0 1
              (sound_NewFileBuffer _) eq_refl) as [_ H].
  rewrite H; [reflexivity|discriminate].
Defined.

(** X20.  Whenever [cmdWrite] (w and W) returns, the pool,
    the view and the marks are as before; when it returns no error the
    dirty flag is clear, and when it returns an error the dirty flag is
    as it was before. *)
Theorem cmdWrite_clears_flag_on_success env ctx (f f' : FileBuffer) (e : option error) :
  cmdWrite env ctx f = Val e f' ->
  buffer f' = buffer f /\ file f' = file f /\ marks f' = marks f
  /\ (e = None -> dirty f' = false)
  /\ (e <> None -> dirty f' = dirty f).
Proof.
  unfold cmdWrite. unfold bind at 1, get_buf.
  destruct (if c_cmdOffset ctx =? 0 then _ else _) as [r [e0|]].
  { intros [= <- <-]. by split_and!. }
  unfold bind at 1, cmd_suffix.
  destruct (str_from _ _) as [suffix|]; [|done]. unfold ret at 1.
  destruct (rxWrite_Find suffix) as [[quit run] name].
  unfold bind at 1.
  destruct (Get r f) as [[lstr eg] f1| | |?] eqn:HG; [|done..].
  assert (Hsame : same_but_addr f f1).
  { apply (respects_Get same_but_addr same_but_addr_refl same_but_addr_trans
             same_but_addr_set_addr r f _ _ HG). }
  destruct Hsame as (Hb & Hf & Hd & Hm & _).
  destruct eg as [eg|]; [intros [= <- <-]; by split_and!|].
  destruct run; [intros [= <- <-]; by split_and!|].
  unfold bind at 1, cmd_byte.
  destruct (str_at _ _) as [c|]; [|done]. unfold ret at 1.
  destruct (file_write env _ _ lstr) as [ew|]; [intros [= <- <-]; by split_and!|].
  unfold bind at 1.
  assert (Hq : forall g a g', (if quit then cmdQuit env ctx else ret None) g = Val a g' ->
                              g' = g).
  { intros g a g'. destruct quit; [|by intros [= _ <-]].
    unfold cmdQuit, bind, cmd_byte, get_buf. destruct (str_at _ _); [|done].
    unfold ret at 1. by destruct (_ && _); [intros [= _ <-]|]. }
  destruct ((if quit then cmdQuit env ctx else ret None) f1) as [a g| | |?] eqn:Hrun;
    [|done..].
  apply Hq in Hrun as ->. cbn. intros [= <- <-]. by split_and!.
Qed.

Lemma cmdWrite_clears_flag_on_success_witness :
  dirty (set_dirty true three_lines) = true
  /\ cmdWrite quiet_env (mkContext "w out" 0 [0]) (set_dirty true three_lines)
     = Val None (set_dirty false (set_addr 2 (set_dirty true three_lines)))
  /\ dirty (set_dirty false (set_addr 2 (set_dirty true three_lines))) = false.
Proof.
  assert (Hrun : cmdWrite quiet_env (mkContext "w out" 0 [0]) (set_dirty true three_lines)
                 = Val None (set_dirty false (set_addr 2 (set_dirty true three_lines))))
    by (vm_compute; reflexivity).
  split; [reflexivity|]. split; [exact Hrun|].
  destruct (cmdWrite_clears_flag_on_success _ _ _ _ _ Hrun) as (_ & _ & _ & H & _).
  apply H. reflexivity.
Defined.

Section MissingOperand.
Context {RE : Regexp}.
Variable ReadFile : Env -> Z -> string -> M (option error).

(** X21.  [cmdMove] (m and t) with nothing after the
    command byte panics: for every range or line that [AddrRangeOrLine]
    accepts, the destination resolves to no address and the handler
    indexes the empty list of addresses. *)
Theorem cmdMove_without_destination_panics env ctx (f : FileBuffer) (c : ascii)
  (r : Z * Z) :
  str_at (c_cmd ctx) (c_cmdOffset ctx) = Some c ->
  str_from (c_cmd ctx) (c_cmdOffset ctx + 1) = Some EmptyString ->
  AddrRangeOrLine f (c_addrs ctx) = (r, None) ->
  cmdMove env ctx f = Crash.
Proof.
  intros Hc Hsuf Hr. unfold cmdMove, bind, cmd_byte, cmd_suffix, get_buf.
  rewrite Hc, Hsuf. unfold ret at 1. rewrite Hr. reflexivity.
Qed.

(** X22.  [cmdEdit] (e, E and r) without a file name panics:
    with a valid address, on an unmodified buffer or for E and r, when
    nothing or a single white space follows the command byte, the
    handler reads the first byte of an empty file name before it falls
    back on the current file name. *)
Theorem cmdEdit_without_name_panics env ctx (f : FileBuffer) (c : ascii) (a : Z)
  (suffix : string) :
  AddrValue f (c_addrs ctx) = (a, None) ->
  str_at (c_cmd ctx) (c_cmdOffset ctx) = Some c ->
  dirty f = false \/ c = "E"%char \/ c = "r"%char ->
  str_from (c_cmd ctx) (c_cmdOffset ctx + 1) = Some suffix ->
  suffix = EmptyString \/ (exists w, is_space w = true /\ suffix = String w EmptyString) ->
  cmdEdit ReadFile env ctx f = Crash.
Proof.
  intros Ha Hc Hforce Hsuf Hname. unfold cmdEdit, bind, get_buf, cmd_byte, cmd_suffix.
  rewrite Ha, Hc, Hsuf. unfold ret at 1. cbv zeta.
  assert (Hgo : Dirty f && negb (ascii_eqb c "E" || ascii_eqb c "r") = false).
  { unfold Dirty. destruct Hforce as [-> | [-> | ->]]; [done|..]; by rewrite andb_false_r. }
  rewrite Hgo. unfold ret at 1.
  destruct Hname as [-> | (w & Hw & ->)]; [reflexivity|].
  cbn [wsOffset]. rewrite Hw. reflexivity.
Qed.

End MissingOperand.

Lemma cmdMove_without_destination_panics_witness :
  cmdMove (RE := LiteralRegexp) quiet_env (mkContext "1m" 1 [0]) three_lines = Crash.
Proof.
  exact (cmdMove_without_destination_panics (RE := LiteralRegexp) quiet_env
           (mkContext "1m" 1 [0]) three_lines "m" (0, 0) eq_refl eq_refl eq_refl).
Defined.

Lemma cmdEdit_without_name_panics_witness :
  cmdEdit no_ReadFile quiet_env (mkContext "e" 0 [0]) three_lines = Crash.
Proof.
  exact (cmdEdit_without_name_panics no_ReadFile quiet_env (mkContext "e" 0 [0])
           three_lines "e" 0 "" eq_refl eq_refl (or_introl eq_refl) eq_refl
           (or_introl eq_refl)).
Defined.

(** ** The substitute command *)

Lemma append_assoc (s t u : string) : (s +:+ t) +:+ u = s +:+ (t +:+ u).
Proof. induction s as [|c s IH]; [done|]. by rewrite !append_cons, IH. Qed.

Lemma prefix_nil (s : string) : String.prefix EmptyString s = true.
Proof. by destruct s. Qed.

Lemma prefix_byte (d c : ascii) (s : string) :
  String.prefix (String d EmptyString) (String c s) = ascii_eqb d c.
Proof.
  cbn [String.prefix]. unfold ascii_eqb.
  destruct (ascii_dec d c) as [->|Hne].
  - by rewrite prefix_nil, Ascii.eqb_refl.
  - symmetry. by apply Ascii.eqb_neq.
Qed.

Lemma drop_str_app (s t : string) : drop_str (String.length s) (s +:+ t) = t.
Proof. induction s as [|c s IH]; [done|]. rewrite append_cons. exact IH. Qed.

Lemma take_str_app (s t : string) : take_str (String.length s) (s +:+ t) = s.
Proof.
  induction s as [|c s IH]; [by destruct t|]. rewrite append_cons. cbn. by rewrite IH.
Qed.

Lemma str_from_mid (pre t : string) (a : Z) :
  a = len pre -> str_from (pre +:+ t) a = Some t.
Proof.
  intros ->. unfold str_from, len. rewrite length_append.
  destruct (Z.leb_spec 0 (Z.of_nat (String.length pre))); [|lia].
  destruct (Z.leb_spec (Z.of_nat (String.length pre))
              (Z.of_nat (String.length pre + String.length t))); [|lia].
  cbn [andb]. by rewrite Nat2Z.id, drop_str_app.
Qed.

Lemma str_slice_mid (pre s t : string) (a b : Z) :
  a = len pre -> b = len pre + len s ->
  str_slice (pre +:+ (s +:+ t)) a b = Some s.
Proof.
  intros -> ->. unfold str_slice, len. rewrite !length_append.
  destruct (Z.leb_spec 0 (Z.of_nat (String.length pre))); [|lia].
  destruct (Z.leb_spec (Z.of_nat (String.length pre))
              (Z.of_nat (String.length pre) + Z.of_nat (String.length s))); [|lia].
  destruct (Z.leb_spec (Z.of_nat (String.length pre) + Z.of_nat (String.length s))
              (Z.of_nat (String.length pre + (String.length s + String.length t)))); [|lia].
  cbn [andb]. rewrite Nat2Z.id, drop_str_app.
  replace (Z.to_nat (Z.of_nat (String.length pre) + Z.of_nat (String.length s)
                     - Z.of_nat (String.length pre))) with (String.length s) by lia.
  by rewrite take_str_app.
Qed.

Lemma str_slice_inverted (s : string) (a b : Z) : b < a -> str_slice s a b = None.
Proof.
  intros H. unfold str_slice. destruct (Z.leb_spec a b); [lia|]. by rewrite andb_false_r.
Qed.

Lemma sanitize_cons (fill c : ascii) (s : string) :
  c <> "\"%char -> sanitize fill (String c s) O = String c (sanitize fill s O).
Proof.
  intros Hc. cbn [sanitize]. unfold ascii_eqb.
  by rewrite (proj2 (Ascii.eqb_neq c "\") Hc).
Qed.

Lemma sanitize_plain_app (fill : ascii) (s t : string) :
  "\"%char ∉ list_ascii_of_string s ->
  sanitize fill (s +:+ t) O = s +:+ sanitize fill t O.
Proof.
  induction s as [|c s IH]; intros Hs; [done|].
  cbn [list_ascii_of_string] in Hs. apply not_elem_of_cons in Hs as [Hc Hs].
  rewrite !append_cons, sanitize_cons by done. by rewrite IH.
Qed.

Lemma sanitize_plain (fill : ascii) (s : string) :
  "\"%char ∉ list_ascii_of_string s -> sanitize fill s O = s.
Proof.
  induction s as [|c s IH]; intros Hs; [done|].
  cbn [list_ascii_of_string] in Hs. apply not_elem_of_cons in Hs as [Hc Hs].
  rewrite sanitize_cons by done. by rewrite IH.
Qed.

Lemma str_index_first (d : ascii) (s t : string) (pos : Z) :
  d ∉ list_ascii_of_string s ->
  str_index (String d EmptyString) (s +:+ String d t) pos = pos + len s.
Proof.
  revert pos. induction s as [|c s IH]; intros pos Hs.
  - rewrite append_nil. cbn [str_index]. rewrite prefix_byte. unfold ascii_eqb.
    rewrite Ascii.eqb_refl. unfold len. cbn. lia.
  - cbn [list_ascii_of_string] in Hs. apply not_elem_of_cons in Hs as [Hc Hs].
    rewrite append_cons. cbn [str_index]. rewrite prefix_byte. unfold ascii_eqb.
    rewrite (proj2 (Ascii.eqb_neq d c) Hc). rewrite IH by done.
    unfold len. cbn [String.length]. lia.
Qed.

Lemma str_index_absent (d : ascii) (s : string) (pos : Z) :
  d ∉ list_ascii_of_string s -> str_index (String d EmptyString) s pos = -1.
Proof.
  revert pos. induction s as [|c s IH]; intros pos Hs; [done|].
  cbn [list_ascii_of_string] in Hs. apply not_elem_of_cons in Hs as [Hc Hs].
  cbn [str_index]. rewrite prefix_byte. unfold ascii_eqb.
  rewrite (proj2 (Ascii.eqb_neq d c) Hc). by apply IH.
Qed.

Lemma string_of_byte_low (d : ascii) :
  (nat_of_ascii d < 128)%nat -> string_of_byte d = String d EmptyString.
Proof.
  intros H. unfold string_of_byte. by destruct (Nat.ltb_spec (nat_of_ascii d) 128); [|lia].
Qed.

Lemma split_second (d : ascii) (s x : string) :
  String d (s +:+ String d x) = String d (s +:+ String d EmptyString) +:+ x.
Proof. by rewrite append_cons, append_assoc, append_cons, append_nil. Qed.

Lemma len_cons (c : ascii) (s : string) : len (String c s) = len s + 1.
Proof. unfold len. cbn [String.length]. lia. Qed.

Lemma len_append (s t : string) : len (s +:+ t) = len s + len t.
Proof. unfold len. rewrite length_append. lia. Qed.

(** X23.  The substitute command needs its three delimiters.
    For a delimiter [del] that [cmdSub] accepts, an ASCII byte other
    than the backslash, and for a pattern and a replacement that contain
    neither the delimiter nor a backslash: the command text
    [del pat del rep del flags] is read as the pattern [pat] and the
    replacement [rep]; the texts [del pat del rep] and [del pat], where
    closing delimiters are missing, make the handler panic on a slice
    whose end lies before its start. *)
Theorem sub_parse_three_delimiters (del : ascii) (pat rep flags : string) :
  bad_delimiter del = false -> (nat_of_ascii del < 128)%nat -> del <> "\"%char ->
  del ∉ list_ascii_of_string pat -> "\"%char ∉ list_ascii_of_string pat ->
  del ∉ list_ascii_of_string rep -> "\"%char ∉ list_ascii_of_string rep ->
  sub_parse (String del (pat +:+ String del (rep +:+ String del flags))) = Ok (pat, rep)
  /\ sub_parse (String del (pat +:+ String del rep)) = Panic
  /\ sub_parse (String del pat) = Panic.
Proof.
  intros Hbad Hlow Hesc Hpd Hpe Hrd Hre.
  assert (Hlen : forall s, 0 <= len s) by (intros s; unfold len; lia).
  assert (Hone : forall s, str_from (String del s) 1 = Some s).
  { intros s. by apply (str_from_mid (String del EmptyString) s). }
  pose proof (Hlen pat) as Hp. pose proof (Hlen rep) as Hr.
  assert (Hmat : forall x, str_slice (String del (pat +:+ x)) 1 (0 + len pat + 1) = Some pat).
  { intros x. apply (str_slice_mid (String del EmptyString) pat x); [done|].
    unfold len. cbn [String.length]. lia. }
  assert (Hp2 : len (String del (pat +:+ String del EmptyString)) = len pat + 2).
  { unfold len. cbn [String.length]. rewrite length_append. cbn [String.length]. lia. }
  split_and!.
  - unfold sub_parse. rewrite Hbad, string_of_byte_low by done.
    rewrite sanitize_cons, sanitize_plain_app by done.
    rewrite sanitize_cons, sanitize_plain_app by done.
    rewrite sanitize_cons by done.
    set (tail := String del (sanitize " " flags 0)).
    rewrite Hone. cbn [of_option rbind].
    rewrite str_index_first by done.
    destruct (Z.eqb_spec (0 + len pat + 1) (-1)); [lia|].
    rewrite (split_second del pat (rep +:+ tail)).
    rewrite (str_from_mid _ (rep +:+ tail)) by (rewrite Hp2; lia).
    cbn [of_option rbind]. unfold tail. rewrite str_index_first by done.
    destruct (Z.eqb_spec (0 + len rep + (0 + len pat + 1) + 1) (-1)); [lia|].
    rewrite Hmat. cbn [of_option rbind].
    rewrite (split_second del pat (rep +:+ String del flags)).
    rewrite (str_slice_mid _ rep (String del flags)) by (rewrite Hp2; lia).
    reflexivity.
  - unfold sub_parse. rewrite Hbad, string_of_byte_low by done.
    rewrite sanitize_cons, sanitize_plain_app by done.
    rewrite sanitize_cons, sanitize_plain by done.
    rewrite Hone. cbn [of_option rbind].
    rewrite str_index_first by done.
    destruct (Z.eqb_spec (0 + len pat + 1) (-1)); [lia|].
    rewrite (split_second del pat rep).
    rewrite (str_from_mid _ rep) by (rewrite Hp2; lia).
    cbn [of_option rbind]. rewrite str_index_absent by done.
    destruct (Z.eqb_spec (-1 + (0 + len pat + 1) + 1) (-1)); [lia|].
    rewrite <- (split_second del pat rep). rewrite Hmat. cbn [of_option rbind].
    by rewrite str_slice_inverted by lia.
  - unfold sub_parse. rewrite Hbad, string_of_byte_low by done.
    rewrite sanitize_cons, sanitize_plain by done.
    rewrite Hone. cbn [of_option rbind].
    rewrite str_index_absent by done. cbn [Z.add Z.eqb Z.opp Pos.eqb].
    rewrite Hone. cbn [of_option rbind].
    rewrite str_index_absent by done. cbn [Z.add Z.eqb Z.opp Pos.eqb].
    by rewrite str_slice_inverted by lia.
Qed.

Lemma sub_parse_three_delimiters_witness :
  sub_parse "/b/XX/g" = Ok ("b", "XX")%string
  /\ sub_parse "/b/XX" = Panic
  /\ sub_parse "/b" = Panic.
Proof.
  apply (sub_parse_three_delimiters "/" "b" "XX" "g"); try reflexivity.
  - vm_compute. lia.
  - discriminate.
  - intros H. repeat (apply elem_of_cons in H as [H|H]; [discriminate|]).
    by apply elem_of_nil in H.
  - intros H. repeat (apply elem_of_cons in H as [H|H]; [discriminate|]).
    by apply elem_of_nil in H.
  - intros H. repeat (apply elem_of_cons in H as [H|H]; [discriminate|]).
    by apply elem_of_nil in H.
  - intros H. repeat (apply elem_of_cons in H as [H|H]; [discriminate|]).
    by apply elem_of_nil in H.
Defined.

(** ** Substitution, slot by slot *)

Lemma range_lines_single (f : FileBuffer) (l : Z) (s : string) :
  line_at f l = Some s -> range_lines f (l, l) = [s].
Proof.
  intros Hs. unfold range_lines. cbn [fst snd].
  replace (l - l + 1) with 1 by lia.
  change (seqZ l 1) with [0 + l]. cbn [Z.add]. by rewrite (omap_cons_Some _ _ s).
Qed.

Section SubstituteSlot.
Context {RE : Regexp}.

(** X24.  [cmdSub] puts the rewritten line at its index in
    the range, not at its line.  On a sound buffer, for a substitute
    command that parses and compiles, with addresses that resolve to the
    single line [l], whose text matches and is rewritten to [t]: the
    command succeeds, [t] is appended to the pool and takes the place of
    slot 0 of the view, whatever [l] is; the other slots of the view stay
    as they were, the dirty flag is set and the current address is 0. *)
Theorem cmdSub_rewrites_by_range_index env ctx (f : FileBuffer)
  (suffix mat rep : string) (rx : regex) (l : Z) (s t : string) :
  sound f ->
  str_from (c_cmd ctx) (c_cmdOffset ctx + 1) = Some suffix ->
  sub_parse suffix = Ok (mat, rep) ->
  AddrRangeOrLine f (c_addrs ctx) = ((l, l), None) ->
  Compile mat = Some rx ->
  line_at f l = Some s ->
  FindAllStringSubmatchIndex rx s <> [] ->
  sub_line rep s (backrefs_of rep) (FindAllStringSubmatchIndex rx s) 0 EmptyString = Ok t ->
  cmdSub env ctx f
  = Val None
      (mkFileBuffer (buffer f ++ [t])
         (Z.of_nat (length (buffer f)) :: drop 1 (file f))
         true 0 (marks f) (history f)).
Proof.
  intros Hs Hsuf Hparse Hr Hcomp Hline Hm Hsub.
  pose proof (AddrRangeOrLine_ok f _ _ Hr) as (Hlo & _ & Hhi). cbn [fst snd] in *.
  unfold cmdSub. unfold bind at 1, cmd_suffix. rewrite Hsuf. unfold ret at 1.
  rewrite Hparse. unfold bind at 1, get_buf. rewrite Hr, Hcomp.
  unfold bind at 1. rewrite Get_range; [|by apply sound_wf_view|lia..].
  rewrite (range_lines_single f l s Hline). cbn [sub_lines].
  destruct (FindAllStringSubmatchIndex rx s) as [|m ms] eqn:Hms; [done|].
  cbn [length Nat.eqb]. fold (backrefs_of rep). rewrite Hsub.
  unfold bind at 1.
  rewrite Delete_range;
    [|by apply (sound_NoDup f)|lia|lia|change (Len (set_addr l f)) with (Len f); lia].
  unfold bind at 1. rewrite Insert_result; [|done|].
  2:{ unfold Len. cbn. lia. }
  unfold ret. cbn [buffer file marks history take drop app length].
  destruct (Z.eqb_spec (0 + Z.of_nat (S (length ms))) 0); [lia|].
  reflexivity.
Qed.

End SubstituteSlot.

Lemma cmdSub_rewrites_by_range_index_witness :
  cmdSub (RE := LiteralRegexp) quiet_env (mkContext "2s/b/XX/" 1 [1]) three_lines
  = Val None (mkFileBuffer ["a"; "b"; "c"; "XX"]%string [3; 1; 2] true 0 ∅ []).
Proof.
  exact (cmdSub_rewrites_by_range_index (RE := LiteralRegexp) quiet_env
           (mkContext "2s/b/XX/" 1 [1]) three_lines "/b/XX/" "b" "XX" "b"%string 1
           "b" "XX" (sound_NewFileBuffer _) eq_refl eq_refl eq_refl eq_refl eq_refl
           ltac:(discriminate) eq_refl).
Defined.

(** ** Scrolling *)

(** X25.  [cmdScroll] (z) without a window size in the command, on a
    buffer whose view holds only indices of the pool, with a valid last
    address [start] and a positive window size in the state, small
    enough for [start + winSize] not to overflow: the command succeeds
    and changes only the current address, which becomes the last line of
    the window, [start + winSize - 1], or the last line of the view when
    the window reaches beyond it. *)
Theorem cmdScroll_window env ctx (f : FileBuffer) (start : Z) :
  wf_view f = true ->
  AddrValue f (c_addrs ctx) = (start, None) ->
  str_from (c_cmd ctx) (c_cmdOffset ctx + 1) = Some EmptyString ->
  0 < winSize env -> start + winSize env <= max_int ->
  cmdScroll env ctx f
  = Val None (set_addr (Z.min (start + winSize env - 1) (Len f - 1)) f).
Proof.
  intros Hwf Ha Hsuf Hwin Hmax.
  assert (Hstart : 0 <= start < Len f).
  { unfold AddrValue in Ha. destruct (rev (c_addrs ctx)) as [|r ?]; [done|].
    destruct (OOB f r) eqn:Hoob; [done|]. injection Ha as ->. by apply OOB_false. }
  unfold cmdScroll, bind, get_buf, cmd_suffix. rewrite Ha, Hsuf. unfold ret at 1.
  change (0 <? len "") with false. cbv iota beta.
  assert (Hmin : min_int <= 0) by (unfold min_int; lia).
  rewrite (wrap_small (start + winSize env)) by lia.
  rewrite (wrap_small (start + winSize env - 1)) by lia.
  set (end_ := if start + winSize env - 1 >? Len f - 1 then Len f - 1
               else start + winSize env - 1).
  assert (Hend : end_ = Z.min (start + winSize env - 1) (Len f - 1)).
  { unfold end_. destruct (Z.gtb_spec (start + winSize env - 1) (Len f - 1)); lia. }
  rewrite Get_range by (done || lia). unfold ret. by rewrite Hend.
Qed.

Lemma cmdScroll_window_witness :
  cmdScroll (mkEnv [] "" 2 false (fun _ => true) (fun _ => Some []) (fun _ _ _ => None))
    (mkContext "1z" 1 [0]) (NewFileBuffer ["a"; "b"; "c"; "d"]%string)
  = Val None (set_addr 1 (NewFileBuffer ["a"; "b"; "c"; "d"]%string)).
Proof.
  rewrite (cmdScroll_window
             (mkEnv [] "" 2 false (fun _ => true) (fun _ => Some []) (fun _ _ _ => None))
             (mkContext "1z" 1 [0]) (NewFileBuffer ["a"; "b"; "c"; "d"]%string) 0);
    [reflexivity|reflexivity|reflexivity|reflexivity|reflexivity|vm_compute; discriminate].
Defined.

(** ** Move and transfer *)

Lemma range_lines_length (f : FileBuffer) (lo hi : Z) :
  wf_view f = true -> 0 <= lo -> lo <= hi -> hi < Len f ->
  Z.of_nat (length (range_lines f (lo, hi))) = hi - lo + 1.
Proof.
  intros Hwf Hlo Hle Hhi.
  assert (H : length (map Some (range_lines f (lo, hi)))
              = length (map (line_at f) (seqZ lo (hi - lo + 1)))).
  { f_equal. unfold range_lines. cbn [fst snd]. apply omap_all_Some.
    intros l Hl. apply elem_of_seqZ in Hl. apply wf_view_line_at; [done|lia]. }
  rewrite !length_map, length_seqZ in H. lia.
Qed.

Lemma allow_zero_last (pre : list Z) (d : Z) :
  allow_zero (pre ++ [d])
  = if d =? -1 then Some (pre ++ [0], 0) else Some (pre ++ [d], 1).
Proof.
  unfold allow_zero. rewrite length_app. cbn [length].
  replace (Z.of_nat (length pre + 1) - 1) with (Z.of_nat (length pre)) by lia.
  rewrite idx_lookup, Nat2Z.id by lia.
  rewrite lookup_app_r, Nat.sub_diag by lia. cbn [lookup list_lookup].
  destruct (d =? -1); [|done].
  rewrite insert_app_r_alt, Nat.sub_diag by lia. reflexivity.
Qed.

Section MoveFacts.
Context {RE : Regexp}.

(** [cmdMove] up to the insertion: the destination [d], as the
    address resolver returns it, gives the slot [d + 1]. *)
Lemma cmdMove_head env ctx (f : FileBuffer) (c : ascii) (a b : Z) (pre : list Z)
  (d off : Z) (suffix : string) :
  wf_view f = true ->
  str_at (c_cmd ctx) (c_cmdOffset ctx) = Some c ->
  AddrRangeOrLine f (c_addrs ctx) = ((a, b), None) ->
  str_from (c_cmd ctx) (c_cmdOffset ctx + 1) = Some suffix ->
  ResolveAddrs suffix f = Val (pre ++ [d], off, None) f ->
  -1 <= d < Len f -> Z.max d 0 < a \/ b < d ->
  cmdMove env ctx f
  = match Insert (d + 1) (range_lines f (a, b)) (set_addr b f) with
    | Val (Some e) g => Val (Some e) g
    | Val None g =>
        if ascii_eqb c "m"
        then Delete (if Z.max d 0 <? a then (a + (b - a + 1), b + (b - a + 1)) else (a, b)) g
        else Val None g
    | Crash => Crash
    | Exited => Exited
    | NilBuffer e => NilBuffer e
    end.
Proof.
  intros Hwf Hc Hr Hsuf Hdest Hd Hcase.
  pose proof (AddrRangeOrLine_ok f _ _ Hr) as (Hlo & Hle & Hhi). cbn [fst snd] in *.
  unfold cmdMove. unfold bind at 1, cmd_byte. rewrite Hc. unfold ret at 1.
  unfold bind at 1, get_buf. rewrite Hr.
  unfold bind at 1, cmd_suffix. rewrite Hsuf. unfold ret at 1.
  unfold bind at 1. rewrite Hdest. rewrite allow_zero_last.
  assert (Hval : forall x, 0 <= x < Len f -> AddrValue f (pre ++ [x]) = (x, None)).
  { intros x Hx. rewrite (AddrValue_last f _ x) by by rewrite last_snoc.
    by rewrite (proj2 (OOB_false f x)). }
  assert (Hget : Get (a, b) f = Val (range_lines f (a, b), None) (set_addr b f))
    by by apply Get_range.
  destruct (Z.eqb_spec d (-1)) as [->|Hne].
  - unfold bind at 1. rewrite Hval by lia. unfold bind at 1. rewrite Hget.
    cbn [fst snd].
    destruct (Z.ltb_spec 0 a); [|lia].
    unfold bind at 1. change (Z.max (-1) 0) with 0.
    destruct (Z.ltb_spec 0 a); [|lia]. change (-1 + 1) with (0 + 0).
    destruct (Insert (0 + 0) _ _) as [[e|] g| | |?]; try reflexivity.
    by destruct (ascii_eqb c "m").
  - unfold bind at 1. rewrite Hval by lia. unfold bind at 1. rewrite Hget.
    cbn [fst snd]. rewrite Z.max_l in * by lia.
    destruct (Z.ltb_spec d a).
    + unfold bind at 1. destruct (Insert (d + 1) _ _) as [[e|] g| | |?]; try reflexivity.
      by destruct (ascii_eqb c "m").
    + destruct (Z.gtb_spec d b); [|lia].
      unfold bind at 1. destruct (Insert (d + 1) _ _) as [[e|] g| | |?]; try reflexivity.
      by destruct (ascii_eqb c "m").
Qed.

(** X26.  [cmdMove] for t.  With a range [(a, b)] that
    [AddrRangeOrLine] accepts and a destination that resolves, without
    moving the current address, to a line [d] of the view, or to -1 for
    the address 0, with [d] after the range or, counting -1 as 0, before
    it: the lines [a..b] are appended to the pool once more and the new
    pool indices are spliced into the view at slot [d + 1]; no slot is
    removed, the dirty flag is set and the current address is the last
    of the copies, [d + (b - a + 1)]. *)
Theorem cmdMove_transfer env ctx (f : FileBuffer) (a b : Z) (pre : list Z)
  (d off : Z) (suffix : string) :
  wf_view f = true ->
  str_at (c_cmd ctx) (c_cmdOffset ctx) = Some "t"%char ->
  AddrRangeOrLine f (c_addrs ctx) = ((a, b), None) ->
  str_from (c_cmd ctx) (c_cmdOffset ctx + 1) = Some suffix ->
  ResolveAddrs suffix f = Val (pre ++ [d], off, None) f ->
  -1 <= d < Len f -> Z.max d 0 < a \/ b < d ->
  cmdMove env ctx f
  = Val None
      (mkFileBuffer (buffer f ++ range_lines f (a, b))
         (take (Z.to_nat (d + 1)) (file f)
            ++ seqZ (Z.of_nat (length (buffer f))) (b - a + 1)
            ++ drop (Z.to_nat (d + 1)) (file f))
         true (d + (b - a + 1)) (marks f) (history f)).
Proof.
  intros Hwf Hc Hr Hsuf Hdest Hd Hcase.
  rewrite (cmdMove_head env ctx f "t" a b pre d off suffix) by done.
  pose proof (AddrRangeOrLine_ok f _ _ Hr) as (Hlo & Hle & Hhi). cbn [fst snd] in *.
  pose proof (range_lines_length f a b Hwf Hlo Hle Hhi) as Hn.
  rewrite Insert_result.
  - change (ascii_eqb "t" "m") with false. cbn [buffer file marks history set_addr].
    rewrite Hn. do 2 f_equal. lia.
  - intros Hnil. rewrite Hnil in Hn. cbn in Hn. lia.
  - change (Len (set_addr b f)) with (Len f). lia.
Qed.

(** X27.  [cmdMove] for m, on a sound buffer, with a range [(a, b)]
    that [AddrRangeOrLine] accepts and a destination that resolves,
    without moving the current address, to a line [d] of the view or to
    -1 for the address 0.  The moved lines are appended to the pool once
    more and the view gets their new pool indices.  For a destination
    after the range, [b < d], the view becomes the slots before [a], the
    slots after [b] up to [d], the moved lines, and the slots after [d],
    and the current address is [a + 1].  For a destination before the
    range, the larger of [d] and 0 less than [a], the view becomes the
    slots up to [d], the moved lines, the slots between [d] and [a], and
    the slots after [b], and the current address is [b + 2] when that is
    a line of the view and 0 otherwise.  In both cases the dirty flag is
    set. *)
Theorem cmdMove_moves env ctx (f : FileBuffer) (a b : Z) (pre : list Z)
  (d off : Z) (suffix : string) :
  sound f ->
  str_at (c_cmd ctx) (c_cmdOffset ctx) = Some "m"%char ->
  AddrRangeOrLine f (c_addrs ctx) = ((a, b), None) ->
  str_from (c_cmd ctx) (c_cmdOffset ctx + 1) = Some suffix ->
  ResolveAddrs suffix f = Val (pre ++ [d], off, None) f ->
  -1 <= d < Len f ->
  (b < d ->
   cmdMove env ctx f
   = Val None
       (mkFileBuffer (buffer f ++ range_lines f (a, b))
          (take (Z.to_nat a) (file f)
             ++ drop (Z.to_nat (b + 1)) (take (Z.to_nat (d + 1)) (file f))
             ++ seqZ (Z.of_nat (length (buffer f))) (b - a + 1)
             ++ drop (Z.to_nat (d + 1)) (file f))
          true (a + 1) (marks f) (history f)))
  /\ (Z.max d 0 < a ->
      cmdMove env ctx f
      = Val None
          (mkFileBuffer (buffer f ++ range_lines f (a, b))
             (take (Z.to_nat (d + 1)) (file f)
                ++ seqZ (Z.of_nat (length (buffer f))) (b - a + 1)
                ++ take (Z.to_nat (a - d - 1)) (drop (Z.to_nat (d + 1)) (file f))
                ++ drop (Z.to_nat (b + 1)) (file f))
             true (if b + 2 <? Len f then b + 2 else 0) (marks f) (history f))).
Proof.
  intros Hs Hc Hr Hsuf Hdest Hd.
  pose proof (sound_wf_view f Hs) as Hwf.
  pose proof (AddrRangeOrLine_ok f _ _ Hr) as (Hlo & Hle & Hhi). cbn [fst snd] in *.
  pose proof (range_lines_length f a b Hwf Hlo Hle Hhi) as Hn.
  assert (Hne : range_lines f (a, b) <> []).
  { intros Hnil. rewrite Hnil in Hn. cbn in Hn. lia. }
  assert (Hins : 0 <= d + 1 <= Len (set_addr b f))
    by (change (Len (set_addr b f)) with (Len f); lia).
  assert (Hsb : sound (set_addr b f)).
  { apply (keeps_sound_set_addr b f); [apply OOB_false; lia|done]. }
  pose proof (Insert_keeps_sound (d + 1) _ (set_addr b f) _ _
                (Insert_result (set_addr b f) (d + 1) _ Hne Hins) Hsb) as Hs1.
  apply sound_NoDup in Hs1. cbn [file set_addr] in Hs1.
  set (n := b - a + 1) in *.
  set (new := seqZ (Z.of_nat (length (buffer f))) n).
  rewrite Hn in Hs1. fold new in Hs1.
  assert (Hnew : Z.of_nat (length new) = n) by (unfold new; rewrite length_seqZ; lia).
  unfold Len in *.
  split.
  - intros Hcase.
    rewrite (cmdMove_head env ctx f "m" a b pre d off suffix)
      by (done || unfold Len; lia).
    rewrite Insert_result by done.
    change (ascii_eqb "m" "m") with true. cbv iota.
    destruct (Z.ltb_spec (Z.max d 0) a); [lia|].
    cbn [buffer file marks history set_addr]. rewrite Hn. fold new.
    rewrite Delete_range;
      [|done|lia|lia
       |unfold Len; cbn [file]; rewrite !length_app, length_take, length_drop; lia].
    cbn [buffer file marks history]. f_equal. f_equal.
    + rewrite take_app_le by (rewrite length_take; lia).
      rewrite take_take. rewrite Nat.min_l by lia.
      rewrite drop_app_le by (rewrite length_take; lia).
      reflexivity.
    + unfold Len. cbn [file]. rewrite !length_app, length_take, length_drop.
      destruct (Z.ltb_spec (a + 1)
                  (Z.of_nat (Z.to_nat (d + 1) `min` length (file f)
                             + (length new + (length (file f) - Z.to_nat (d + 1))))
                   - (b - a + 1))); [done|lia].
  - intros Hcase.
    rewrite (cmdMove_head env ctx f "m" a b pre d off suffix)
      by (done || unfold Len; lia).
    rewrite Insert_result by done.
    change (ascii_eqb "m" "m") with true. cbv iota.
    destruct (Z.ltb_spec (Z.max d 0) a); [|lia].
    cbn [buffer file marks history set_addr]. rewrite Hn. fold new.
    rewrite Delete_range;
      [|done|lia|lia
       |unfold Len; cbn [file]; rewrite !length_app, length_take, length_drop; lia].
    cbn [buffer file marks history]. f_equal. f_equal.
    + rewrite take_app_ge by (rewrite length_take; lia).
      rewrite length_take.
      rewrite take_app_ge by lia.
      rewrite drop_app_ge by (rewrite length_take; lia).
      rewrite length_take.
      rewrite drop_app_ge by lia.
      rewrite drop_drop. rewrite <- !app_assoc.
      f_equal. f_equal. f_equal; f_equal; lia.
    + unfold Len. cbn [file]. rewrite !length_app, length_take, length_drop.
      fold n.
      destruct (Z.ltb_spec (a + n + 1)
                  (Z.of_nat (Z.to_nat (d + 1) `min` length (file f)
                             + (length new + (length (file f) - Z.to_nat (d + 1))))
                   - (b + n - (a + n) + 1)));
        destruct (Z.ltb_spec (b + 2) (Z.of_nat (length (file f)))); lia.
Qed.

End MoveFacts.

Lemma cmdMove_transfer_witness :
  cmdMove (RE := LiteralRegexp) quiet_env (mkContext "1t3" 1 [0]) three_lines
  = Val None (mkFileBuffer ["a"; "b"; "c"; "a"]%string [0; 1; 2; 3] true 3 ∅ []).
Proof.
  rewrite (cmdMove_transfer (RE := LiteralRegexp) quiet_env (mkContext "1t3" 1 [0])
             three_lines 0 0 [] 2 1 "3");
    [reflexivity|reflexivity|reflexivity|reflexivity|reflexivity|reflexivity
    |vm_compute; split; [discriminate|reflexivity]|right; lia].
Defined.

Lemma cmdMove_moves_witness :
  cmdMove (RE := LiteralRegexp) quiet_env (mkContext "1m3" 1 [0]) three_lines
    = Val None (mkFileBuffer ["a"; "b"; "c"; "a"]%string [1; 2; 3] true 1 ∅ [])
  /\ cmdMove (RE := LiteralRegexp) quiet_env (mkContext "3m0" 1 [2]) three_lines
     = Val None (mkFileBuffer ["a"; "b"; "c"; "c"]%string [3; 0; 1] true 0 ∅ []).
Proof.
  split.
  - destruct (cmdMove_moves (RE := LiteralRegexp) quiet_env (mkContext "1m3" 1 [0])
                three_lines 0 0 [] 2 1 "3" (sound_NewFileBuffer _) eq_refl eq_refl
                eq_refl eq_refl) as [H _];
      [vm_compute; split; [discriminate|reflexivity]|].
    rewrite H; [reflexivity|lia].
  - destruct (cmdMove_moves (RE := LiteralRegexp) quiet_env (mkContext "3m0" 1 [2])
                three_lines 2 2 [] (-1) 1 "0" (sound_NewFileBuffer _) eq_refl eq_refl
                eq_refl eq_refl) as [_ H];
      [vm_compute; split; [discriminate|reflexivity]|].
    rewrite H; [reflexivity|lia].
Defined.

(** ** The forms of an address *)

Lemma digit_is_no_symbol (c : ascii) :
  is_digit c = true ->
  ascii_eqb c "." = false /\ ascii_eqb c "$" = false.
Proof.
  intros H. destruct c as [[] [] [] [] [] [] [] []]; vm_compute in H |- *;
    (discriminate H || done).
Qed.

Lemma take_digits_app (ds rest : string) :
  all_digits ds = true ->
  (forall c r, rest = String c r -> is_digit c = false) ->
  take_digits (ds +:+ rest) = ds.
Proof.
  intros Hds Hrest. induction ds as [|c ds IH].
  - rewrite append_nil. destruct rest as [|c r]; [done|].
    cbn [take_digits]. by rewrite (Hrest c r eq_refl).
  - cbn [all_digits] in Hds. apply andb_true_iff in Hds as [Hc Hds].
    rewrite append_cons. cbn [take_digits]. by rewrite Hc, IH.
Qed.

Lemma ResolveOffset_no_space (rest : string) :
  (forall c r, rest = String c r -> is_space c = false) ->
  ResolveOffset rest = (0, 0, None).
Proof.
  intros Hrest. unfold ResolveOffset, rxOff_Find.
  destruct rest as [|c r]; [done|]. cbn [skip_space]. by rewrite (Hrest c r eq_refl).
Qed.

Lemma offsets_loop_no_space (fuel : nat) (rest : string) (line co : Z) :
  (forall c r, rest = String c r -> is_space c = false) ->
  offsets_loop fuel rest line co = (line, co, None).
Proof.
  intros Hrest. destruct fuel as [|fuel]; [done|]. cbn [offsets_loop].
  by rewrite ResolveOffset_no_space.
Qed.

Section AddressForms.
Context {RE : Regexp}.

(** X28.  The simple forms of an address, followed by a text
    that starts with neither a digit nor a white space, so that no
    offset follows.  [ResolveAddr] reads a dot as the current address
    and a dollar as [Len - 1], each with offset 1; a numeral as its
    value less one, with the length of the numeral as offset, and, when
    the value is above the largest machine integer, as the current
    address with the conversion error; a quote and a lower-case letter
    as what [GetMark] returns for that letter, line and error, with
    offset 2. *)
Theorem ResolveAddr_simple_forms (f : FileBuffer) (rest : string) :
  (forall c r, rest = String c r -> is_digit c = false /\ is_space c = false) ->
  ResolveAddr f (String "." rest) = Some (GetAddr f, 1, None)
  /\ ResolveAddr f (String "$" rest) = Some (Len f - 1, 1, None)
  /\ (forall c ds,
        is_digit c = true -> all_digits ds = true ->
        ResolveAddr f (String c ds +:+ rest)
        = if digits_val 0 (String c ds) <=? max_int
          then Some (digits_val 0 (String c ds) - 1, len (String c ds), None)
          else Some (GetAddr f, len (String c ds), Some (ErrAtoi (String c ds))))
  /\ (forall c,
        is_lower c = true ->
        ResolveAddr f (String "'" (String c rest))
        = match GetMark f c with
          | (l, None) => Some (l, 2, None)
          | (l, Some e) => Some (l, 2, Some e)
          end).
Proof.
  intros Hrest.
  assert (Hsp : forall c r, rest = String c r -> is_space c = false)
    by (intros c r H; by apply (Hrest c r)).
  assert (Hdg : forall c r, rest = String c r -> is_digit c = false)
    by (intros c r H; by apply (Hrest c r)).
  split_and!.
  - unfold ResolveAddr.
    change (rxSingle_FindString (String "." rest)) with "."%string.
    cbn [String.length Nat.eqb].
    change (rxSingleSymbol_Match ".") with true. change (ascii_eqb "." "$") with false.
    cbv iota. change (drop_str 1 (String "." rest)) with rest.
    by rewrite offsets_loop_no_space.
  - unfold ResolveAddr.
    change (rxSingle_FindString (String "$" rest)) with "$"%string.
    cbn [String.length Nat.eqb].
    change (rxSingleSymbol_Match "$") with true. change (ascii_eqb "$" "$") with true.
    cbv iota. change (drop_str 1 (String "$" rest)) with rest.
    by rewrite offsets_loop_no_space.
  - intros c ds Hc Hds.
    destruct (digit_is_no_symbol c Hc) as [Hdot Hdollar].
    assert (Hall : all_digits (String c ds) = true) by (cbn; by rewrite Hc, Hds).
    assert (Hm : rxSingle_FindString (String c ds +:+ rest) = String c ds).
    { rewrite append_cons. unfold rxSingle_FindString. rewrite Hdot, Hdollar, Hc.
      cbn [orb]. rewrite <- append_cons. by apply take_digits_app. }
    unfold ResolveAddr. rewrite Hm. cbn [String.length Nat.eqb].
    unfold rxSingleSymbol_Match, rxNumber_Match. rewrite Hdot, Hdollar, Hc. cbn [orb].
    rewrite <- (append_nil (String c ds)) at 1.
    replace (take_digits (EmptyString +:+ String c ds)) with (String c ds).
    2:{ rewrite append_nil. rewrite <- (take_digits_app (String c ds) EmptyString) at 1;
          [|done..]. f_equal. clear. induction (String c ds) as [|x s IH]; [done|].
        by rewrite append_cons, IH. }
    unfold Atoi. rewrite Hall. cbn [negb String.length Nat.eqb orb].
    destruct (_ <=? max_int); [|done].
    change (S (String.length ds)) with (String.length (String c ds)).
    by rewrite drop_str_app, offsets_loop_no_space.
  - intros c Hc.
    assert (Hm : rxSingle_FindString (String "'" (String c rest))
                 = String "'" (String c EmptyString)).
    { unfold rxSingle_FindString. change (ascii_eqb "'" "." || ascii_eqb "'" "$") with false.
      change (is_digit "'") with false.
      change (ascii_eqb "'" "-" || ascii_eqb "'" "+") with false.
      change (ascii_eqb "'" "'") with true. cbv iota. by rewrite Hc. }
    unfold ResolveAddr. rewrite Hm. cbn [String.length Nat.eqb].
    change (rxSingleSymbol_Match (String "'" (String c EmptyString))) with false.
    change (rxNumber_Match (String "'" (String c EmptyString))) with false.
    change (rxOffset_Match (String "'" (String c EmptyString))) with false.
    unfold rxMark_Match. change (ascii_eqb "'" "'") with true. rewrite Hc. cbn [andb].
    change (str_at (String "'" (String c EmptyString)) 1) with (Some c).
    cbv beta iota. destruct (GetMark f c) as [l [e|]]; [reflexivity|].
    change (drop_str 2 (String "'" (String c rest))) with rest.
    rewrite offsets_loop_no_space by done. reflexivity.
Qed.

End AddressForms.

Lemma ResolveAddr_simple_forms_witness :
  ResolveAddr (RE := LiteralRegexp) three_lines ".p" = Some (0, 1, None)
  /\ ResolveAddr (RE := LiteralRegexp) three_lines "$p" = Some (2, 1, None)
  /\ ResolveAddr (RE := LiteralRegexp) three_lines "12p" = Some (11, 2, None)
  /\ ResolveAddr (RE := LiteralRegexp) three_lines "'xp"
     = Some (-1, 2, Some (ErrNoMark "x")).
Proof.
  destruct (ResolveAddr_simple_forms (RE := LiteralRegexp) three_lines "p")
    as (H1 & H2 & H3 & H4).
  - intros c r [= <- <-]. split; reflexivity.
  - split; [exact H1|]. split; [exact H2|]. split.
    + exact (H3 "1"%char "2"%string eq_refl eq_refl).
    + exact (H4 "x"%char eq_refl).
Defined.

(** ** Backward search *)

Lemma re_body_bwd_reparse (s b : string) :
  re_body_bwd s = Some b -> re_body_bwd (b +:+ "?") = Some b.
Proof.
  revert b. induction s as [|c s IH]; intros b; [done|]. cbn [re_body_bwd].
  destruct (ascii_eqb c "?") eqn:Hc.
  - intros [= <-]. reflexivity.
  - destruct (re_body_bwd s) as [b0|]; [|done]. cbn. intros [= <-].
    rewrite append_cons. cbn [re_body_bwd]. rewrite Hc. by rewrite (IH b0).
Qed.

Section BackwardSearch.
Context {RE : Regexp}.

Lemma probe_backward (f : FileBuffer) (i : Z) :
  0 <= GetAddr f < Len f -> 0 <= i < Len f ->
  probe f (-1) i = (GetAddr f - i) mod Len f.
Proof.
  intros Ha Hi. unfold probe.
  rewrite Z.rem_mod_nonneg by lia.
  replace (-1 * i + GetAddr f + Len f) with (GetAddr f - i + 1 * Len f) by lia.
  by rewrite Z.mod_add by lia.
Qed.

Lemma ResolveAddr_backward (f : FileBuffer) (cmd' pat : string) (re : regex) :
  re_body_bwd cmd' = Some pat -> Compile pat = Some re ->
  ResolveAddr f (String "?" cmd') =
    match search_loop f re (-1) (seqZ 0 (Len f)) with
    | None => None
    | Some (Some c) => Some (c, len pat + 2, None)
    | Some None => Some (GetAddr f, len pat + 2, Some (ErrRegexpNotFound pat))
    end.
Proof.
  intros Hbody Hcomp. unfold ResolveAddr.
  assert (Hm : rxSingle_FindString (String "?" cmd') = String "?" (pat +:+ "?")).
  { cbn. by rewrite Hbody. }
  rewrite Hm. cbn [String.length Nat.eqb].
  assert (Hlen : len (String "?" (pat +:+ "?")) = len pat + 2).
  { unfold len. cbn [String.length]. rewrite length_append. cbn [String.length]. lia. }
  rewrite Hlen.
  change (rxSingleSymbol_Match (String "?" (pat +:+ "?"))) with false.
  change (rxNumber_Match (String "?" (pat +:+ "?"))) with false.
  change (rxOffset_Match (String "?" (pat +:+ "?"))) with false.
  assert (Hmark : rxMark_Match (String "?" (pat +:+ "?")) = false).
  { unfold rxMark_Match. by destruct (pat +:+ "?"). }
  rewrite Hmark. cbv iota.
  assert (Hre : rxRE_Find (String "?" (pat +:+ "?"))
                = Some (String "?" (pat +:+ "?"), EmptyString, pat)).
  { cbn. by rewrite (re_body_bwd_reparse cmd' pat Hbody). }
  rewrite Hre. cbv beta iota. change (ascii_eqb "?" "?") with true. cbv iota.
  by rewrite Hcomp.
Qed.

(** X29.  On a non-empty buffer whose current address is a
    line of the view and whose view holds only indices of the pool, the
    backward search [?re?] examines the lines current, current - 1, ...,
    wrapping from line 0 to the last line, and yields the first that
    matches, the current line included, with the offset past the closing
    delimiter; when no line of the view matches, it returns the current
    address with the error that the regular expression was not
    found. *)
Theorem backward_search_first_match (f : FileBuffer) (cmd' pat : string) (re : regex) :
  0 < Len f -> 0 <= GetAddr f < Len f -> wf_view f = true ->
  re_body_bwd cmd' = Some pat -> Compile pat = Some re ->
  (forall k, 0 <= k < Len f ->
     (exists s, line_at f ((GetAddr f - k) mod Len f) = Some s
                /\ MatchString re s = true) ->
     (forall j, 0 <= j < k ->
        exists s, line_at f ((GetAddr f - j) mod Len f) = Some s
                  /\ MatchString re s = false) ->
     ResolveAddr f (String "?" cmd')
     = Some ((GetAddr f - k) mod Len f, len pat + 2, None))
  /\ ((forall c, 0 <= c < Len f ->
         exists s, line_at f c = Some s /\ MatchString re s = false) ->
      ResolveAddr f (String "?" cmd')
      = Some (GetAddr f, len pat + 2, Some (ErrRegexpNotFound pat))).
Proof.
  intros HN Haddr Hwf Hbody Hcomp. split.
  - intros k Hk Hmatch Hfirst.
    rewrite (ResolveAddr_backward f cmd' pat re Hbody Hcomp).
    replace (Len f) with (k + (1 + (Len f - k - 1))) at 1 by lia.
    rewrite seqZ_app by lia. rewrite (seqZ_cons (0 + k)) by lia.
    rewrite (search_loop_found f re (-1) (seqZ 0 k) (0 + k)).
    + by rewrite probe_backward by lia.
    + intros i Hi. apply elem_of_seqZ in Hi.
      rewrite probe_backward by lia. apply Hfirst. lia.
    + rewrite probe_backward by lia. exact Hmatch.
  - intros Hnone.
    rewrite (ResolveAddr_backward f cmd' pat re Hbody Hcomp).
    rewrite search_loop_none; [done|].
    intros i Hi. apply elem_of_seqZ in Hi.
    rewrite probe_backward by lia. apply Hnone.
    apply Z.mod_pos_bound. lia.
Qed.

End BackwardSearch.

Lemma backward_search_first_match_witness :
  ResolveAddr (RE := LiteralRegexp) (set_addr 1 three_lines) "?c?p" = Some (2, 3, None)
  /\ ResolveAddr (RE := LiteralRegexp) (set_addr 1 three_lines) "?z?p"
     = Some (1, 3, Some (ErrRegexpNotFound "z")).
Proof.
  assert (HN : 0 < Len (set_addr 1 three_lines)) by reflexivity.
  assert (Haddr : 0 <= GetAddr (set_addr 1 three_lines) < Len (set_addr 1 three_lines))
    by (change (0 <= 1 < 3); lia).
  assert (Hwf : wf_view (set_addr 1 three_lines) = true) by reflexivity.
  split.
  - destruct (backward_search_first_match (RE := LiteralRegexp)
                (set_addr 1 three_lines) "c?p" "c" "c"%string HN Haddr Hwf
                eq_refl eq_refl) as [Hfound _].
    apply (Hfound 2); [change (0 <= 2 < 3); lia| |].
    + exists "c"%string. split; reflexivity.
    + intros j Hj. assert (Hcases : j = 0 \/ j = 1) by lia.
      destruct Hcases as [-> | ->].
      * exists "b"%string. split; reflexivity.
      * exists "a"%string. split; reflexivity.
  - destruct (backward_search_first_match (RE := LiteralRegexp)
                (set_addr 1 three_lines) "z?p" "z" "z"%string HN Haddr Hwf
                eq_refl eq_refl) as [_ Hnone].
    apply Hnone. intros c Hc. change (0 <= c < 3) in Hc.
    assert (Hcases : c = 0 \/ c = 1 \/ c = 2) by lia.
    destruct Hcases as [-> | [-> | ->]].
    + exists "a"%string. split; reflexivity.
    + exists "b"%string. split; reflexivity.
    + exists "c"%string. split; reflexivity.
Defined.

(** ** Loading a file *)

Lemma Size_loop_total (pool : list string) (v : list Z) (s : Z) :
  (forall b, b ∈ v -> 0 <= b < Z.of_nat (length pool)) ->
  exists z, Size_loop pool v s = Some z.
Proof.
  revert s. induction v as [|b v IH]; intros s Hv; cbn [Size_loop]; [by eexists|].
  assert (Hb : 0 <= b < Z.of_nat (length pool)) by (apply Hv; by left).
  rewrite idx_lookup by lia.
  destruct (lookup_lt_is_Some_2 pool (Z.to_nat b)) as [line ->]; [lia|].
  apply IH. intros b' Hb'. apply Hv. by right.
Qed.

Lemma Size_NewFileBuffer (lines : list string) : exists z, Size (NewFileBuffer lines) = Some z.
Proof.
  apply Size_loop_total. intros b Hb. cbn in Hb. apply elem_of_seqZ in Hb. cbn. lia.
Qed.

Section Loading.
Variable ReadFile : Env -> Z -> string -> M (option error).

(** X30.  [cmdEdit] for e and E with a file name: with a valid
    address, and after the command byte a white space and a name that
    does not start with an exclamation mark, for a file that is there,
    or with counts suppressed, and that can be read.  For e on a
    modified buffer the command fails with the warning that the file is
    modified and changes nothing.  For E, and for e on an unmodified
    buffer, the command succeeds and replaces the buffer: the pool is
    the lines of the file, the view lists them in order, the dirty flag
    is clear, the current address is 0 and no mark is set. *)
Theorem cmdEdit_loads env ctx (f : FileBuffer) (c : ascii) (a : Z)
  (w c0 : ascii) (rest : string) (lines : list string) :
  AddrValue f (c_addrs ctx) = (a, None) ->
  str_at (c_cmd ctx) (c_cmdOffset ctx) = Some c ->
  c = "e"%char \/ c = "E"%char ->
  str_from (c_cmd ctx) (c_cmdOffset ctx + 1) = Some (String w (String c0 rest)) ->
  is_space w = true -> c0 <> "!"%char ->
  file_exists env (String c0 rest) = true \/ fSuppress env = true ->
  file_lines env (String c0 rest) = Some lines ->
  (c = "e"%char -> dirty f = true ->
   cmdEdit ReadFile env ctx f = Val (Some ErrFileModified) f)
  /\ (c = "E"%char \/ dirty f = false ->
      exists f', cmdEdit ReadFile env ctx f = Val None f'
        /\ buffer f' = lines
        /\ file f' = seqZ 0 (Z.of_nat (length lines))
        /\ dirty f' = false /\ addr f' = 0 /\ marks f' = ∅).
Proof.
  intros Ha Hc Hbyte Hsuf Hw Hbang Hthere Hlines.
  assert (Hhead : cmdEdit ReadFile env ctx f =
            if Dirty f && negb (ascii_eqb c "E" || ascii_eqb c "r")
            then Val (Some ErrFileModified) f
            else match Size (NewFileBuffer lines) with
                 | Some _ => Val None (NewFileBuffer lines)
                 | None => if negb (fSuppress env) then Crash
                           else Val None (NewFileBuffer lines)
                 end).
  { unfold cmdEdit, bind, get_buf, cmd_byte, cmd_suffix. rewrite Ha, Hc, Hsuf.
    unfold ret at 1. cbv zeta.
    destruct (Dirty f && _); [reflexivity|]. unfold ret at 1.
    cbn [wsOffset]. rewrite Hw.
    change (drop_str (Z.to_nat 1) (String w (String c0 rest))) with (String c0 rest).
    cbv iota. unfold ascii_eqb at 1. rewrite (proj2 (Ascii.eqb_neq c0 "!") Hbang).
    assert (Hgo : negb (file_exists env (String c0 rest)) && negb (fSuppress env) = false).
    { destruct Hthere as [-> | ->]; [done|by rewrite andb_false_r]. }
    rewrite Hgo.
    assert (Hr : ascii_eqb c "r" = false) by (by destruct Hbyte as [-> | ->]).
    rewrite Hr. cbn [negb]. rewrite Hlines. unfold modify, ret.
    destruct (negb (fSuppress env)); [|by destruct (Size _)].
    by destruct (Size _). }
  rewrite Hhead. split.
  - intros -> Hd. unfold Dirty. by rewrite Hd.
  - intros Hforce.
    assert (Hgo : Dirty f && negb (ascii_eqb c "E" || ascii_eqb c "r") = false).
    { unfold Dirty. destruct Hforce as [-> | ->]; [by rewrite andb_false_r|done]. }
    rewrite Hgo. destruct (Size_NewFileBuffer lines) as [z ->].
    eexists. split; [reflexivity|]. by split_and!.
Qed.

End Loading.

Lemma cmdEdit_loads_witness :
  exists f',
    cmdEdit no_ReadFile
      (mkEnv [] "" 22 false (fun _ => true) (fun _ => Some ["x"; "y"]%string)
         (fun _ _ _ => None))
      (mkContext "E in" 0 [0]) (set_dirty true three_lines) = Val None f'
    /\ buffer f' = ["x"; "y"]%string /\ file f' = [0; 1] /\ dirty f' = false.
Proof.
  destruct (cmdEdit_loads no_ReadFile
              (mkEnv [] "" 22 false (fun _ => true) (fun _ => Some ["x"; "y"]%string)
                 (fun _ _ _ => None))
              (mkContext "E in" 0 [0]) (set_dirty true three_lines) "E" 0 " " "i" "n"
              ["x"; "y"]%string eq_refl eq_refl (or_intror eq_refl) eq_refl eq_refl
              ltac:(discriminate) (or_introl eq_refl) eq_refl) as [_ H].
  destruct H as (f' & Hrun & Hb & Hf & Hd & _); [by left|].
  exists f'. split; [exact Hrun|]. split; [exact Hb|]. split; [exact Hf|exact Hd].
Defined.
